(** * SMASH reaction kernel: cross sections of a colliding hadron pair

    A shallow embedding of [src/crosssections.cc] (class [cross_sections])
    and of [breit_wigner] from [src/distributions.cc].

    Beside the kernel: the density and table routines of
    [src/hadgas_eos.cc], [get_class] of
    [src/include/grandcan_thermalizer.h], the search for scatterings of
    [src/scatteractionsfinder.cc] and the choice of channel and momenta of
    [resonance_decay] in [src/resonances.cc].

    Numbers.  C++ [double] and [float] values are idealised as real numbers
    ([R]): rounding, infinities and NaN are outside the model.  Integer
    quantities (PDG codes, charges, 2J) are [Z]; [unsigned int] products are
    written with their wrap-around modulo 2^32.

    Effects.  [throw std::runtime_error] becomes the [Throw] outcome of the
    [Res] monad; the global random provider and the sub-process field of the
    string generator are threaded through the [World] of the [M] monad.
    [assert] statements state preconditions; they are compiled out of a
    release build and are not executed by the model.

    Collaborators whose code is not part of the sources at hand (particle
    registry, PDG code class, parametrizations, isospin and integration
    helpers, string generator) are interfaces: type classes whose methods are
    the functions the kernel calls. *)

From Stdlib Require Import Reals Lra Lia ZArith List String Bool.
Import ListNotations.

Open Scope R_scope.

(** ** Comparisons of doubles as booleans *)

Definition Rltb (x y : R) : bool := if Rlt_dec x y then true else false.
Definition Rleb (x y : R) : bool := if Rle_dec x y then true else false.

Notation "x <? y" := (Rltb x y) : R_scope.
Notation "x <=? y" := (Rleb x y) : R_scope.
Notation "x >? y" := (Rltb y x) : R_scope.
Notation "x >=? y" := (Rleb y x) : R_scope.

(** [unsigned int] arithmetic. *)
Definition u32 (z : Z) : Z := (z mod 2 ^ 32)%Z.
Definition u32_add (x y : Z) : Z := u32 (x + y).
Definition u32_mul (x y : Z) : Z := u32 (x * y).

(** ** Outcomes: a value or a thrown exception *)

(** What is streamed into a [std::stringstream]: text, an integer, a double. *)
Inductive Frag : Type :=
| Text (s : string)
| Int (z : Z)
| Dbl (r : R).

Inductive Exn : Type :=
| runtime_error (what : list Frag)
| PdgNotFoundFailure (pdg : Z).

Inductive Res (A : Type) : Type :=
| Ok (a : A)
| Throw (e : Exn).

Arguments Ok {A} a.
Arguments Throw {A} e.

Definition Res_bind {A B} (c : Res A) (k : A -> Res B) : Res B :=
  match c with
  | Ok a => k a
  | Throw e => Throw e
  end.

Declare Scope res_scope.
Delimit Scope res_scope with res.
Notation "x <- c ;; k" := (Res_bind c (fun x => k))
  (at level 61, c at next level, right associativity) : res_scope.

(** ** Data model *)

Definition PdgCode := Z.
Bind Scope Z_scope with PdgCode.

Inductive ProcessType : Type :=
| Elastic
| TwoToOne
| TwoToTwo
| StringSoft
| StringHard.

Inductive StringSoftType : Type :=
| SingleDiffAX
| SingleDiffXB
| DoubleDiff
| NonDiff
| NoneSoft.

(** Modelled from the spec: the sub-processes in the order SingleAX,
    SingleXB, DoubleDD, NonDiffSoft, for [static_cast<StringSoftType>(i)] on
    the loop index [i] of the soft sub-process selection. *)
Definition StringSoftType_of_index (i : nat) : StringSoftType :=
  match i with
  | 0%nat => SingleDiffAX
  | 1%nat => SingleDiffXB
  | 2%nat => DoubleDiff
  | 3%nat => NonDiff
  | _ => NoneSoft
  end.

Inductive NNbarTreatment : Type :=
| NoAnnihilation
| Resonances
| Strings.

(** Modelled from the spec: the policy bitset [ReactionsBitSet] has one
    flag for each of the six [IncludedReactions] ([IR_Elastic] is
    [IncludedReactions::Elastic]). *)
Inductive IncludedReactions : Type :=
| IR_Elastic
| NN_to_NR
| NN_to_DR
| KN_to_KN
| KN_to_KDelta
| Strangeness_exchange.

Record ReactionsBitSet : Type := mkBits {
  bit_Elastic : bool;
  bit_NN_to_NR : bool;
  bit_NN_to_DR : bool;
  bit_KN_to_KN : bool;
  bit_KN_to_KDelta : bool;
  bit_Strangeness_exchange : bool
}.

(** [included_2to2[r]] *)
Definition test (b : ReactionsBitSet) (r : IncludedReactions) : bool :=
  match r with
  | IR_Elastic => bit_Elastic b
  | NN_to_NR => bit_NN_to_NR b
  | NN_to_DR => bit_NN_to_DR b
  | KN_to_KN => bit_KN_to_KN b
  | KN_to_KDelta => bit_KN_to_KDelta b
  | Strangeness_exchange => bit_Strangeness_exchange b
  end.

(** [included_2to2.any()] *)
Definition any (b : ReactionsBitSet) : bool :=
  existsb (test b)
    [IR_Elastic; NN_to_NR; NN_to_DR; KN_to_KN; KN_to_KDelta;
     Strangeness_exchange].

(** A particle species as the kernel queries it.  [iso_multiplet] is the
    identity of the isospin multiplet the species points to. *)
Record ParticleType : Type := mkType {
  pdgcode : PdgCode;
  name : string;
  mass : R;
  width_at_pole : R;
  min_mass_kinematic : R;
  min_mass_spectral : R;
  spin : Z;
  charge : Z;
  baryon_number : Z;
  antiparticle_sign : Z;
  iso_multiplet : Z;
  is_stable : bool;
  is_nucleon : bool;
  is_Delta : bool;
  is_Nstar : bool;
  is_Nstar1535 : bool;
  is_Deltastar : bool;
  is_baryon : bool;
  is_meson : bool;
  is_nucleus : bool;
  is_deuteron : bool;
  is_dprime : bool
}.

(** Modelled from the spec: equality of particle types is by identifier.
    It stands for [a == b] and for the comparison of registry pointers (one
    registry entry per PDG code). *)
Definition type_eqb (a b : ParticleType) : bool :=
  (pdgcode a =? pdgcode b)%Z.

Record ParticleData : Type := mkData {
  type : ParticleType;
  effective_mass : R
}.

Record CollisionBranch : Type := mkBranch {
  particle_types : list ParticleType;
  weight : R;
  get_type : ProcessType
}.

Definition CollisionBranchList := list CollisionBranch.

(** The three constructors of [CollisionBranch] the kernel uses. *)
Definition branch2 (a b : ParticleType) (w : R) (p : ProcessType) :=
  mkBranch [a; b] w p.
Definition branch1 (a : ParticleType) (w : R) (p : ProcessType) :=
  mkBranch [a] w p.
Definition branch0 (w : R) (p : ProcessType) :=
  mkBranch [] w p.

(** The object: the incoming pair and the invariant mass. *)
Record cross_sections : Type := mk_cross_sections {
  incoming_0 : ParticleData;
  incoming_1 : ParticleData;
  sqrt_s_ : R
}.

(** ** Interfaces of the collaborators *)

(** Namespace [pdg]: the PDG code constants the kernel names. *)
Module pdg.
Class Constants : Type := {
  p : PdgCode;
  n : PdgCode;
  pi_p : PdgCode;
  pi_z : PdgCode;
  pi_m : PdgCode;
  K_p : PdgCode;
  K_z : PdgCode;
  Kbar_z : PdgCode;
  K_m : PdgCode;
  Sigma_p : PdgCode;
  Sigma_z : PdgCode;
  Sigma_m : PdgCode;
  Lambda : PdgCode;
  Delta_pp : PdgCode;
  Delta_p : PdgCode;
  Delta_z : PdgCode;
  Delta_m : PdgCode;
  rho_z : PdgCode;
  h1 : PdgCode;
  decimal_d : Z;
  decimal_antid : Z
}.
End pdg.

(** Methods of class [PdgCode], as functions of the code. *)
Module Pdg.
Class Methods : Type := {
  is_nucleon : PdgCode -> bool;
  is_pion : PdgCode -> bool;
  is_kaon : PdgCode -> bool;
  is_hyperon : PdgCode -> bool;
  is_Delta : PdgCode -> bool;
  is_baryon : PdgCode -> bool;
  antiparticle_sign : PdgCode -> Z;
  is_antiparticle_of : PdgCode -> PdgCode -> bool;
  spin : PdgCode -> Z;
  baryon_number : PdgCode -> Z;
  deexcite : PdgCode -> PdgCode;
  from_decimal : Z -> PdgCode
}.
End Pdg.

(** Static members of [ParticleType], the per-type physics queries and the
    mass integrals of the isospin multiplets. *)
Class Registry : Type := {
  list_all : list ParticleType;
  list_nucleons : list ParticleType;
  list_anti_nucleons : list ParticleType;
  list_Deltas : list ParticleType;
  list_anti_Deltas : list ParticleType;
  list_baryon_resonances : list ParticleType;
  list_light_nuclei : list ParticleType;
  try_find : PdgCode -> option ParticleType;
  get_antiparticle : ParticleType -> ParticleType;
  get_partial_in_width :
    ParticleType -> R -> ParticleData -> ParticleData -> R;
  spectral_function : ParticleType -> R -> R;
  get_integral_NR : Z -> R -> R;
  get_integral_RR : Z -> ParticleType -> R -> R;
  get_integral_RK : Z -> R -> R;
  get_integral_piR : Z -> R -> R
}.

(** The parametrization registry: fits of cross sections in mb. *)
Class Parametrizations : Type := {
  pp_elastic : R -> R;
  ppbar_elastic : R -> R;
  np_elastic : R -> R;
  ppbar_total : R -> R;
  piplusp_elastic : R -> R;
  piminusp_elastic : R -> R;
  kplusp_elastic_background : R -> R;
  kminusp_elastic_background : R -> R;
  k0p_elastic_background : R -> R;
  kbar0p_elastic_background : R -> R;
  kplusn_elastic_background : R -> R;
  kminusn_elastic_background : R -> R;
  k0n_elastic_background : R -> R;
  kbar0n_elastic_background : R -> R;
  kplusp_inelastic_background : R -> R;
  kplusn_inelastic_background : R -> R;
  kminusp_piminussigmaplus : R -> R;
  kminusp_piplussigmaminus : R -> R;
  kminusp_pi0sigma0 : R -> R;
  kminusp_pi0lambda : R -> R;
  kminusp_kbar0n : R -> R;
  kminusn_piminussigma0 : R -> R;
  kminusn_pi0sigmaminus : R -> R;
  kminusn_piminuslambda : R -> R;
  kplusn_k0p : R -> R;
  pp_high_energy : R -> R;
  ppbar_high_energy : R -> R;
  np_high_energy : R -> R;
  npbar_high_energy : R -> R;
  piplusp_high_energy : R -> R;
  piminusp_high_energy : R -> R;
  NN_string_hard : R -> R;
  Npi_string_hard : R -> R;
  pipi_string_hard : R -> R
}.

(** Constants, kinematics, isospin helpers and the mathematical library. *)
Class Helpers : Type := {
  really_small : R;
  nucleon_mass : R;
  hbarc : R;
  fm2_mb : R;
  pCM : R -> R -> R -> R;
  pCM_from_s : R -> R -> R -> R;
  cm_momentum : cross_sections -> R;
  isospin_clebsch_gordan_sqr_2to2 :
    ParticleType -> ParticleType -> ParticleType -> ParticleType -> Z -> R;
  I_tot_range : ParticleType -> ParticleType -> list Z;
  kplusn_ratios_get_ratio :
    ParticleType -> ParticleType -> ParticleType -> ParticleType -> R;
  std_pow : R -> R -> R;
  std_exp : R -> R;
  std_sqrt : R -> R
}.

(** [std::signbit] of an integer. *)
Definition signbit (z : Z) : bool := (z <? 0)%Z.

(** The string generator handed to the kernel by pointer. *)
Record StringProcess : Type := mkStringProcess {
  cross_sections_diffractive : Z -> Z -> R -> R * R * R
}.

(** The random provider: the value each successive call of
    [Random::uniform(0., 1.)] returns. *)
Class Random : Type := {
  uniform_stream : nat -> R
}.

(** ** The state the kernel touches *)

Record World : Type := mkWorld {
  draws : nat;
  subproc : StringSoftType
}.

Definition M (A : Type) : Type := World -> Res (A * World).

Definition M_ret {A} (a : A) : M A := fun w => Ok (a, w).

Definition M_bind {A B} (c : M A) (k : A -> M B) : M B :=
  fun w =>
    match c w with
    | Ok (a, w') => k a w'
    | Throw e => Throw e
    end.

Definition lift {A} (c : Res A) : M A :=
  fun w =>
    match c with
    | Ok a => Ok (a, w)
    | Throw e => Throw e
    end.

Declare Scope m_scope.
Delimit Scope m_scope with m.
Notation "x <- c ;; k" := (M_bind c (fun x => k))
  (at level 61, c at next level, right associativity) : m_scope.

(** [Random::uniform(0., 1.)] *)
Definition Random_uniform01 `{Random} : M R :=
  fun w => Ok (uniform_stream (draws w), mkWorld (S (draws w)) (subproc w)).

(** [string_process->set_subproc(iproc)] *)
Definition set_subproc (iproc : StringSoftType) : M unit :=
  fun w => Ok (tt, mkWorld (draws w) iproc).

(** A [switch] over integer case labels: the first label equal to the
    scrutinee selects the case, [default] otherwise. *)
Fixpoint switch {A} (x : Z) (cases : list (Z * A)) (default : A) : A :=
  match cases with
  | [] => default
  | (label, body) :: rest =>
      if (x =? label)%Z then body else switch x rest default
  end.

(** A [switch] over [pack(a, b)], which packs two 32-bit codes injectively
    into one 64-bit label. *)
Fixpoint switch2 {A} (x y : Z) (cases : list (Z * Z * A)) (default : A) : A :=
  match cases with
  | [] => default
  | (lx, ly, body) :: rest =>
      if ((x =? lx) && (y =? ly))%Z then body else switch2 x y rest default
  end.

(** ** Kinematics and profiles *)

(** Modelled from the spec: [pow_int(x, n)] of pow.h, which is not among
    the sources, is the n-th power; the spec writes [pow_int(x, 2)] as a
    square. *)
Definition pow_int (x : R) (k : nat) : R := x ^ k.

(** Modelled from the spec: the squared centre-of-mass momentum, whose
    header is not among the sources; the spec gives it as
    ((s - (m1+m2)^2)(s - (m1-m2)^2))/(4s). *)
Definition pCM_sqr_from_s (s m1 m2 : R) : R :=
  ((s - (m1 + m2) ^ 2) * (s - (m1 - m2) ^ 2)) / (4 * s).

Definition pCM_sqr (sqrts m1 m2 : R) : R :=
  pCM_sqr_from_s (sqrts * sqrts) m1 m2.

(** [breit_wigner] of distributions.cc *)
Definition breit_wigner (srts resonance_mass resonance_width : R) : R :=
  let s := srts * srts in
  let A := s * resonance_width * resonance_width in
  let B := s - resonance_mass * resonance_mass in
  2 * s * resonance_width / (PI * (B * B + A)).

(** [cauchy] of distributions.cc *)
Definition cauchy (x pole width : R) : R :=
  let dm := x - pole in
  width / (PI * (dm * dm + width * width)).


(** ** The kernel *)

Section Kernel.

Context {K : pdg.Constants} {PM : Pdg.Methods} {Reg : Registry}
        {Par : Parametrizations} {Hlp : Helpers} {Rnd : Random}.

Local Open Scope Z_scope.
Local Open Scope R_scope.

(** [ParticleType::find]: throws when the code is not in the registry. *)
Definition find (c : PdgCode) : Res ParticleType :=
  match try_find c with
  | Some t => Ok t
  | None => Throw (PdgNotFoundFailure c)
  end.

(** R = sigma(AB -> CD) / sigma(CD -> AB) for stable A, B, C, D. *)
Definition detailed_balance_factor_stable
    (s : R) (a b c d : ParticleType) : R :=
  let spin_factor := IZR (u32_mul (u32_add (spin c) 1) (u32_add (spin d) 1)) in
  let spin_factor :=
    spin_factor / IZR (u32_mul (u32_add (spin a) 1) (u32_add (spin b) 1)) in
  let symmetry_factor := IZR (1 + Z.b2z (type_eqb a b)) in
  let symmetry_factor := symmetry_factor / IZR (1 + Z.b2z (type_eqb c d)) in
  let momentum_factor :=
    pCM_sqr_from_s s (mass c) (mass d) / pCM_sqr_from_s s (mass a) (mass b) in
  spin_factor * symmetry_factor * momentum_factor.

(** The same for an unstable A and a kaon B. *)
Definition detailed_balance_factor_RK
    (sqrts pcm : R) (a b c d : ParticleType) : R :=
  let spin_factor := IZR (u32_mul (u32_add (spin c) 1) (u32_add (spin d) 1)) in
  let spin_factor :=
    spin_factor / IZR (u32_mul (u32_add (spin a) 1) (u32_add (spin b) 1)) in
  let symmetry_factor := IZR (1 + Z.b2z (type_eqb a b)) in
  let symmetry_factor := symmetry_factor / IZR (1 + Z.b2z (type_eqb c d)) in
  let momentum_factor :=
    pCM_sqr sqrts (mass c) (mass d) /
    (pcm * get_integral_RK (iso_multiplet a) sqrts) in
  spin_factor * symmetry_factor * momentum_factor.

(** The same for unstable A and B. *)
Definition detailed_balance_factor_RR
    (sqrts pcm : R) (a b c d : ParticleType) : R :=
  let spin_factor := IZR (u32_mul (u32_add (spin c) 1) (u32_add (spin d) 1)) in
  let spin_factor :=
    spin_factor / IZR (u32_mul (u32_add (spin a) 1) (u32_add (spin b) 1)) in
  let symmetry_factor := IZR (1 + Z.b2z (type_eqb a b)) in
  let symmetry_factor := symmetry_factor / IZR (1 + Z.b2z (type_eqb c d)) in
  let momentum_factor :=
    pCM_sqr sqrts (mass c) (mass d) /
    (pcm * get_integral_RR (iso_multiplet a) b sqrts) in
  spin_factor * symmetry_factor * momentum_factor.

(** Add a 2-to-2 channel: the cross section is only computed above the
    threshold of the minimum spectral masses, and the branch is only added
    when it exceeds [really_small]. *)
Definition add_channel (process_list : CollisionBranchList)
    (get_xsection : unit -> R) (sqrts : R) (type_a type_b : ParticleType)
    : CollisionBranchList :=
  let sqrt_s_min := min_mass_spectral type_a + min_mass_spectral type_b in
  if sqrts <=? sqrt_s_min then process_list
  else
    let xsection := get_xsection tt in
    if xsection >? really_small
    then process_list ++ [branch2 type_a type_b xsection TwoToTwo]
    else process_list.

Definition append_list (main_list in_list : CollisionBranchList)
    : CollisionBranchList :=
  main_list ++ in_list.

Definition sum_xs_of (l : CollisionBranchList) : R :=
  fold_left (fun xs_sum proc => xs_sum + weight proc) l 0.

(** The text of the error the elastic parametrizations raise. *)
Definition problem_in_elastic (self : cross_sections) (sig_el s : R)
    : Exn :=
  let pdg_a := pdgcode (type (incoming_0 self)) in
  let pdg_b := pdgcode (type (incoming_1 self)) in
  let name_a := name (type (incoming_0 self)) in
  let name_b := name (type (incoming_1 self)) in
  runtime_error
    [Text "problem in CrossSections::elastic: a="; Text name_a;
     Text " b="; Text name_b;
     Text " j_a="; Int (Pdg.spin pdg_a);
     Text " j_b="; Int (Pdg.spin pdg_b);
     Text " sigma="; Dbl sig_el;
     Text " s="; Dbl s].

(** The first half of [nn_el]: the parametrization selected for the pair. *)
Definition nn_sig_el (self : cross_sections) : R :=
  let pdg_a := pdgcode (type (incoming_0 self)) in
  let pdg_b := pdgcode (type (incoming_1 self)) in
  let s := sqrt_s_ self * sqrt_s_ self in
  if (pdg_a =? pdg_b)%Z then pp_elastic s
  else if Pdg.is_antiparticle_of pdg_a pdg_b then ppbar_elastic s
  else np_elastic s.

Definition nn_el (self : cross_sections) : Res R :=
  let s := sqrt_s_ self * sqrt_s_ self in
  let sig_el := nn_sig_el self in
  if sig_el >? 0 then Ok sig_el
  else Throw (problem_in_elastic self sig_el s).

(** The first half of [npi_el]: the nested switch that fills [sig_el]. *)
Definition npi_sig_el (self : cross_sections) : Res R :=
  let pdg_a := pdgcode (type (incoming_0 self)) in
  let pdg_b := pdgcode (type (incoming_1 self)) in
  let nucleon := if Pdg.is_nucleon pdg_a then pdg_a else pdg_b in
  let pion := if Pdg.is_nucleon pdg_a then pdg_b else pdg_a in
  let s := sqrt_s_ self * sqrt_s_ self in
  let mean := 0.5 * (piplusp_elastic s + piminusp_elastic s) in
  switch nucleon
       [(pdg.p,
         Ok (switch pion
               [(pdg.pi_p, piplusp_elastic s);
                (pdg.pi_m, piminusp_elastic s);
                (pdg.pi_z, mean)] 0));
        (pdg.n,
         Ok (switch pion
               [(pdg.pi_p, piminusp_elastic s);
                (pdg.pi_m, piplusp_elastic s);
                (pdg.pi_z, mean)] 0));
        ((- pdg.p)%Z,
         Ok (switch pion
               [(pdg.pi_p, piminusp_elastic s);
                (pdg.pi_m, piplusp_elastic s);
                (pdg.pi_z, mean)] 0));
        ((- pdg.n)%Z,
         Ok (switch pion
               [(pdg.pi_p, piplusp_elastic s);
                (pdg.pi_m, piminusp_elastic s);
                (pdg.pi_z, mean)] 0))]
       (Throw (runtime_error
          [Text "only the elastic cross section for proton-pion is implemented"])).

Definition npi_el (self : cross_sections) : Res R :=
  let s := sqrt_s_ self * sqrt_s_ self in
  (sig_el <- npi_sig_el self ;;
   if sig_el >? 0 then Ok sig_el
   else Throw (problem_in_elastic self sig_el s))%res.

(** The first half of [nk_el]: the nested switch that fills [sig_el]. *)
Definition nk_sig_el (self : cross_sections) : Res R :=
  let pdg_a := pdgcode (type (incoming_0 self)) in
  let pdg_b := pdgcode (type (incoming_1 self)) in
  let nucleon := if Pdg.is_nucleon pdg_a then pdg_a else pdg_b in
  let kaon := if Pdg.is_nucleon pdg_a then pdg_b else pdg_a in
  let s := sqrt_s_ self * sqrt_s_ self in
  switch nucleon
       [(pdg.p,
         Ok (switch kaon
               [(pdg.K_p, kplusp_elastic_background s);
                (pdg.K_m, kminusp_elastic_background s);
                (pdg.K_z, k0p_elastic_background s);
                (pdg.Kbar_z, kbar0p_elastic_background s)] 0));
        (pdg.n,
         Ok (switch kaon
               [(pdg.K_p, kplusn_elastic_background s);
                (pdg.K_m, kminusn_elastic_background s);
                (pdg.K_z, k0n_elastic_background s);
                (pdg.Kbar_z, kbar0n_elastic_background s)] 0));
        ((- pdg.p)%Z,
         Ok (switch kaon
               [(pdg.K_p, kminusp_elastic_background s);
                (pdg.K_m, kplusp_elastic_background s);
                (pdg.K_z, kbar0p_elastic_background s);
                (pdg.Kbar_z, k0p_elastic_background s)] 0));
        ((- pdg.n)%Z,
         Ok (switch kaon
               [(pdg.K_p, kminusn_elastic_background s);
                (pdg.K_m, kplusn_elastic_background s);
                (pdg.K_z, kbar0n_elastic_background s);
                (pdg.Kbar_z, k0n_elastic_background s)] 0))]
       (Throw (runtime_error
          [Text "elastic cross section for antinucleon-kaon not implemented"])).

Definition nk_el (self : cross_sections) : Res R :=
  let s := sqrt_s_ self * sqrt_s_ self in
  (sig_el <- nk_sig_el self ;;
   if sig_el >? 0 then Ok sig_el
   else Throw (problem_in_elastic self sig_el s))%res.

Definition elastic_parametrization (self : cross_sections) : Res R :=
  let pdg_a := pdgcode (type (incoming_0 self)) in
  let pdg_b := pdgcode (type (incoming_1 self)) in
  if (Pdg.is_nucleon pdg_a && Pdg.is_pion pdg_b)
     || (Pdg.is_nucleon pdg_b && Pdg.is_pion pdg_a)
  then npi_el self
  else if (Pdg.is_nucleon pdg_a && Pdg.is_kaon pdg_b)
          || (Pdg.is_nucleon pdg_b && Pdg.is_kaon pdg_a)
  then nk_el self
  else if Pdg.is_nucleon pdg_a && Pdg.is_nucleon pdg_b
          && (Pdg.antiparticle_sign pdg_a =? Pdg.antiparticle_sign pdg_b)%Z
  then nn_el self
  else Ok 0.

Definition elastic (self : cross_sections) (elast_par : R)
    : Res CollisionBranch :=
  (elastic_xs <-
     (if elast_par >=? 0 then Ok elast_par
      else elastic_parametrization self) ;;
   Ok (branch2 (type (incoming_0 self)) (type (incoming_1 self))
         elastic_xs Elastic))%res.

(** Matrix element |M|^2 for N N -> X, also used for the inverse process.
    A branch of the chain that ends without [return] falls through to the
    final [return 0.]. *)
Definition nn_to_resonance_matrix_element
    (sqrts : R) (type_a type_b : ParticleType) (twoI : Z) : R :=
  let m_a := mass type_a in
  let m_b := mass type_b in
  let msqr := 2 * (m_a * m_a + m_b * m_b) in
  let w_a := width_at_pole type_a in
  let w_b := width_at_pole type_b in
  let uplmt := m_a + m_b + 3.0 * (w_a + w_b) + 3.0 in
  let same_sign :=
    (antiparticle_sign type_a =? antiparticle_sign type_b)%Z in
  if sqrts >? uplmt then 0
  else if ((is_Delta type_a && is_nucleon type_b)
           || (is_Delta type_b && is_nucleon type_a)) && same_sign
  then 68 / std_pow (sqrts - 1.104) 1.951
  else if ((is_Nstar type_a && is_nucleon type_b)
           || (is_Nstar type_b && is_nucleon type_a)) && same_sign
  then
    if (twoI =? 2)%Z then 7 / msqr
    else if (twoI =? 0)%Z then
      let parametrization := 14 / msqr in
      if is_Nstar1535 type_a || is_Nstar1535 type_b
      then 6.5 * parametrization
      else parametrization
    else 0
  else if ((is_Deltastar type_a && is_nucleon type_b)
           || (is_Deltastar type_b && is_nucleon type_a)) && same_sign
  then 15 / msqr
  else if (is_Delta type_a && is_Delta type_b) && same_sign
  then
    if (twoI =? 2)%Z then 45 / msqr
    else if (twoI =? 0)%Z then 120 / msqr
    else 0
  else if ((is_Nstar type_a && is_Delta type_b)
           || (is_Nstar type_b && is_Delta type_a)) && same_sign
  then 7 / msqr
  else if ((is_Deltastar type_a && is_Delta type_b)
           || (is_Deltastar type_b && is_Delta type_a)) && same_sign
  then
    if (twoI =? 2)%Z then 15 / msqr
    else if (twoI =? 0)%Z then 25 / msqr
    else 0
  else if (is_deuteron type_a && Pdg.is_pion (pdgcode type_b))
          || (is_deuteron type_b && Pdg.is_pion (pdgcode type_a))
  then
    0.055 / (pow_int (sqrts - 2.145) 2 + pow_int 0.065 2) *
    (1.0 - std_exp (- (sqrts - 2.0) * 20.0))
  else 0.

(** Cross section of the formation of one resonance (2 -> 1). *)
Definition formation (self : cross_sections) (type_resonance : ParticleType)
    (cm_momentum_sqr : R) : R :=
  let type_particle_a := type (incoming_0 self) in
  let type_particle_b := type (incoming_1 self) in
  if negb (charge type_resonance =?
           charge type_particle_a + charge type_particle_b)%Z
  then 0
  else if negb (baryon_number type_resonance =?
                baryon_number type_particle_a +
                baryon_number type_particle_b)%Z
  then 0
  else
    let partial_width :=
      get_partial_in_width type_resonance (sqrt_s_ self)
        (incoming_0 self) (incoming_1 self) in
    if partial_width <=? 0 then 0
    else
      let spinfactor :=
        IZR (u32_add (spin type_resonance) 1) /
        IZR (u32_mul (u32_add (spin type_particle_a) 1)
                     (u32_add (spin type_particle_b) 1)) in
      let sym_factor :=
        if (pdgcode type_particle_a =? pdgcode type_particle_b)%Z
        then 2%Z else 1%Z in
      spinfactor * IZR sym_factor * 2 * PI * PI / cm_momentum_sqr *
      spectral_function type_resonance (sqrt_s_ self) * partial_width *
      hbarc * hbarc / fm2_mb.

Definition two_to_one (self : cross_sections) : CollisionBranchList :=
  let type_particle_a := type (incoming_0 self) in
  let type_particle_b := type (incoming_1 self) in
  let m1 := effective_mass (incoming_0 self) in
  let m2 := effective_mass (incoming_1 self) in
  let p_cm_sqr := pCM_sqr (sqrt_s_ self) m1 m2 in
  fold_left
    (fun resonance_process_list type_resonance =>
       if is_stable type_resonance then resonance_process_list
       else if (negb (is_stable type_particle_a)
                && (pdgcode type_resonance =? pdgcode type_particle_a)%Z)
               || (negb (is_stable type_particle_b)
                   && (pdgcode type_resonance =? pdgcode type_particle_b)%Z)
       then resonance_process_list
       else
         let resonance_xsection := formation self type_resonance p_cm_sqr in
         if resonance_xsection >? really_small
         then resonance_process_list ++
              [branch1 type_resonance resonance_xsection TwoToOne]
         else resonance_process_list)
    list_all [].

(** Scan two lists of candidate products for N N -> R1 R2 channels. *)
Definition find_nn_xsection_from_type (self : cross_sections)
    (list_res_1 list_res_2 : list ParticleType)
    (integrator : ParticleType -> ParticleType -> R) : CollisionBranchList :=
  let type_particle_a := type (incoming_0 self) in
  let type_particle_b := type (incoming_1 self) in
  let s := sqrt_s_ self * sqrt_s_ self in
  fold_left (fun channel_list type_res_1 =>
    fold_left (fun channel_list type_res_2 =>
      if negb (charge type_res_1 + charge type_res_2 =?
               charge type_particle_a + charge type_particle_b)%Z
      then channel_list
      else
        fold_left (fun channel_list twoI =>
          let isospin_factor :=
            isospin_clebsch_gordan_sqr_2to2
              type_particle_a type_particle_b type_res_1 type_res_2 twoI in
          if Rabs isospin_factor <? really_small then channel_list
          else
            let lower_limit := min_mass_kinematic type_res_1 in
            let upper_limit := sqrt_s_ self - mass type_res_2 in
            if upper_limit - lower_limit <? 1E-3 then channel_list
            else
              let matrix_element :=
                nn_to_resonance_matrix_element
                  (sqrt_s_ self) type_res_1 type_res_2 twoI in
              if matrix_element <=? 0 then channel_list
              else
                let resonance_integral := integrator type_res_1 type_res_2 in
                let spin_factor :=
                  IZR (u32_mul (u32_add (spin type_res_1) 1)
                               (u32_add (spin type_res_2) 1)) in
                let xsection :=
                  isospin_factor * spin_factor * matrix_element *
                  resonance_integral / (s * cm_momentum self) in
                if xsection >? really_small
                then channel_list ++
                     [branch2 type_res_1 type_res_2 xsection TwoToTwo]
                else channel_list)
          (I_tot_range type_particle_a type_particle_b) channel_list)
      list_res_2 channel_list)
    list_res_1 [].

Definition nn_xx (self : cross_sections) (included_2to2 : ReactionsBitSet)
    : CollisionBranchList :=
  let process_list : CollisionBranchList := [] in
  let sqrts := sqrt_s_ self in
  let both_antinucleons :=
    ((antiparticle_sign (type (incoming_0 self)) =? -1)
     && (antiparticle_sign (type (incoming_1 self)) =? -1))%Z in
  let nuc_or_anti_nuc :=
    if both_antinucleons then list_anti_nucleons else list_nucleons in
  let delta_or_anti_delta :=
    if both_antinucleons then list_anti_Deltas else list_Deltas in
  let process_list :=
    if test included_2to2 NN_to_NR
    then process_list ++
         find_nn_xsection_from_type self list_baryon_resonances
           nuc_or_anti_nuc
           (fun type_res_1 _ =>
              get_integral_NR (iso_multiplet type_res_1) sqrts)
    else process_list in
  let process_list :=
    if test included_2to2 NN_to_DR
    then process_list ++
         find_nn_xsection_from_type self list_baryon_resonances
           delta_or_anti_delta
           (fun type_res_1 type_res_2 =>
              get_integral_RR (iso_multiplet type_res_1) type_res_2 sqrts)
    else process_list in
  match try_find (Pdg.from_decimal pdg.decimal_d),
        try_find (Pdg.from_decimal pdg.decimal_antid),
        try_find pdg.pi_m, try_find pdg.pi_z, try_find pdg.pi_p with
  | Some deutron, Some antideutron, Some pim, Some pi0, Some pip =>
      let deutron_list := [deutron] in
      let antideutron_list := [antideutron] in
      let pion_list := [pim; pi0; pip] in
      process_list ++
      find_nn_xsection_from_type self
        (if both_antinucleons then antideutron_list else deutron_list)
        pion_list
        (fun type_res_1 type_res_2 =>
           pCM sqrts (mass type_res_1) (mass type_res_2))
  | _, _, _, _, _ => process_list
  end.

(** Resonance absorption: N R -> N N and Delta R -> N N, from the inverse
    reaction by detailed balance. *)
Definition bar_bar_to_nuc_nuc (self : cross_sections)
    (is_anti_particles : bool) : CollisionBranchList :=
  let type_a := type (incoming_0 self) in
  let type_b := type (incoming_1 self) in
  let s := sqrt_s_ self * sqrt_s_ self in
  let p_cm_final := std_sqrt (s - 4 * nucleon_mass * nucleon_mass) / 2 in
  let nuc_or_anti_nuc :=
    if is_anti_particles then list_anti_nucleons else list_nucleons in
  fold_left (fun process_list nuc_a =>
    fold_left (fun process_list nuc_b =>
      if negb (charge type_a + charge type_b =?
               charge nuc_a + charge nuc_b)%Z
      then process_list
      else
        fold_left (fun process_list twoI =>
          let isospin_factor :=
            isospin_clebsch_gordan_sqr_2to2 type_a type_b nuc_a nuc_b twoI in
          if Rabs isospin_factor <? really_small then process_list
          else
            let matrix_element :=
              nn_to_resonance_matrix_element
                (sqrt_s_ self) type_a type_b twoI in
            if matrix_element <=? 0 then process_list
            else
              let spin_factor :=
                IZR (u32_mul (u32_add (spin nuc_a) 1)
                             (u32_add (spin nuc_b) 1)) in
              let sym_fac_in :=
                if (iso_multiplet type_a =? iso_multiplet type_b)%Z
                then 2%Z else 1%Z in
              let sym_fac_out :=
                if (iso_multiplet nuc_a =? iso_multiplet nuc_b)%Z
                then 2%Z else 1%Z in
              let xsection :=
                isospin_factor * spin_factor * IZR sym_fac_in /
                IZR sym_fac_out * p_cm_final * matrix_element /
                (s * cm_momentum self) in
              if xsection >? really_small
              then process_list ++ [branch2 nuc_a nuc_b xsection TwoToTwo]
              else process_list)
          (I_tot_range nuc_a nuc_b) process_list)
      nuc_or_anti_nuc process_list)
    nuc_or_anti_nuc [].

Definition bb_xx_except_nn (self : cross_sections)
    (included_2to2 : ReactionsBitSet) : CollisionBranchList :=
  let process_list : CollisionBranchList := [] in
  let type_a := type (incoming_0 self) in
  let type_b := type (incoming_1 self) in
  let same_sign :=
    (antiparticle_sign type_a =? antiparticle_sign type_b)%Z in
  let any_nucleus := is_nucleus type_a || is_nucleus type_b in
  if negb same_sign && negb any_nucleus then process_list
  else
    let anti_particles := (antiparticle_sign type_a =? -1)%Z in
    if is_nucleon type_a || is_nucleon type_b then
      if test included_2to2 NN_to_NR
      then bar_bar_to_nuc_nuc self anti_particles
      else process_list
    else if is_Delta type_a || is_Delta type_b then
      if test included_2to2 NN_to_DR
      then bar_bar_to_nuc_nuc self anti_particles
      else process_list
    else process_list.

(** pi d -> N N, and pi d <-> pi d'.  The bitset parameter is unnamed in
    the source. *)
Definition dpi_xx (self : cross_sections) (_ : ReactionsBitSet)
    : CollisionBranchList :=
  let process_list : CollisionBranchList := [] in
  let sqrts := sqrt_s_ self in
  let type_a := type (incoming_0 self) in
  let type_b := type (incoming_1 self) in
  let process_list :=
    if (is_deuteron type_a && Pdg.is_pion (pdgcode type_b))
       || (is_deuteron type_b && Pdg.is_pion (pdgcode type_a))
    then
      let baryon_number := (baryon_number type_a + baryon_number type_b)%Z in
      let nuc :=
        if (baryon_number >? 0)%Z then list_nucleons
        else list_anti_nucleons in
      let s := sqrt_s_ self * sqrt_s_ self in
      fold_left (fun process_list nuc_a =>
        fold_left (fun process_list nuc_b =>
          if negb (charge type_a + charge type_b =?
                   charge nuc_a + charge nuc_b)%Z
          then process_list
          else
            fold_left (fun process_list twoI =>
              let isospin_factor :=
                isospin_clebsch_gordan_sqr_2to2
                  type_a type_b nuc_a nuc_b twoI in
              if Rabs isospin_factor <? really_small then process_list
              else
                let matrix_element :=
                  nn_to_resonance_matrix_element sqrts type_a type_b twoI in
                if matrix_element <=? 0 then process_list
                else
                  let spin_factor :=
                    IZR (u32_mul (u32_add (spin nuc_a) 1)
                                 (u32_add (spin nuc_b) 1)) in
                  let sym_fac_in :=
                    if (iso_multiplet type_a =? iso_multiplet type_b)%Z
                    then 2%Z else 1%Z in
                  let sym_fac_out :=
                    if (iso_multiplet nuc_a =? iso_multiplet nuc_b)%Z
                    then 2%Z else 1%Z in
                  let p_cm_final := pCM_from_s s (mass nuc_a) (mass nuc_b) in
                  let xsection :=
                    isospin_factor * spin_factor * IZR sym_fac_in /
                    IZR sym_fac_out * p_cm_final * matrix_element /
                    (s * cm_momentum self) in
                  if xsection >? really_small
                  then process_list ++
                       [branch2 nuc_a nuc_b xsection TwoToTwo]
                  else process_list)
              (I_tot_range nuc_a nuc_b) process_list)
          nuc process_list)
        nuc process_list
    else process_list in
  if ((is_deuteron type_a || is_dprime type_a) && Pdg.is_pion (pdgcode type_b))
     || ((is_deuteron type_b || is_dprime type_b)
         && Pdg.is_pion (pdgcode type_a))
  then
    let type_pi := if Pdg.is_pion (pdgcode type_a) then type_a else type_b in
    let type_nucleus := if is_nucleus type_a then type_a else type_b in
    let nuclei := list_light_nuclei in
    let s := sqrt_s_ self * sqrt_s_ self in
    fold_left (fun process_list produced_nucleus =>
      if type_eqb produced_nucleus type_nucleus
         || negb (charge produced_nucleus =? charge type_nucleus)%Z
         || negb (baryon_number produced_nucleus =?
                  baryon_number type_nucleus)%Z
      then process_list
      else
        let tmp :=
          sqrts - min_mass_kinematic type_a - min_mass_kinematic type_b in
        let matrix_element :=
          295.5 + 2.862 / (0.00283735 + pow_int (sqrts - 2.181) 2) +
          0.0672 / pow_int tmp 2 - 6.61753 / tmp in
        let spin_factor :=
          IZR (u32_mul (u32_add (spin produced_nucleus) 1)
                       (u32_add (spin type_pi) 1)) in
        let xsection := matrix_element * spin_factor / (s * cm_momentum self) in
        let xsection :=
          if is_stable produced_nucleus
          then xsection * pCM_from_s s (mass type_pi) (mass produced_nucleus)
          else
            let resonance_integral :=
              get_integral_piR (iso_multiplet produced_nucleus) sqrts in
            xsection * resonance_integral in
        process_list ++ [branch2 type_pi produced_nucleus xsection TwoToTwo])
      nuclei process_list
  else process_list.

(** N d <-> N d'.  The bitset parameter is unnamed in the source. *)
Definition dn_xx (self : cross_sections) (_ : ReactionsBitSet)
    : CollisionBranchList :=
  let type_a := type (incoming_0 self) in
  let type_b := type (incoming_1 self) in
  let type_N := if is_nucleon type_a then type_a else type_b in
  let type_nucleus := if is_nucleus type_a then type_a else type_b in
  let nuclei := list_light_nuclei in
  let s := sqrt_s_ self * sqrt_s_ self in
  let sqrts := sqrt_s_ self in
  fold_left (fun process_list produced_nucleus =>
    if type_eqb produced_nucleus type_nucleus
       || negb (charge produced_nucleus =? charge type_nucleus)%Z
       || negb (baryon_number produced_nucleus =?
                baryon_number type_nucleus)%Z
    then process_list
    else
      let matrix_element :=
        if Bool.eqb (signbit (baryon_number type_N))
                    (signbit (baryon_number type_nucleus))
        then
          let tmp :=
            sqrts - min_mass_kinematic type_N -
            min_mass_kinematic type_nucleus in
          79.0474 / std_pow tmp 0.7897 + 654.596 * tmp
        else 681.4 in
      let spin_factor :=
        IZR (u32_mul (u32_add (spin produced_nucleus) 1)
                     (u32_add (spin type_N) 1)) in
      let xsection := matrix_element * spin_factor / (s * cm_momentum self) in
      let xsection :=
        if is_stable produced_nucleus
        then xsection * pCM_from_s s (mass type_N) (mass produced_nucleus)
        else
          let resonance_integral :=
            get_integral_NR (iso_multiplet produced_nucleus) sqrts in
          xsection * resonance_integral in
      process_list ++ [branch2 type_N produced_nucleus xsection TwoToTwo])
    nuclei [].

(** Inelastic nucleon-kaon channels: a switch on the kaon with a switch on
    the nucleon inside each case. *)
Definition nk_xx (self : cross_sections) (included_2to2 : ReactionsBitSet)
    : Res CollisionBranchList :=
  let a := type (incoming_0 self) in
  let b := type (incoming_1 self) in
  let type_nucleon := if Pdg.is_nucleon (pdgcode a) then a else b in
  let type_kaon := if Pdg.is_nucleon (pdgcode a) then b else a in
  let pdg_nucleon := pdgcode type_nucleon in
  let pdg_kaon := pdgcode type_kaon in
  let s := sqrt_s_ self * sqrt_s_ self in
  let sigma_kplusp := kplusp_inelastic_background s in
  let sigma_kplusn := kplusn_inelastic_background s in
  let incl_KN_to_KN := test included_2to2 KN_to_KN in
  let incl_KN_to_KDelta := test included_2to2 KN_to_KDelta in
  let incl_Strangeness_exchange := test included_2to2 Strangeness_exchange in
  let process_list : CollisionBranchList := [] in
  switch pdg_kaon
    [
     (pdg.K_m,
      switch pdg_nucleon
        [
         (pdg.p,
          (
           process_list <-
             (if incl_Strangeness_exchange then
                type_pi_z <- find pdg.pi_z ;;
                type_pi_m <- find pdg.pi_m ;;
                type_pi_p <- find pdg.pi_p ;;
                type_Sigma_p <- find pdg.Sigma_p ;;
                type_Sigma_m <- find pdg.Sigma_m ;;
                type_Sigma_z <- find pdg.Sigma_z ;;
                type_Lambda <- find pdg.Lambda ;;
                let process_list :=
                  add_channel process_list
                    (fun _ => kminusp_piminussigmaplus (sqrt_s_ self))
                    (sqrt_s_ self) type_pi_m type_Sigma_p in
                let process_list :=
                  add_channel process_list
                    (fun _ => kminusp_piplussigmaminus (sqrt_s_ self))
                    (sqrt_s_ self) type_pi_p type_Sigma_m in
                let process_list :=
                  add_channel process_list
                    (fun _ => kminusp_pi0sigma0 (sqrt_s_ self))
                    (sqrt_s_ self) type_pi_z type_Sigma_z in
                let process_list :=
                  add_channel process_list
                    (fun _ => kminusp_pi0lambda (sqrt_s_ self))
                    (sqrt_s_ self) type_pi_z type_Lambda in
                Ok process_list
              else Ok process_list) ;;
           process_list <-
             (if incl_KN_to_KN then
                type_n <- find pdg.n ;;
                type_Kbar_z <- find pdg.Kbar_z ;;
                let process_list :=
                  add_channel process_list
                    (fun _ => kminusp_kbar0n s)
                    (sqrt_s_ self) type_Kbar_z type_n in
                Ok process_list
              else Ok process_list) ;;
           Ok process_list)%res);
         (pdg.n,
          (
           process_list <-
             (if incl_Strangeness_exchange then
                type_pi_z <- find pdg.pi_z ;;
                type_pi_m <- find pdg.pi_m ;;
                type_Sigma_m <- find pdg.Sigma_m ;;
                type_Sigma_z <- find pdg.Sigma_z ;;
                type_Lambda <- find pdg.Lambda ;;
                let process_list :=
                  add_channel process_list
                    (fun _ => kminusn_piminussigma0 (sqrt_s_ self))
                    (sqrt_s_ self) type_pi_m type_Sigma_z in
                let process_list :=
                  add_channel process_list
                    (fun _ => kminusn_pi0sigmaminus (sqrt_s_ self))
                    (sqrt_s_ self) type_pi_z type_Sigma_m in
                let process_list :=
                  add_channel process_list
                    (fun _ => kminusn_piminuslambda (sqrt_s_ self))
                    (sqrt_s_ self) type_pi_m type_Lambda in
                Ok process_list
              else Ok process_list) ;;
           Ok process_list)%res);
         ((- pdg.p)%Z,
          (
           process_list <-
             (if incl_KN_to_KDelta then
                type_K_m <- find pdg.K_m ;;
                type_Kbar_z <- find pdg.Kbar_z ;;
                type_Delta_pp_bar <- find (- pdg.Delta_pp)%Z ;;
                type_Delta_p_bar <- find (- pdg.Delta_p)%Z ;;
                let process_list :=
                  add_channel process_list
                    (fun _ => sigma_kplusp *
                 kplusn_ratios_get_ratio type_nucleon type_kaon type_Kbar_z type_Delta_pp_bar)
                    (sqrt_s_ self) type_Kbar_z type_Delta_pp_bar in
                let process_list :=
                  add_channel process_list
                    (fun _ => sigma_kplusp *
                 kplusn_ratios_get_ratio type_nucleon type_kaon type_K_m type_Delta_p_bar)
                    (sqrt_s_ self) type_K_m type_Delta_p_bar in
                Ok process_list
              else Ok process_list) ;;
           Ok process_list)%res);
         ((- pdg.n)%Z,
          (
           process_list <-
             (if incl_KN_to_KDelta then
                type_K_m <- find pdg.K_m ;;
                type_Kbar_z <- find pdg.Kbar_z ;;
                type_Delta_p_bar <- find (- pdg.Delta_p)%Z ;;
                type_Delta_z_bar <- find (- pdg.Delta_z)%Z ;;
                let process_list :=
                  add_channel process_list
                    (fun _ => sigma_kplusn *
                 kplusn_ratios_get_ratio type_nucleon type_kaon type_Kbar_z type_Delta_p_bar)
                    (sqrt_s_ self) type_Kbar_z type_Delta_p_bar in
                let process_list :=
                  add_channel process_list
                    (fun _ => sigma_kplusn *
                 kplusn_ratios_get_ratio type_nucleon type_kaon type_K_m type_Delta_z_bar)
                    (sqrt_s_ self) type_K_m type_Delta_z_bar in
                Ok process_list
              else Ok process_list) ;;
           process_list <-
             (if incl_KN_to_KN then
                type_Kbar_z <- find pdg.Kbar_z ;;
                type_p_bar <- find (- pdg.p)%Z ;;
                let process_list :=
                  add_channel process_list
                    (fun _ => kplusn_k0p s)
                    (sqrt_s_ self) type_Kbar_z type_p_bar in
                Ok process_list
              else Ok process_list) ;;
           Ok process_list)%res)
        ] (Ok process_list));
     (pdg.K_p,
      switch pdg_nucleon
        [
         (pdg.p,
          (
           process_list <-
             (if incl_KN_to_KDelta then
                type_K_p <- find pdg.K_p ;;
                type_K_z <- find pdg.K_z ;;
                type_Delta_pp <- find pdg.Delta_pp ;;
                type_Delta_p <- find pdg.Delta_p ;;
                let process_list :=
                  add_channel process_list
                    (fun _ => sigma_kplusp *
                 kplusn_ratios_get_ratio type_nucleon type_kaon type_K_z type_Delta_pp)
                    (sqrt_s_ self) type_K_z type_Delta_pp in
                let process_list :=
                  add_channel process_list
                    (fun _ => sigma_kplusp *
                 kplusn_ratios_get_ratio type_nucleon type_kaon type_K_p type_Delta_p)
                    (sqrt_s_ self) type_K_p type_Delta_p in
                Ok process_list
              else Ok process_list) ;;
           Ok process_list)%res);
         (pdg.n,
          (
           process_list <-
             (if incl_KN_to_KDelta then
                type_K_p <- find pdg.K_p ;;
                type_K_z <- find pdg.K_z ;;
                type_Delta_p <- find pdg.Delta_p ;;
                type_Delta_z <- find pdg.Delta_z ;;
                let process_list :=
                  add_channel process_list
                    (fun _ => sigma_kplusn *
                 kplusn_ratios_get_ratio type_nucleon type_kaon type_K_z type_Delta_p)
                    (sqrt_s_ self) type_K_z type_Delta_p in
                let process_list :=
                  add_channel process_list
                    (fun _ => sigma_kplusn *
                 kplusn_ratios_get_ratio type_nucleon type_kaon type_K_p type_Delta_z)
                    (sqrt_s_ self) type_K_p type_Delta_z in
                Ok process_list
              else Ok process_list) ;;
           process_list <-
             (if incl_KN_to_KN then
                type_K_z <- find pdg.K_z ;;
                type_p <- find pdg.p ;;
                let process_list :=
                  add_channel process_list
                    (fun _ => kplusn_k0p s)
                    (sqrt_s_ self) type_K_z type_p in
                Ok process_list
              else Ok process_list) ;;
           Ok process_list)%res);
         ((- pdg.p)%Z,
          (
           process_list <-
             (if incl_Strangeness_exchange then
                type_pi_z <- find pdg.pi_z ;;
                type_pi_m <- find pdg.pi_m ;;
                type_pi_p <- find pdg.pi_p ;;
                type_Sigma_p_bar <- find (- pdg.Sigma_p)%Z ;;
                type_Sigma_m_bar <- find (- pdg.Sigma_m)%Z ;;
                type_Sigma_z_bar <- find (- pdg.Sigma_z)%Z ;;
                type_Lambda_bar <- find (- pdg.Lambda)%Z ;;
                let process_list :=
                  add_channel process_list
                    (fun _ => kminusp_piminussigmaplus (sqrt_s_ self))
                    (sqrt_s_ self) type_pi_p type_Sigma_p_bar in
                let process_list :=
                  add_channel process_list
                    (fun _ => kminusp_piplussigmaminus (sqrt_s_ self))
                    (sqrt_s_ self) type_pi_m type_Sigma_m_bar in
                let process_list :=
                  add_channel process_list
                    (fun _ => kminusp_pi0sigma0 (sqrt_s_ self))
                    (sqrt_s_ self) type_pi_z type_Sigma_z_bar in
                let process_list :=
                  add_channel process_list
                    (fun _ => kminusp_pi0lambda (sqrt_s_ self))
                    (sqrt_s_ self) type_pi_z type_Lambda_bar in
                Ok process_list
              else Ok process_list) ;;
           process_list <-
             (if incl_KN_to_KN then
                type_n_bar <- find (- pdg.n)%Z ;;
                type_K_z <- find pdg.K_z ;;
                let process_list :=
                  add_channel process_list
                    (fun _ => kminusp_kbar0n s)
                    (sqrt_s_ self) type_K_z type_n_bar in
                Ok process_list
              else Ok process_list) ;;
           Ok process_list)%res);
         ((- pdg.n)%Z,
          (
           process_list <-
             (if incl_Strangeness_exchange then
                type_pi_z <- find pdg.pi_z ;;
                type_pi_p <- find pdg.pi_p ;;
                type_Sigma_m_bar <- find (- pdg.Sigma_m)%Z ;;
                type_Sigma_z_bar <- find (- pdg.Sigma_z)%Z ;;
                type_Lambda_bar <- find (- pdg.Lambda)%Z ;;
                let process_list :=
                  add_channel process_list
                    (fun _ => kminusn_piminussigma0 (sqrt_s_ self))
                    (sqrt_s_ self) type_pi_p type_Sigma_z_bar in
                let process_list :=
                  add_channel process_list
                    (fun _ => kminusn_pi0sigmaminus (sqrt_s_ self))
                    (sqrt_s_ self) type_pi_z type_Sigma_m_bar in
                let process_list :=
                  add_channel process_list
                    (fun _ => kminusn_piminuslambda (sqrt_s_ self))
                    (sqrt_s_ self) type_pi_p type_Lambda_bar in
                Ok process_list
              else Ok process_list) ;;
           Ok process_list)%res)
        ] (Ok process_list));
     (pdg.K_z,
      switch pdg_nucleon
        [
         (pdg.p,
          (
           process_list <-
             (if incl_KN_to_KDelta then
                type_K_p <- find pdg.K_p ;;
                type_K_z <- find pdg.K_z ;;
                type_Delta_p <- find pdg.Delta_p ;;
                type_Delta_z <- find pdg.Delta_z ;;
                let process_list :=
                  add_channel process_list
                    (fun _ => sigma_kplusp *
                 kplusn_ratios_get_ratio type_nucleon type_kaon type_K_z type_Delta_p)
                    (sqrt_s_ self) type_K_z type_Delta_p in
                let process_list :=
                  add_channel process_list
                    (fun _ => sigma_kplusp *
                 kplusn_ratios_get_ratio type_nucleon type_kaon type_K_p type_Delta_z)
                    (sqrt_s_ self) type_K_p type_Delta_z in
                Ok process_list
              else Ok process_list) ;;
           process_list <-
             (if incl_KN_to_KN then
                type_K_p <- find pdg.K_p ;;
                type_n <- find pdg.n ;;
                let process_list :=
                  add_channel process_list
                    (fun _ => kplusn_k0p s *
                 kplusn_ratios_get_ratio type_nucleon type_kaon type_K_p type_n)
                    (sqrt_s_ self) type_K_p type_n in
                Ok process_list
              else Ok process_list) ;;
           Ok process_list)%res);
         (pdg.n,
          (
           process_list <-
             (if incl_KN_to_KDelta then
                type_K_p <- find pdg.K_p ;;
                type_K_z <- find pdg.K_z ;;
                type_Delta_z <- find pdg.Delta_z ;;
                type_Delta_m <- find pdg.Delta_m ;;
                let process_list :=
                  add_channel process_list
                    (fun _ => sigma_kplusn *
                 kplusn_ratios_get_ratio type_nucleon type_kaon type_K_z type_Delta_z)
                    (sqrt_s_ self) type_K_z type_Delta_z in
                let process_list :=
                  add_channel process_list
                    (fun _ => sigma_kplusn *
                 kplusn_ratios_get_ratio type_nucleon type_kaon type_K_p type_Delta_m)
                    (sqrt_s_ self) type_K_p type_Delta_m in
                Ok process_list
              else Ok process_list) ;;
           Ok process_list)%res);
         ((- pdg.n)%Z,
          (
           process_list <-
             (if incl_KN_to_KN then
                type_K_p <- find pdg.K_p ;;
                type_p_bar <- find (- pdg.p)%Z ;;
                let process_list :=
                  add_channel process_list
                    (fun _ => kminusp_kbar0n s)
                    (sqrt_s_ self) type_K_p type_p_bar in
                Ok process_list
              else Ok process_list) ;;
           Ok process_list)%res)
        ] (Ok process_list));
     (pdg.Kbar_z,
      switch pdg_nucleon
        [
         (pdg.n,
          (
           process_list <-
             (if incl_KN_to_KN then
                type_p <- find pdg.p ;;
                type_K_m <- find pdg.K_m ;;
                let process_list :=
                  add_channel process_list
                    (fun _ => kminusp_kbar0n s)
                    (sqrt_s_ self) type_K_m type_p in
                Ok process_list
              else Ok process_list) ;;
           Ok process_list)%res);
         ((- pdg.p)%Z,
          (
           process_list <-
             (if incl_KN_to_KDelta then
                type_K_m <- find pdg.K_m ;;
                type_Kbar_z <- find pdg.Kbar_z ;;
                type_Delta_p_bar <- find (- pdg.Delta_p)%Z ;;
                type_Delta_z_bar <- find (- pdg.Delta_z)%Z ;;
                let process_list :=
                  add_channel process_list
                    (fun _ => sigma_kplusp *
                 kplusn_ratios_get_ratio type_nucleon type_kaon type_Kbar_z type_Delta_p_bar)
                    (sqrt_s_ self) type_Kbar_z type_Delta_p_bar in
                let process_list :=
                  add_channel process_list
                    (fun _ => sigma_kplusp *
                 kplusn_ratios_get_ratio type_nucleon type_kaon type_K_m type_Delta_z_bar)
                    (sqrt_s_ self) type_K_m type_Delta_z_bar in
                Ok process_list
              else Ok process_list) ;;
           process_list <-
             (if incl_KN_to_KN then
                type_K_m <- find pdg.K_m ;;
                type_n_bar <- find (- pdg.n)%Z ;;
                let process_list :=
                  add_channel process_list
                    (fun _ => kplusn_k0p s *
                 kplusn_ratios_get_ratio type_nucleon type_kaon type_K_m type_n_bar)
                    (sqrt_s_ self) type_K_m type_n_bar in
                Ok process_list
              else Ok process_list) ;;
           Ok process_list)%res);
         ((- pdg.n)%Z,
          (
           process_list <-
             (if incl_KN_to_KDelta then
                type_K_m <- find pdg.K_m ;;
                type_Kbar_z <- find pdg.Kbar_z ;;
                type_Delta_z_bar <- find (- pdg.Delta_z)%Z ;;
                type_Delta_m_bar <- find (- pdg.Delta_m)%Z ;;
                let process_list :=
                  add_channel process_list
                    (fun _ => sigma_kplusn *
                 kplusn_ratios_get_ratio type_nucleon type_kaon type_Kbar_z type_Delta_z_bar)
                    (sqrt_s_ self) type_Kbar_z type_Delta_z_bar in
                let process_list :=
                  add_channel process_list
                    (fun _ => sigma_kplusn *
                 kplusn_ratios_get_ratio type_nucleon type_kaon type_K_m type_Delta_m_bar)
                    (sqrt_s_ self) type_K_m type_Delta_m_bar in
                Ok process_list
              else Ok process_list) ;;
           Ok process_list)%res)
        ] (Ok process_list))
    ] (Ok process_list).

(** Hyperon-pion to nucleon-kaon, the reverse of the strangeness exchange,
    by detailed balance. *)
Definition ypi_xx (self : cross_sections) (included_2to2 : ReactionsBitSet)
    : Res CollisionBranchList :=
  let process_list : CollisionBranchList := [] in
  if negb (test included_2to2 Strangeness_exchange) then Ok process_list
  else
    let a := type (incoming_0 self) in
    let b := type (incoming_1 self) in
    let type_hyperon := if Pdg.is_hyperon (pdgcode a) then a else b in
    let type_pion := if Pdg.is_hyperon (pdgcode a) then b else a in
    let pdg_hyperon := pdgcode type_hyperon in
    let pdg_pion := pdgcode type_pion in
    let s := sqrt_s_ self * sqrt_s_ self in
    switch2 pdg_hyperon pdg_pion
      [
       (pdg.Sigma_z, pdg.pi_m,
        (type_n <- find pdg.n ;;
         type_K_m <- find pdg.K_m ;;
         Ok (add_channel process_list
               (fun _ =>
                  detailed_balance_factor_stable
                    s type_hyperon type_pion type_n type_K_m *
                  kminusn_piminussigma0 (sqrt_s_ self))
               (sqrt_s_ self) type_n type_K_m))%res);
       ((- pdg.Sigma_z)%Z, pdg.pi_p,
        (type_n_bar <- find (- pdg.n)%Z ;;
         type_K_p <- find pdg.K_p ;;
         Ok (add_channel process_list
               (fun _ =>
                  detailed_balance_factor_stable
                    s type_hyperon type_pion type_n_bar type_K_p *
                  kminusn_piminussigma0 (sqrt_s_ self))
               (sqrt_s_ self) type_n_bar type_K_p))%res);
       (pdg.Sigma_m, pdg.pi_z,
        (type_n <- find pdg.n ;;
         type_K_m <- find pdg.K_m ;;
         Ok (add_channel process_list
               (fun _ =>
                  detailed_balance_factor_stable
                    s type_hyperon type_pion type_n type_K_m *
                  kminusn_pi0sigmaminus (sqrt_s_ self))
               (sqrt_s_ self) type_n type_K_m))%res);
       ((- pdg.Sigma_m)%Z, pdg.pi_z,
        (type_n_bar <- find (- pdg.n)%Z ;;
         type_K_p <- find pdg.K_p ;;
         Ok (add_channel process_list
               (fun _ =>
                  detailed_balance_factor_stable
                    s type_hyperon type_pion type_n_bar type_K_p *
                  kminusn_pi0sigmaminus (sqrt_s_ self))
               (sqrt_s_ self) type_n_bar type_K_p))%res);
       (pdg.Lambda, pdg.pi_m,
        (type_n <- find pdg.n ;;
         type_K_m <- find pdg.K_m ;;
         Ok (add_channel process_list
               (fun _ =>
                  detailed_balance_factor_stable
                    s type_hyperon type_pion type_n type_K_m *
                  kminusn_piminuslambda (sqrt_s_ self))
               (sqrt_s_ self) type_n type_K_m))%res);
       ((- pdg.Lambda)%Z, pdg.pi_p,
        (type_n_bar <- find (- pdg.n)%Z ;;
         type_K_p <- find pdg.K_p ;;
         Ok (add_channel process_list
               (fun _ =>
                  detailed_balance_factor_stable
                    s type_hyperon type_pion type_n_bar type_K_p *
                  kminusn_piminuslambda (sqrt_s_ self))
               (sqrt_s_ self) type_n_bar type_K_p))%res);
       (pdg.Sigma_z, pdg.pi_z,
        (type_p <- find pdg.p ;;
         type_K_m <- find pdg.K_m ;;
         Ok (add_channel process_list
               (fun _ =>
                  detailed_balance_factor_stable
                    s type_hyperon type_pion type_p type_K_m *
                  kminusp_pi0sigma0 (sqrt_s_ self))
               (sqrt_s_ self) type_p type_K_m))%res);
       ((- pdg.Sigma_z)%Z, pdg.pi_z,
        (type_p_bar <- find (- pdg.p)%Z ;;
         type_K_p <- find pdg.K_p ;;
         Ok (add_channel process_list
               (fun _ =>
                  detailed_balance_factor_stable
                    s type_hyperon type_pion type_p_bar type_K_p *
                  kminusp_pi0sigma0 (sqrt_s_ self))
               (sqrt_s_ self) type_p_bar type_K_p))%res);
       (pdg.Sigma_m, pdg.pi_p,
        (type_p <- find pdg.p ;;
         type_K_m <- find pdg.K_m ;;
         Ok (add_channel process_list
               (fun _ =>
                  detailed_balance_factor_stable
                    s type_hyperon type_pion type_p type_K_m *
                  kminusp_piplussigmaminus (sqrt_s_ self))
               (sqrt_s_ self) type_p type_K_m))%res);
       ((- pdg.Sigma_m)%Z, pdg.pi_m,
        (type_p_bar <- find (- pdg.p)%Z ;;
         type_K_p <- find pdg.K_p ;;
         Ok (add_channel process_list
               (fun _ =>
                  detailed_balance_factor_stable
                    s type_hyperon type_pion type_p_bar type_K_p *
                  kminusp_piplussigmaminus (sqrt_s_ self))
               (sqrt_s_ self) type_p_bar type_K_p))%res);
       (pdg.Lambda, pdg.pi_z,
        (type_p <- find pdg.p ;;
         type_K_m <- find pdg.K_m ;;
         Ok (add_channel process_list
               (fun _ =>
                  detailed_balance_factor_stable
                    s type_hyperon type_pion type_p type_K_m *
                  kminusp_pi0lambda (sqrt_s_ self))
               (sqrt_s_ self) type_p type_K_m))%res);
       ((- pdg.Lambda)%Z, pdg.pi_z,
        (type_p_bar <- find (- pdg.p)%Z ;;
         type_K_p <- find pdg.K_p ;;
         Ok (add_channel process_list
               (fun _ =>
                  detailed_balance_factor_stable
                    s type_hyperon type_pion type_p_bar type_K_p *
                  kminusp_pi0lambda (sqrt_s_ self))
               (sqrt_s_ self) type_p_bar type_K_p))%res);
       (pdg.Sigma_p, pdg.pi_m,
        (type_p <- find pdg.p ;;
         type_K_m <- find pdg.K_m ;;
         Ok (add_channel process_list
               (fun _ =>
                  detailed_balance_factor_stable
                    s type_hyperon type_pion type_p type_K_m *
                  kminusp_piminussigmaplus (sqrt_s_ self))
               (sqrt_s_ self) type_p type_K_m))%res);
       ((- pdg.Sigma_p)%Z, pdg.pi_p,
        (type_p_bar <- find (- pdg.p)%Z ;;
         type_K_p <- find pdg.K_p ;;
         Ok (add_channel process_list
               (fun _ =>
                  detailed_balance_factor_stable
                    s type_hyperon type_pion type_p_bar type_K_p *
                  kminusp_piminussigmaplus (sqrt_s_ self))
               (sqrt_s_ self) type_p_bar type_K_p))%res)
      ] (Ok process_list).

(** Delta-kaon to nucleon-kaon, the reverse of K N -> K Delta, by detailed
    balance.  Two case labels in a row share one body. *)
Definition deltak_xx (self : cross_sections) (included_2to2 : ReactionsBitSet)
    : Res CollisionBranchList :=
  let process_list : CollisionBranchList := [] in
  if negb (test included_2to2 KN_to_KDelta) then Ok process_list
  else
    let a := type (incoming_0 self) in
    let b := type (incoming_1 self) in
    let type_delta := if Pdg.is_Delta (pdgcode a) then a else b in
    let type_kaon := if Pdg.is_Delta (pdgcode a) then b else a in
    let pdg_delta := pdgcode type_delta in
    let pdg_kaon := pdgcode type_kaon in
    let s := sqrt_s_ self * sqrt_s_ self in
    let pcm := cm_momentum self in
    let case_p_K_p : Res CollisionBranchList :=
      (type_p <- find pdg.p ;;
       type_K_p <- find pdg.K_p ;;
       let process_list :=
         add_channel process_list
           (fun _ =>
              detailed_balance_factor_RK (sqrt_s_ self) pcm
                type_delta type_kaon type_p type_K_p *
              kplusn_ratios_get_ratio type_p type_K_p type_kaon type_delta *
              kplusp_inelastic_background s)
           (sqrt_s_ self) type_p type_K_p in
       Ok process_list)%res in
    let case_pbar_K_m : Res CollisionBranchList :=
      (type_p_bar <- find (- pdg.p)%Z ;;
       type_K_m <- find pdg.K_m ;;
       let process_list :=
         add_channel process_list
           (fun _ =>
              detailed_balance_factor_RK (sqrt_s_ self) pcm
                type_delta type_kaon type_p_bar type_K_m *
              kplusn_ratios_get_ratio type_p_bar type_K_m type_kaon type_delta *
              kplusp_inelastic_background s)
           (sqrt_s_ self) type_p_bar type_K_m in
       Ok process_list)%res in
    let case_n_K_p : Res CollisionBranchList :=
      (type_n <- find pdg.n ;;
       type_p <- find pdg.p ;;
       type_K_p <- find pdg.K_p ;;
       type_K_z <- find pdg.K_z ;;
       let process_list :=
         add_channel process_list
           (fun _ =>
              detailed_balance_factor_RK (sqrt_s_ self) pcm
                type_delta type_kaon type_n type_K_p *
              kplusn_ratios_get_ratio type_n type_K_p type_kaon type_delta *
              kplusn_inelastic_background s)
           (sqrt_s_ self) type_n type_K_p in
       let process_list :=
         add_channel process_list
           (fun _ =>
              detailed_balance_factor_RK (sqrt_s_ self) pcm
                type_delta type_kaon type_p type_K_z *
              kplusn_ratios_get_ratio type_p type_K_z type_kaon type_delta *
              kplusp_inelastic_background s)
           (sqrt_s_ self) type_p type_K_z in
       Ok process_list)%res in
    let case_nbar_K_m : Res CollisionBranchList :=
      (type_n_bar <- find (- pdg.n)%Z ;;
       type_p_bar <- find (- pdg.p)%Z ;;
       type_K_m <- find pdg.K_m ;;
       type_Kbar_z <- find pdg.Kbar_z ;;
       let process_list :=
         add_channel process_list
           (fun _ =>
              detailed_balance_factor_RK (sqrt_s_ self) pcm
                type_delta type_kaon type_n_bar type_K_m *
              kplusn_ratios_get_ratio type_n_bar type_K_m type_kaon type_delta *
              kplusn_inelastic_background s)
           (sqrt_s_ self) type_n_bar type_K_m in
       let process_list :=
         add_channel process_list
           (fun _ =>
              detailed_balance_factor_RK (sqrt_s_ self) pcm
                type_delta type_kaon type_p_bar type_Kbar_z *
              kplusn_ratios_get_ratio type_p_bar type_Kbar_z type_kaon type_delta *
              kplusp_inelastic_background s)
           (sqrt_s_ self) type_p_bar type_Kbar_z in
       Ok process_list)%res in
    let case_n_K_z : Res CollisionBranchList :=
      (type_n <- find pdg.n ;;
       type_K_z <- find pdg.K_z ;;
       let process_list :=
         add_channel process_list
           (fun _ =>
              detailed_balance_factor_RK (sqrt_s_ self) pcm
                type_delta type_kaon type_n type_K_z *
              kplusn_ratios_get_ratio type_n type_K_z type_kaon type_delta *
              kplusn_inelastic_background s)
           (sqrt_s_ self) type_n type_K_z in
       Ok process_list)%res in
    let case_nbar_Kbar_z : Res CollisionBranchList :=
      (type_n_bar <- find (- pdg.n)%Z ;;
       type_Kbar_z <- find pdg.Kbar_z ;;
       let process_list :=
         add_channel process_list
           (fun _ =>
              detailed_balance_factor_RK (sqrt_s_ self) pcm
                type_delta type_kaon type_n_bar type_Kbar_z *
              kplusn_ratios_get_ratio type_n_bar type_Kbar_z type_kaon type_delta *
              kplusn_inelastic_background s)
           (sqrt_s_ self) type_n_bar type_Kbar_z in
       Ok process_list)%res in
    switch2 pdg_delta pdg_kaon
      [
       (pdg.Delta_pp, pdg.K_z, case_p_K_p);
       (pdg.Delta_p, pdg.K_p, case_p_K_p);
       ((- pdg.Delta_pp)%Z, pdg.Kbar_z, case_pbar_K_m);
       ((- pdg.Delta_p)%Z, pdg.K_m, case_pbar_K_m);
       (pdg.Delta_p, pdg.K_z, case_n_K_p);
       (pdg.Delta_z, pdg.K_p, case_n_K_p);
       ((- pdg.Delta_p)%Z, pdg.Kbar_z, case_nbar_K_m);
       ((- pdg.Delta_z)%Z, pdg.K_m, case_nbar_K_m);
       (pdg.Delta_z, pdg.K_z, case_n_K_z);
       (pdg.Delta_m, pdg.K_p, case_n_K_z);
       ((- pdg.Delta_z)%Z, pdg.Kbar_z, case_nbar_Kbar_z);
       ((- pdg.Delta_m)%Z, pdg.K_m, case_nbar_Kbar_z)
      ] (Ok process_list).

(** The 2 -> 2 dispatcher on the classes of the pair. *)
Definition two_to_two (self : cross_sections)
    (included_2to2 : ReactionsBitSet) : Res CollisionBranchList :=
  let process_list : CollisionBranchList := [] in
  let data_a := incoming_0 self in
  let data_b := incoming_1 self in
  let type_a := type data_a in
  let type_b := type data_b in
  let pdg_a := pdgcode (type data_a) in
  let pdg_b := pdgcode (type data_b) in
  if is_baryon (type data_a) && is_baryon (type data_b) then
    if Pdg.is_nucleon pdg_a && Pdg.is_nucleon pdg_b
       && (Pdg.antiparticle_sign pdg_a =? Pdg.antiparticle_sign pdg_b)%Z
    then Ok (nn_xx self included_2to2)
    else Ok (bb_xx_except_nn self included_2to2)
  else if (is_baryon type_a && is_meson type_b)
          || (is_meson type_a && is_baryon type_b) then
    if (Pdg.is_nucleon pdg_a && Pdg.is_kaon pdg_b)
       || (Pdg.is_nucleon pdg_b && Pdg.is_kaon pdg_a)
    then nk_xx self included_2to2
    else if (Pdg.is_hyperon pdg_a && Pdg.is_pion pdg_b)
            || (Pdg.is_hyperon pdg_b && Pdg.is_pion pdg_a)
    then ypi_xx self included_2to2
    else if (Pdg.is_Delta pdg_a && Pdg.is_kaon pdg_b)
            || (Pdg.is_Delta pdg_b && Pdg.is_kaon pdg_a)
    then deltak_xx self included_2to2
    else Ok process_list
  else if is_nucleus type_a || is_nucleus type_b then
    if (is_nucleon type_a && is_nucleus type_b)
       || (is_nucleon type_b && is_nucleus type_a)
    then Ok (dn_xx self included_2to2)
    else if ((is_deuteron type_a || is_dprime type_a) && Pdg.is_pion pdg_b)
            || ((is_deuteron type_b || is_dprime type_b)
                && Pdg.is_pion pdg_a)
    then Ok (dpi_xx self included_2to2)
    else Ok process_list
  else Ok process_list.

(** Parametrized total cross section at high energy. *)
Definition high_energy (self : cross_sections) : R :=
  let pdg_a := pdgcode (type (incoming_0 self)) in
  let pdg_b := pdgcode (type (incoming_1 self)) in
  let s := sqrt_s_ self * sqrt_s_ self in
  if Pdg.is_baryon pdg_a && Pdg.is_baryon pdg_b then
    if (pdg_a =? pdg_b)%Z then pp_high_energy s
    else if Pdg.is_antiparticle_of pdg_a pdg_b then ppbar_high_energy s
    else if (Pdg.antiparticle_sign pdg_a * Pdg.antiparticle_sign pdg_b =? 1)%Z
    then np_high_energy s
    else npbar_high_energy s
  else if ((pdg_a =? pdg.pi_p) && (pdg_b =? pdg.p))%Z
          || ((pdg_b =? pdg.pi_p) && (pdg_a =? pdg.p))%Z
          || ((pdg_a =? pdg.pi_m) && (pdg_b =? pdg.n))%Z
          || ((pdg_b =? pdg.pi_m) && (pdg_a =? pdg.n))%Z
  then piplusp_high_energy s
  else if ((pdg_a =? pdg.pi_m) && (pdg_b =? pdg.p))%Z
          || ((pdg_b =? pdg.pi_m) && (pdg_a =? pdg.p))%Z
          || ((pdg_a =? pdg.pi_p) && (pdg_b =? pdg.n))%Z
          || ((pdg_b =? pdg.pi_p) && (pdg_a =? pdg.n))%Z
  then piminusp_high_energy s
  else 0.

Definition string_hard_cross_section (self : cross_sections) : R :=
  let data_a := incoming_0 self in
  let data_b := incoming_1 self in
  if is_baryon (type data_a) && is_baryon (type data_b)
  then NN_string_hard (sqrt_s_ self * sqrt_s_ self)
  else if is_baryon (type data_a) || is_baryon (type data_b)
  then Npi_string_hard (sqrt_s_ self * sqrt_s_ self)
  else pipi_string_hard (sqrt_s_ self * sqrt_s_ self).

(** The partial string cross sections after the budget arithmetic of
    [string_excitation]. *)
Record StringBudget : Type := mkBudget {
  single_diffr_AX : R;
  single_diffr_XB : R;
  double_diffr : R;
  nondiffractive_all : R;
  nondiffractive_soft : R;
  nondiffractive_hard : R;
  sig_string_soft : R
}.

(** The budget arithmetic of [string_excitation]: from the total
    [sig_string_all], the generator's triple [xs] and the hard cross
    section. *)
Definition string_budget (sig_string_all : R) (xs : R * R * R)
    (hard_xsec : R) : StringBudget :=
  let '(xs0, xs1, xs2) := xs in
  let single_diffr_AX := xs0 in
  let single_diffr_XB := xs1 in
  let double_diffr := xs2 in
  let single_diffr := single_diffr_AX + single_diffr_XB in
  let diffractive := single_diffr + double_diffr in
  let nondiffractive_all := Rmax 0 (sig_string_all - diffractive) in
  let diffractive := sig_string_all - nondiffractive_all in
  let double_diffr := Rmax 0 (diffractive - single_diffr) in
  let a := (diffractive - double_diffr) / single_diffr in
  let single_diffr_AX := single_diffr_AX * a in
  let single_diffr_XB := single_diffr_XB * a in
  let nondiffractive_soft :=
    nondiffractive_all * std_exp (- hard_xsec / nondiffractive_all) in
  let nondiffractive_hard := nondiffractive_all - nondiffractive_soft in
  let sig_string_soft := sig_string_all - nondiffractive_hard in
  mkBudget single_diffr_AX single_diffr_XB double_diffr nondiffractive_all
    nondiffractive_soft nondiffractive_hard sig_string_soft.

(** [string_sub_cross_sections_sum]: the running sums, starting at 0. *)
Fixpoint sub_cross_sections_sum (acc : R) (xs : list R) : list R :=
  match xs with
  | [] => [acc]
  | x :: rest => acc :: sub_cross_sections_sum (acc + x) rest
  end.

(** The selection loop [for (i = i0; i < i0 + count; i++)]: the first
    bucket [sums[i] <= r < sums[i+1]] wins. *)
Fixpoint select_soft_subprocess (i count : nat) (sums : list R) (r_xsec : R)
    : StringSoftType :=
  match count with
  | O => NoneSoft
  | S count' =>
      if (r_xsec >=? nth i sums 0) && (r_xsec <? nth (S i) sums 0)
      then StringSoftType_of_index i
      else select_soft_subprocess (S i) count' sums r_xsec
  end.

(** The PDG id handed to the string generator for one incoming particle. *)
Definition pdgid_for_strings (t : ParticleType) : Z :=
  let pdg := Pdg.deexcite (pdgcode t) in
  if (Pdg.baryon_number pdg =? 1)%Z then 2212%Z
  else if (Pdg.baryon_number pdg =? -1)%Z then (-2212)%Z
  else 211%Z.

Definition string_excitation (self : cross_sections)
    (string_process : option StringProcess) : M CollisionBranchList :=
  (el <- lift (elastic_parametrization self) ;;
   let sig_string_all := Rmax 0 (high_energy self - el) in
   let pdgid0 := pdgid_for_strings (type (incoming_0 self)) in
   let pdgid1 := pdgid_for_strings (type (incoming_1 self)) in
   let channel_list : CollisionBranchList := [] in
   if sig_string_all >? 0 then
     match string_process with
     | None =>
         lift (Throw (runtime_error
                 [Text "string_process should be initialized."]))
     | Some sp =>
         let xs := cross_sections_diffractive sp pdgid0 pdgid1 (sqrt_s_ self) in
         let hard_xsec := string_hard_cross_section self in
         let b := string_budget sig_string_all xs hard_xsec in
         let string_sub_cross_sections :=
           [single_diffr_AX b; single_diffr_XB b; double_diffr b;
            nondiffractive_soft b; nondiffractive_hard b] in
         let string_sub_cross_sections_sum :=
           sub_cross_sections_sum 0 string_sub_cross_sections in
         u <- Random_uniform01 ;;
         let r_xsec := nth 4 string_sub_cross_sections_sum 0 * u in
         let iproc :=
           select_soft_subprocess 0 4 string_sub_cross_sections_sum r_xsec in
         match iproc with
         | NoneSoft =>
             lift (Throw (runtime_error
                     [Text "soft string subprocess is not specified."]))
         | _ =>
             _ <- set_subproc iproc ;;
             let channel_list :=
               if sig_string_soft b >? 0
               then channel_list ++ [branch0 (sig_string_soft b) StringSoft]
               else channel_list in
             let channel_list :=
               if nondiffractive_hard b >? 0
               then channel_list ++
                    [branch0 (nondiffractive_hard b) StringHard]
               else channel_list in
             M_ret channel_list
         end
     end
   else M_ret channel_list)%m.

(** N Nbar -> rho h1(1170): the parametrized total minus what is already
    in the list. *)
Definition NNbar_annihilation (self : cross_sections) (current_xs : R)
    : Res CollisionBranch :=
  let s := sqrt_s_ self * sqrt_s_ self in
  let nnbar_xsec := Rmax 0 (ppbar_total s - current_xs) in
  (type_h1 <- find pdg.h1 ;;
   type_rho_z <- find pdg.rho_z ;;
   Ok (branch2 type_h1 type_rho_z nnbar_xsec TwoToTwo))%res.

(** rho h1(1170) -> N Nbar, the reverse by detailed balance. *)
Definition NNbar_creation (self : cross_sections) : Res CollisionBranchList :=
  let channel_list : CollisionBranchList := [] in
  let s := sqrt_s_ self * sqrt_s_ self in
  let pcm := cm_momentum self in
  (type_N <- find pdg.p ;;
   type_Nbar <- find (- pdg.p)%Z ;;
   if sqrt_s_ self - 2 * mass type_N <? 0 then Ok channel_list
   else
     let xsection :=
       detailed_balance_factor_RR (sqrt_s_ self) pcm
         (type (incoming_0 self)) (type (incoming_1 self)) type_N type_Nbar *
       Rmax 0 (ppbar_total s - ppbar_elastic s) in
     let channel_list :=
       channel_list ++ [branch2 type_N type_Nbar xsection TwoToTwo] in
     type_n <- find pdg.n ;;
     type_nbar <- find (- pdg.n)%Z ;;
     Ok (channel_list ++ [branch2 type_n type_nbar xsection TwoToTwo]))%res.

(** Whether the pair scatters through string fragmentation. *)
Definition decide_string (self : cross_sections)
    (strings_switch both_are_nucleons : bool) : M bool :=
  let t1 := type (incoming_0 self) in
  let t2 := type (incoming_1 self) in
  let '(include_pythia, mix_scatter_type_energy,
        mix_scatter_type_window_width) :=
    if both_are_nucleons then (true, 4.5, 0.5)
    else if (Pdg.is_pion (pdgcode t1) && is_nucleon t2)
            || (is_nucleon t1 && Pdg.is_pion (pdgcode t2))
    then (true, 2.7, 0.4)
    else (false, 0, 0) in
  let enable_pythia := strings_switch && include_pythia in
  if enable_pythia then
    if sqrt_s_ self >?
       mix_scatter_type_energy + mix_scatter_type_window_width
    then M_ret true
    else if sqrt_s_ self >?
            mix_scatter_type_energy - mix_scatter_type_window_width
    then
      let probability_pythia :=
        (sqrt_s_ self - mix_scatter_type_energy +
         mix_scatter_type_window_width) /
        mix_scatter_type_window_width / 2.0 in
      (u <- Random_uniform01 ;;
       M_ret (probability_pythia >? u))%m
    else M_ret false
  else M_ret false.

(** The facade: the list of all reaction channels of the pair. *)
Definition generate_collision_list (self : cross_sections)
    (elastic_parameter : R) (two_to_one_switch : bool)
    (included_2to2 : ReactionsBitSet) (low_snn_cut : R)
    (strings_switch : bool) (nnbar_treatment : NNbarTreatment)
    (string_process : option StringProcess) : M CollisionBranchList :=
  let process_list : CollisionBranchList := [] in
  let t1 := type (incoming_0 self) in
  let t2 := type (incoming_1 self) in
  let both_are_nucleons := is_nucleon t1 && is_nucleon t2 in
  (is_pythia <- decide_string self strings_switch both_are_nucleons ;;
   let reject_by_nucleon_elastic_cutoff :=
     both_are_nucleons
     && (antiparticle_sign t1 =? antiparticle_sign t2)%Z
     && (sqrt_s_ self <? low_snn_cut) in
   let incl_elastic := test included_2to2 IR_Elastic in
   process_list <-
     (if incl_elastic && negb reject_by_nucleon_elastic_cutoff then
        el <- lift (elastic self elastic_parameter) ;;
        M_ret (process_list ++ [el])
      else M_ret process_list) ;;
   process_list <-
     (if is_pythia then
        l <- string_excitation self string_process ;;
        M_ret (append_list process_list l)
      else
        let process_list :=
          if two_to_one_switch
          then append_list process_list (two_to_one self)
          else process_list in
        if any included_2to2 then
          l <- lift (two_to_two self included_2to2) ;;
          M_ret (append_list process_list l)
        else M_ret process_list) ;;
   match nnbar_treatment with
   | Resonances =>
       process_list <-
         (if is_nucleon t1
             && (pdgcode t2 =? pdgcode (get_antiparticle t1))%Z
          then
            b <- lift (NNbar_annihilation self (sum_xs_of process_list)) ;;
            M_ret (process_list ++ [b])
          else M_ret process_list) ;;
       if ((pdgcode t1 =? pdg.rho_z) && (pdgcode t2 =? pdg.h1))%Z
          || ((pdgcode t1 =? pdg.h1) && (pdgcode t2 =? pdg.rho_z))%Z
       then
         l <- lift (NNbar_creation self) ;;
         M_ret (append_list process_list l)
       else M_ret process_list
   | _ => M_ret process_list
   end)%m.

End Kernel.

(** ** The specification's words, for comparison with the code *)

Section Specification.

Context {K : pdg.Constants} {PM : Pdg.Methods} {Reg : Registry}
        {Par : Parametrizations} {Hlp : Helpers} {Rnd : Random}.

(** g(x) = 2 J_x + 1 and delta(a, b) of the detailed-balance formulas. *)
Definition g (x : ParticleType) : R := IZR (spin x) + 1.

Definition delta (a b : ParticleType) : R :=
  if type_eqb a b then 1 else 0.

(** The registry stores 2J in an [unsigned int]; the values are small. *)
Definition spin_in_range (x : ParticleType) : Prop :=
  (0 <= spin x < 65535)%Z.

(** The final states of the matrix-element table, with the same
    antiparticle sign on both particles for the baryonic ones; the flag of
    [N_Nstar] tells whether an N*(1535) is involved. *)
Inductive FinalState : Type :=
| N_Delta
| N_Nstar (with_1535 : bool)
| N_Deltastar
| Delta_Delta
| Nstar_Delta
| Deltastar_Delta
| d_pi
| Unlisted.

Definition final_state (a b : ParticleType) : FinalState :=
  let same_sign := (antiparticle_sign a =? antiparticle_sign b)%Z in
  if ((is_Delta a && is_nucleon b) || (is_Delta b && is_nucleon a))
     && same_sign
  then N_Delta
  else if ((is_Nstar a && is_nucleon b) || (is_Nstar b && is_nucleon a))
          && same_sign
  then N_Nstar (is_Nstar1535 a || is_Nstar1535 b)
  else if ((is_Deltastar a && is_nucleon b)
           || (is_Deltastar b && is_nucleon a)) && same_sign
  then N_Deltastar
  else if (is_Delta a && is_Delta b) && same_sign
  then Delta_Delta
  else if ((is_Nstar a && is_Delta b) || (is_Nstar b && is_Delta a))
          && same_sign
  then Nstar_Delta
  else if ((is_Deltastar a && is_Delta b) || (is_Deltastar b && is_Delta a))
          && same_sign
  then Deltastar_Delta
  else if (is_deuteron a && Pdg.is_pion (pdgcode b))
          || (is_deuteron b && Pdg.is_pion (pdgcode a))
  then d_pi
  else Unlisted.

Definition uplmt (a b : ParticleType) : R :=
  mass a + mass b + 3 * (width_at_pole a + width_at_pole b) + 3.

Definition msqr (a b : ParticleType) : R :=
  2 * (mass a ^ 2 + mass b ^ 2).

(** A row of the table that depends on the total isospin 2I. *)
Definition by_isospin (twoI : Z) (at_2 at_0 : R) : R :=
  if (twoI =? 2)%Z then at_2
  else if (twoI =? 0)%Z then at_0
  else 0.

(** The table, given its rows for N N*. *)
Definition matrix_element_table (nstar_row : bool -> Z -> R)
    (sqrts : R) (a b : ParticleType) (twoI : Z) : R :=
  match final_state a b with
  | N_Delta => 68 / std_pow (sqrts - 1.104) 1.951
  | N_Nstar with_1535 => nstar_row with_1535 twoI
  | N_Deltastar => 15 / msqr a b
  | Delta_Delta => by_isospin twoI (45 / msqr a b) (120 / msqr a b)
  | Nstar_Delta => 7 / msqr a b
  | Deltastar_Delta => by_isospin twoI (15 / msqr a b) (25 / msqr a b)
  | d_pi =>
      0.055 / ((sqrts - 2.145) ^ 2 + 0.065 ^ 2) *
      (1 - std_exp (- 20 * (sqrts - 2)))
  | Unlisted => 0
  end.

(** The rows of the specification: N N* without N*(1535) at 2I = 2 and
    2I = 0, N N*(1535) at 2I = 0 only. *)
Definition nstar_row_in_spec (a b : ParticleType) (with_1535 : bool)
    (twoI : Z) : R :=
  if with_1535
  then if (twoI =? 0)%Z then 6.5 * 14 / msqr a b else 0
  else by_isospin twoI (7 / msqr a b) (14 / msqr a b).

(** The rows of the code: at 2I = 2 every N N*, N*(1535) included. *)
Definition nstar_row_amended (a b : ParticleType) (with_1535 : bool)
    (twoI : Z) : R :=
  by_isospin twoI (7 / msqr a b)
    (if with_1535 then 6.5 * 14 / msqr a b else 14 / msqr a b).

Definition matrix_element_in_spec
    (sqrts : R) (a b : ParticleType) (twoI : Z) : R :=
  if sqrts >? uplmt a b then 0
  else matrix_element_table (nstar_row_in_spec a b) sqrts a b twoI.

Definition matrix_element_amended
    (sqrts : R) (a b : ParticleType) (twoI : Z) : R :=
  if sqrts >? uplmt a b then 0
  else matrix_element_table (nstar_row_amended a b) sqrts a b twoI.

(** The elastic gate of the facade. *)
Definition elastic_included (self : cross_sections)
    (included_2to2 : ReactionsBitSet) (low_snn_cut : R) : bool :=
  let t1 := type (incoming_0 self) in
  let t2 := type (incoming_1 self) in
  bit_Elastic included_2to2
  && negb (is_nucleon t1 && is_nucleon t2
           && (antiparticle_sign t1 =? antiparticle_sign t2)%Z
           && (sqrt_s_ self <? low_snn_cut)).

(** The parametrized elastic value in the specification's words: chosen by
    pair type, with pp, np or ppbar for any two nucleons. *)
Definition elastic_parametrization_in_spec (self : cross_sections) : Res R :=
  let pdg_a := pdgcode (type (incoming_0 self)) in
  let pdg_b := pdgcode (type (incoming_1 self)) in
  if Pdg.is_nucleon pdg_a && Pdg.is_nucleon pdg_b then nn_el self
  else if (Pdg.is_nucleon pdg_a && Pdg.is_pion pdg_b)
          || (Pdg.is_nucleon pdg_b && Pdg.is_pion pdg_a)
  then npi_el self
  else if (Pdg.is_nucleon pdg_a && Pdg.is_kaon pdg_b)
          || (Pdg.is_nucleon pdg_b && Pdg.is_kaon pdg_a)
  then nk_el self
  else Ok 0.

Definition is_elastic (b : CollisionBranch) : bool :=
  match get_type b with
  | Elastic => true
  | _ => false
  end.

(** What the list of the facade looks like around its elastic branch, for
    a given rule [param] for the parametrized weight. *)
Definition elastic_branch_rule (param : cross_sections -> Res R)
    (self : cross_sections) (elastic_parameter : R)
    (included_2to2 : ReactionsBitSet) (low_snn_cut : R)
    (l : CollisionBranchList) : Prop :=
  if elastic_included self included_2to2 low_snn_cut
  then exists W rest,
         l = branch2 (type (incoming_0 self)) (type (incoming_1 self))
               W Elastic :: rest
         /\ forallb (fun b => negb (is_elastic b)) rest = true
         /\ (if elastic_parameter >=? 0 then W = elastic_parameter
             else param self = Ok W)
  else forallb (fun b => negb (is_elastic b)) l = true.

(** The branches the facade appends without the [really_small] test. *)
Definition appended_unfiltered (b : CollisionBranch) : Prop :=
  get_type b = Elastic
  \/ ((get_type b = StringSoft \/ get_type b = StringHard) /\ weight b > 0)
  \/ (get_type b = TwoToTwo
      /\ exists x y, particle_types b = [x; y]
         /\ (In y list_light_nuclei
             \/ (find pdg.h1 = Ok x /\ find pdg.rho_z = Ok y)
             \/ (find pdg.p = Ok x /\ find (- pdg.p)%Z = Ok y)
             \/ (find pdg.n = Ok x /\ find (- pdg.n)%Z = Ok y))).

Definition above_really_small (b : CollisionBranch) : Prop :=
  weight b > really_small.

(** A 2 -> 2 branch that passed the [really_small] test. *)
Definition filtered_2to2 (b : CollisionBranch) : Prop :=
  get_type b = TwoToTwo /\ above_really_small b.

(** A 2 -> 1 branch that passed the [really_small] test. *)
Definition filtered_2to1 (b : CollisionBranch) : Prop :=
  get_type b = TwoToOne /\ above_really_small b.

(** A 2 -> 2 branch whose second product is a light nucleus. *)
Definition to_light_nucleus (b : CollisionBranch) : Prop :=
  get_type b = TwoToTwo
  /\ exists x y, particle_types b = [x; y] /\ In y list_light_nuclei.

(** What holds of every branch the facade appends after the elastic one. *)
Definition after_elastic (b : CollisionBranch) : Prop :=
  get_type b <> Elastic /\ (above_really_small b \/ appended_unfiltered b).

(** The sum of the weights of a list. *)
Definition total_weight (l : CollisionBranchList) : R :=
  fold_right (fun b acc => weight b + acc) 0 l.

End Specification.

(** ** A small particle table, to run the kernel on concrete pairs *)

Module Box.

Definition stable_hadron (code : Z) (nm : string) (m : R) (twoJ q B : Z)
    (multiplet : Z) (nucleon baryon meson : bool) : ParticleType :=
  {| pdgcode := code; name := nm; mass := m; width_at_pole := 0;
     min_mass_kinematic := m; min_mass_spectral := m;
     spin := twoJ; charge := q; baryon_number := B;
     antiparticle_sign := if (code <? 0)%Z then (-1)%Z else 1%Z;
     iso_multiplet := multiplet;
     is_stable := true; is_nucleon := nucleon; is_Delta := false;
     is_Nstar := false; is_Nstar1535 := false; is_Deltastar := false;
     is_baryon := baryon; is_meson := meson; is_nucleus := false;
     is_deuteron := false; is_dprime := false |}.

Definition proton := stable_hadron 8722 "p" 0.938 1 1 1 1 true true false.
Definition antiproton :=
  stable_hadron (-8722) "pbar" 0.938 1 (-1) (-1) 2 true true false.
Definition neutron := stable_hadron 8466 "n" 0.938 1 0 1 1 true true false.
Definition antineutron :=
  stable_hadron (-8466) "nbar" 0.938 1 0 (-1) 2 true true false.
Definition pi_plus := stable_hadron 529 "pi+" 0.138 0 1 0 3 false false true.
Definition pi_zero := stable_hadron 273 "pi0" 0.138 0 0 0 3 false false true.
Definition pi_minus :=
  stable_hadron (-529) "pi-" 0.138 0 (-1) 0 3 false false true.

Definition rho_zero : ParticleType :=
  {| pdgcode := 275; name := "rho0"; mass := 0.776; width_at_pole := 0.149;
     min_mass_kinematic := 0.276; min_mass_spectral := 0.276;
     spin := 2; charge := 0; baryon_number := 0; antiparticle_sign := 1;
     iso_multiplet := 4;
     is_stable := false; is_nucleon := false; is_Delta := false;
     is_Nstar := false; is_Nstar1535 := false; is_Deltastar := false;
     is_baryon := false; is_meson := true; is_nucleus := false;
     is_deuteron := false; is_dprime := false |}.

Definition h1_1170 : ParticleType :=
  {| pdgcode := 66083; name := "h1(1170)"; mass := 1.17;
     width_at_pole := 0.36;
     min_mass_kinematic := 0.414; min_mass_spectral := 0.414;
     spin := 2; charge := 0; baryon_number := 0; antiparticle_sign := 1;
     iso_multiplet := 5;
     is_stable := false; is_nucleon := false; is_Delta := false;
     is_Nstar := false; is_Nstar1535 := false; is_Deltastar := false;
     is_baryon := false; is_meson := true; is_nucleus := false;
     is_deuteron := false; is_dprime := false |}.

Definition Nstar_1535_plus : ParticleType :=
  {| pdgcode := 139794; name := "N(1535)+"; mass := 1.53;
     width_at_pole := 0.15;
     min_mass_kinematic := 1.076; min_mass_spectral := 1.076;
     spin := 1; charge := 1; baryon_number := 1; antiparticle_sign := 1;
     iso_multiplet := 6;
     is_stable := false; is_nucleon := false; is_Delta := false;
     is_Nstar := true; is_Nstar1535 := true; is_Deltastar := false;
     is_baryon := true; is_meson := false; is_nucleus := false;
     is_deuteron := false; is_dprime := false |}.

Definition deuteron : ParticleType :=
  {| pdgcode := 1000010020; name := "d"; mass := 1.8756;
     width_at_pole := 0;
     min_mass_kinematic := 1.8756; min_mass_spectral := 1.8756;
     spin := 2; charge := 1; baryon_number := 2; antiparticle_sign := 1;
     iso_multiplet := 7;
     is_stable := true; is_nucleon := false; is_Delta := false;
     is_Nstar := false; is_Nstar1535 := false; is_Deltastar := false;
     is_baryon := false; is_meson := false; is_nucleus := true;
     is_deuteron := true; is_dprime := false |}.

Definition dprime : ParticleType :=
  {| pdgcode := 1000010021; name := "d'"; mass := 1.8856;
     width_at_pole := 0.1;
     min_mass_kinematic := 1.8761; min_mass_spectral := 1.8761;
     spin := 2; charge := 1; baryon_number := 2; antiparticle_sign := 1;
     iso_multiplet := 8;
     is_stable := false; is_nucleon := false; is_Delta := false;
     is_Nstar := false; is_Nstar1535 := false; is_Deltastar := false;
     is_baryon := false; is_meson := false; is_nucleus := true;
     is_deuteron := false; is_dprime := true |}.

Definition all_types : list ParticleType :=
  [proton; antiproton; neutron; antineutron; pi_plus; pi_zero; pi_minus;
   rho_zero; h1_1170; Nstar_1535_plus; deuteron; dprime].

Definition lookup (c : PdgCode) : option ParticleType :=
  List.find (fun t => (pdgcode t =? c)%Z) all_types.

Definition constants : pdg.Constants :=
  {| pdg.p := 8722; pdg.n := 8466;
     pdg.pi_p := 529; pdg.pi_z := 273; pdg.pi_m := -529;
     pdg.K_p := 801; pdg.K_z := 785; pdg.Kbar_z := -785; pdg.K_m := -801;
     pdg.Sigma_p := 12834; pdg.Sigma_z := 12818; pdg.Sigma_m := 12562;
     pdg.Lambda := 12578;
     pdg.Delta_pp := 8740; pdg.Delta_p := 8724; pdg.Delta_z := 8468;
     pdg.Delta_m := 4372;
     pdg.rho_z := 275; pdg.h1 := 66083;
     pdg.decimal_d := 1000010020; pdg.decimal_antid := -1000010020 |}.

Definition code_in (c : Z) (codes : list Z) : bool :=
  existsb (Z.eqb c) codes.

Definition methods : Pdg.Methods :=
  {| Pdg.is_nucleon := fun c => code_in (Z.abs c) [8722; 8466]%Z;
     Pdg.is_pion := fun c => code_in c [273; 529; -529]%Z;
     Pdg.is_kaon := fun c => code_in (Z.abs c) [801; 785]%Z;
     Pdg.is_hyperon :=
       fun c => code_in (Z.abs c) [12834; 12818; 12562; 12578]%Z;
     Pdg.is_Delta := fun c => code_in (Z.abs c) [8740; 8724; 8468; 4372]%Z;
     Pdg.is_baryon :=
       fun c => code_in (Z.abs c) [8722; 8466; 139794]%Z;
     Pdg.antiparticle_sign := fun c => if (c <? 0)%Z then (-1)%Z else 1%Z;
     Pdg.is_antiparticle_of := fun a b => (a =? - b)%Z;
     Pdg.spin :=
       fun c => match lookup c with Some t => spin t | None => 0%Z end;
     Pdg.baryon_number :=
       fun c =>
         match lookup c with Some t => baryon_number t | None => 0%Z end;
     Pdg.deexcite := fun c => c;
     Pdg.from_decimal := fun d => d |}.

Definition registry : Registry :=
  {| list_all := all_types;
     list_nucleons := [proton; neutron];
     list_anti_nucleons := [antiproton; antineutron];
     list_Deltas := [];
     list_anti_Deltas := [];
     list_baryon_resonances := [Nstar_1535_plus];
     list_light_nuclei := [deuteron; dprime];
     try_find := lookup;
     get_antiparticle :=
       fun t =>
         match lookup (- pdgcode t)%Z with Some a => a | None => t end;
     get_partial_in_width := fun _ _ _ _ => 0;
     spectral_function := fun _ _ => 0;
     get_integral_NR := fun _ _ => 1;
     get_integral_RR := fun _ _ _ => 1;
     get_integral_RK := fun _ _ => 1;
     get_integral_piR := fun _ _ => 1 |}.

(** Constant stand-ins for the fitted parametrizations, in mb. *)
Definition parametrizations : Parametrizations :=
  {| pp_elastic := fun _ => 7;
     ppbar_elastic := fun _ => 20;
     np_elastic := fun _ => 8;
     ppbar_total := fun _ => 60;
     piplusp_elastic := fun _ => 5;
     piminusp_elastic := fun _ => 3;
     kplusp_elastic_background := fun _ => 1;
     kminusp_elastic_background := fun _ => 1;
     k0p_elastic_background := fun _ => 1;
     kbar0p_elastic_background := fun _ => 1;
     kplusn_elastic_background := fun _ => 1;
     kminusn_elastic_background := fun _ => 1;
     k0n_elastic_background := fun _ => 1;
     kbar0n_elastic_background := fun _ => 1;
     kplusp_inelastic_background := fun _ => 1;
     kplusn_inelastic_background := fun _ => 1;
     kminusp_piminussigmaplus := fun _ => 1;
     kminusp_piplussigmaminus := fun _ => 1;
     kminusp_pi0sigma0 := fun _ => 1;
     kminusp_pi0lambda := fun _ => 1;
     kminusp_kbar0n := fun _ => 1;
     kminusn_piminussigma0 := fun _ => 1;
     kminusn_pi0sigmaminus := fun _ => 1;
     kminusn_piminuslambda := fun _ => 1;
     kplusn_k0p := fun _ => 1;
     pp_high_energy := fun _ => 40;
     ppbar_high_energy := fun _ => 60;
     np_high_energy := fun _ => 40;
     npbar_high_energy := fun _ => 60;
     piplusp_high_energy := fun _ => 25;
     piminusp_high_energy := fun _ => 25;
     NN_string_hard := fun _ => 3;
     Npi_string_hard := fun _ => 2;
     pipi_string_hard := fun _ => 1 |}.

Definition helpers : Helpers :=
  {| really_small := 1.0e-6;
     nucleon_mass := 0.938;
     hbarc := 0.197327053;
     fm2_mb := 0.1;
     pCM := fun _ _ _ => 1;
     pCM_from_s := fun _ _ _ => 1;
     cm_momentum := fun _ => 1;
     isospin_clebsch_gordan_sqr_2to2 := fun _ _ _ _ _ => 1;
     I_tot_range := fun _ _ => [0; 2]%Z;
     kplusn_ratios_get_ratio := fun _ _ _ _ => 1;
     std_pow := Rpower;
     std_exp := exp;
     std_sqrt := sqrt |}.

(** A random provider whose every draw is 0. *)
Definition random : Random := {| uniform_stream := fun _ => 0 |}.

(** A string generator with constant diffractive cross sections. *)
Definition strings : StringProcess :=
  {| cross_sections_diffractive := fun _ _ _ => (2, 2, 1) |}.

Definition at_rest (t : ParticleType) : ParticleData :=
  {| type := t; effective_mass := mass t |}.

Definition pair (a b : ParticleType) (sqrts : R) : cross_sections :=
  {| incoming_0 := at_rest a; incoming_1 := at_rest b; sqrt_s_ := sqrts |}.

Definition world0 : World := {| draws := 0; subproc := NoneSoft |}.

Definition only_elastic : ReactionsBitSet :=
  mkBits true false false false false false.

Definition no_reactions : ReactionsBitSet :=
  mkBits false false false false false false.

End Box.

(** ** Quantum numbers of a state *)

(** The charge and the baryon number of a list of particle types, and the
    two incoming types of a pair. *)
Definition total_charge (l : list ParticleType) : Z :=
  fold_right (fun t q => (charge t + q)%Z) 0%Z l.

Definition total_baryon_number (l : list ParticleType) : Z :=
  fold_right (fun t q => (baryon_number t + q)%Z) 0%Z l.

Definition incoming_types (self : cross_sections) : list ParticleType :=
  [type (incoming_0 self); type (incoming_1 self)].

(** ** The hadron gas equation of state (hadgas_eos.cc) *)

Module EosTable.

(** One node of the table: pressure, temperature and the two chemical
    potentials. *)
Record table_element : Type := mk_table_element {
  p : R;
  T : R;
  mub : R;
  mus : R
}.

(** The members of [EosTable]. *)
Record EosTable : Type := mkEosTable {
  de_ : R;
  dnb_ : R;
  n_e_ : Z;
  n_nb_ : Z;
  table_ : list table_element
}.

Section Get.

(** The member [index(ie, inb)] of the table, whose header is not among the
    sources: the position of a node in [table_]. *)
Variable index : Z -> Z -> nat.

(** One of the four bilinear interpolations of [get], between the values
    [s1], [s2], [s3], [s4] at the corners of the cell. *)
Definition interpolate (ae an s1 s2 s3 s4 : R) : R :=
  ae * (an * s4 + (1.0 - an) * s2) + (1.0 - ae) * (an * s3 + (1.0 - an) * s1).

(** [EosTable::get], returning the element it writes to [res].  Reading
    [table_] past its end, which the source leaves undefined, is [None]. *)
Definition get (self : EosTable) (e nb : R) : option table_element :=
  let ie := Zfloor (e / de_ self) in
  let inb := Zfloor (nb / dnb_ self) in
  if ((ie <? 0) || (ie >=? n_e_ self - 1)
      || (inb <? 0) || (inb >=? n_nb_ self - 1))%Z
  then Some (mk_table_element (-1.0) (-1.0) (-1.0) (-1.0))
  else
    let ae := e / de_ self - IZR ie in
    let an := nb / dnb_ self - IZR inb in
    match nth_error (table_ self) (index ie inb),
          nth_error (table_ self) (index (ie + 1) inb),
          nth_error (table_ self) (index ie (inb + 1)),
          nth_error (table_ self) (index (ie + 1) (inb + 1)) with
    | Some s1, Some s2, Some s3, Some s4 =>
        Some (mk_table_element
                (interpolate ae an (p s1) (p s2) (p s3) (p s4))
                (interpolate ae an (T s1) (T s2) (T s3) (T s4))
                (interpolate ae an (mub s1) (mub s2) (mub s3) (mub s4))
                (interpolate ae an (mus s1) (mus s2) (mus s3) (mus s4)))
    | _, _, _, _ => None
    end.

End Get.

End EosTable.

(** What the equation of state asks of its collaborators: the queries of
    [ParticleType] and [PdgCode] the kernel does not use, the scaled Bessel
    functions of the GSL, and the two constants of the class. *)
Class EosCollaborators : Type := {
  is_hadron : ParticleType -> bool;
  strangeness : ParticleType -> Z;
  charmness : PdgCode -> Z;
  gsl_sf_bessel_Kn_scaled : Z -> R -> R;
  gsl_sf_bessel_K1_scaled : R -> R;
  prefactor_ : R;
  tolerance_ : R
}.

Module HadronGasEos.

Section Densities.

Context {Reg : Registry} {Hlp : Helpers} {EC : EosCollaborators}.

Definition list_eos_particles : list ParticleType :=
  filter (fun ptype => is_hadron ptype && (charmness (pdgcode ptype) =? 0)%Z)
    list_all.

Definition scaled_partial_density (ptype : ParticleType) (beta mub mus : R)
    : R :=
  let z := mass ptype * beta in
  let x := beta * (IZR (baryon_number ptype) * mub +
                   IZR (strangeness ptype) * mus - mass ptype) in
  let g := u32_add (spin ptype) 1 in
  let x := if x <? -700.0 then 0.0 else std_exp x in
  if z <? really_small then 2.0 * IZR g * x
  else z * z * IZR g * x * gsl_sf_bessel_Kn_scaled 2 z.

Definition partial_density (ptype : ParticleType) (T mub mus : R) : R :=
  if T <? really_small then 0.0
  else prefactor_ * T * T * T * scaled_partial_density ptype (1.0 / T) mub mus.

Definition energy_density (T mub mus : R) : R :=
  if T <? really_small then 0.0
  else
    let beta := 1.0 / T in
    let e :=
      fold_left
        (fun e ptype =>
           let z := mass ptype * beta in
           let x := beta * (mub * IZR (baryon_number ptype) +
                            mus * IZR (strangeness ptype) - mass ptype) in
           let x := if x <? -700.0 then 0.0 else std_exp x in
           let g := u32_add (spin ptype) 1 in
           e + (if z <? really_small then 3.0 * IZR g * x
                else z * z * IZR g * x *
                     (3.0 * gsl_sf_bessel_Kn_scaled 2 z +
                      z * gsl_sf_bessel_K1_scaled z)))
        list_eos_particles 0.0 in
    e * (prefactor_ * T * T * T * T).

Definition density (T mub mus : R) : R :=
  if T <? really_small then 0.0
  else
    let beta := 1.0 / T in
    let rho :=
      fold_left
        (fun rho ptype => rho + scaled_partial_density ptype beta mub mus)
        list_eos_particles 0.0 in
    rho * (prefactor_ * T * T * T).

Definition net_baryon_density (T mub mus : R) : R :=
  if T <? really_small then 0.0
  else
    let beta := 1.0 / T in
    let rho :=
      fold_left
        (fun rho ptype =>
           if negb (is_baryon ptype) then rho
           else rho + scaled_partial_density ptype beta mub mus *
                      IZR (baryon_number ptype))
        list_eos_particles 0.0 in
    rho * (prefactor_ * T * T * T).

Definition net_strange_density (T mub mus : R) : R :=
  if T <? really_small then 0.0
  else
    let beta := 1.0 / T in
    let rho :=
      fold_left
        (fun rho ptype =>
           if (strangeness ptype =? 0)%Z then rho
           else rho + scaled_partial_density ptype beta mub mus *
                      IZR (strangeness ptype))
        list_eos_particles 0.0 in
    rho * (prefactor_ * T * T * T).

Definition max_iteration : nat := 30.

(** The [do ... while] of [mus_net_strangeness0]: one pass of the body, then
    the test of the loop.  [fuel] bounds the passes; the loop leaves before
    it runs out when [fuel + iteration >= max_iteration]. *)
Fixpoint mus_bisection (fuel : nat) (T mub mus_u mus_l : R) (iteration : nat)
    : R * nat :=
  let mus := 0.5 * (mus_u + mus_l) in
  let rhos := net_strange_density T mub mus in
  let mus_u := if rhos >? 0.0 then mus else mus_u in
  let mus_l := if rhos >? 0.0 then mus_l else mus in
  let iteration := S iteration in
  match fuel with
  | S fuel' =>
      if (Rabs rhos >? tolerance_) && (iteration <? max_iteration)%nat
      then mus_bisection fuel' T mub mus_u mus_l iteration
      else (mus, iteration)
  | O => (mus, iteration)
  end.

Definition mus_net_strangeness0 (T mub : R) : Res R :=
  let mus_u := mub + T in
  let mus_l := 0.0 in
  let '(mus, iteration) :=
    mus_bisection max_iteration T mub mus_u mus_l 0 in
  if (iteration =? max_iteration)%nat
  then Throw (runtime_error [Text "Solving rho_s = 0: too many iterations."])
  else Ok mus.

End Densities.

End HadronGasEos.

(** ** The grand-canonical thermalizer (grandcan_thermalizer.h) *)

(** The member of [GrandCanThermalizer] that [get_class] reads. *)
Record GrandCanThermalizer : Type := mkGrandCanThermalizer {
  eos_typelist_ : list ParticleType
}.

Section Thermalizer.

Context {EC : EosCollaborators}.

(** [get_class]; an index past the end of [eos_typelist_], which the source
    leaves undefined, is [None]. *)
Definition get_class (self : GrandCanThermalizer) (typelist_index : nat)
    : option Z :=
  match nth_error (eos_typelist_ self) typelist_index with
  | None => None
  | Some ptype =>
      let B := baryon_number ptype in
      let S := strangeness ptype in
      let ch := charge ptype in
      Some (if B >? 0 then 0
            else if B <? 0 then 1
            else if S >? 0 then 2
            else if S <? 0 then 3
            else if ch >? 0 then 4
            else if ch <? 0 then 5
            else 6)%Z
  end.

End Thermalizer.

(** ** The search for scatterings (scatteractionsfinder.cc) *)

Module Scatter.

(** A vector of three components, with the difference, the scalar product
    [a * b] and [sqr] the finder uses; the source documents the product as
    the one of "t_coll = - (x_a - x_b) . (p_a - p_b) / (p_a - p_b)^2". *)
Record ThreeVector : Type := mkThreeVector {
  x1 : R;
  x2 : R;
  x3 : R
}.

Definition minus (a b : ThreeVector) : ThreeVector :=
  mkThreeVector (x1 a - x1 b) (x2 a - x2 b) (x3 a - x3 b).

Definition opp (a : ThreeVector) : ThreeVector :=
  mkThreeVector (- x1 a) (- x2 a) (- x3 a).

Definition dot (a b : ThreeVector) : R :=
  x1 a * x1 b + x2 a * x2 b + x3 a * x3 b.

Definition sqr (a : ThreeVector) : R := dot a a.

Record FourVector : Type := mkFourVector {
  x0 : R;
  threevec : ThreeVector
}.

(** What the finder reads of a particle. *)
Record ParticleData : Type := mkParticleData {
  id : Z;
  id_process : Z;
  position : FourVector;
  velocity : ThreeVector;
  is_baryon : bool
}.

(** The members of [ScatterActionsFinder]. *)
Record ScatterActionsFinder : Type := mkScatterActionsFinder {
  dt_ : R;
  elastic_parameter_ : R
}.

(** The scatter actions of action.h, which is not among the sources: the
    three constructors, the cross sections the action computes, the
    accumulation of its processes, its weight and the transverse distance
    of its particles. *)
Class ScatterActions : Type := {
  ScatterAction : Type;
  ProcessBranch : Type;
  ScatterActionBaryonBaryon :
    ParticleData -> ParticleData -> R -> ScatterAction;
  ScatterActionBaryonMeson :
    ParticleData -> ParticleData -> R -> ScatterAction;
  ScatterActionMesonMeson :
    ParticleData -> ParticleData -> R -> ScatterAction;
  elastic_cross_section : ScatterAction -> R -> ProcessBranch;
  resonance_cross_sections : ScatterAction -> list ProcessBranch;
  two_to_two_cross_sections : ScatterAction -> list ProcessBranch;
  add_process : ScatterAction -> ProcessBranch -> ScatterAction;
  add_processes : ScatterAction -> list ProcessBranch -> ScatterAction;
  weight : ScatterAction -> R;
  particle_distance : ScatterAction -> R
}.

Section Finder.

Context {Hlp : Helpers} {Act : ScatterActions}.

Definition collision_time (p1 p2 : ParticleData) : R :=
  let pos_diff := minus (threevec (position p1)) (threevec (position p2)) in
  let velo_diff := minus (velocity p1) (velocity p2) in
  if Rabs (sqr velo_diff) <? really_small then -1.0
  else dot (opp pos_diff) velo_diff / sqr velo_diff.

(** [check_collision]: [None] is the null pointer. *)
Definition check_collision (self : ScatterActionsFinder)
    (data_a data_b : ParticleData) : option ScatterAction :=
  if ((id_process data_a >=? 0) && (id_process data_a =? id_process data_b))%Z
  then None
  else
    let time_until_collision := collision_time data_a data_b in
    if (time_until_collision <? 0) || (time_until_collision >=? dt_ self)
    then None
    else
      let act :=
        if is_baryon data_a && is_baryon data_b
        then ScatterActionBaryonBaryon data_a data_b time_until_collision
        else if is_baryon data_a || is_baryon data_b
        then ScatterActionBaryonMeson data_a data_b time_until_collision
        else ScatterActionMesonMeson data_a data_b time_until_collision in
      let act :=
        add_process act (elastic_cross_section act (elastic_parameter_ self)) in
      let act := add_processes act (resonance_cross_sections act) in
      let act := add_processes act (two_to_two_cross_sections act) in
      let distance_squared := particle_distance act in
      if distance_squared >=? weight act * fm2_mb * (1 / PI) then None
      else Some act.

(** [find_possible_actions], over [particles.data()]. *)
Definition find_possible_actions (self : ScatterActionsFinder)
    (particles : list ParticleData) : list ScatterAction :=
  fold_left
    (fun actions p1 =>
       fold_left
         (fun actions p2 =>
            if (id p1 >=? id p2)%Z then actions
            else
              match check_collision self p1 p2 with
              | Some act => actions ++ [act]
              | None => actions
              end)
         particles actions)
    particles [].

End Finder.

End Scatter.

(** ** The decay of a resonance (resonances.cc) *)

(** The choice of the decay channel in [resonance_decay]: the codes of the
    two products, from the doubled spin, the charge and the code of the
    resonance and its energy.  [type_mass k] is the mass that
    [particles->type(k)] reports for the integer [k]; [(0, 0)] is the
    initial value of [type_a] and [type_b]. *)
Definition resonance_decay_channel (spin charge pdgcode : Z)
    (total_energy : R) (type_mass : Z -> R) : Z * Z :=
  if (Z.rem spin 2 =? 0)%Z then
    if (charge =? 0)%Z then (211, -211)%Z
    else if (charge =? 1)%Z then (211, 111)%Z
    else if (charge =? -1)%Z then (-211, 111)%Z
    else (0, 0)%Z
  else if (pdgcode >? 0)%Z then
    if (charge =? 0)%Z then
      if type_mass 2212%Z + type_mass (-211)%Z >? total_energy
      then (2112, 111)%Z else (2212, -211)%Z
    else if (charge =? 1)%Z then
      if type_mass 2112%Z + type_mass 211%Z >? total_energy
      then (2212, 111)%Z else (2112, 211)%Z
    else if (charge =? -1)%Z then (2112, -211)%Z
    else if (charge =? 2)%Z then (2212, 211)%Z
    else (0, 0)%Z
  else
    if (charge =? 0)%Z then
      if type_mass (-2212)%Z + type_mass 211%Z >? total_energy
      then (-2112, 111)%Z else (-2212, 211)%Z
    else if (charge =? 1)%Z then (-2112, 211)%Z
    else if (charge =? -1)%Z then
      if type_mass (-2112)%Z + type_mass (-211)%Z >? total_energy
      then (-2212, 111)%Z else (-2112, -211)%Z
    else if (charge =? -2)%Z then (-2212, -211)%Z
    else (0, 0)%Z.

(** The momenta of the two products in [resonance_decay]: the energy of the
    first, the radial momentum and the three components handed to
    [set_momentum] for the first product; the second gets the opposite
    components.  [u_phi] and [u_cos] are the two values of [drand48()]. *)
Record DecayMomentum : Type := mkDecayMomentum {
  energy_a : R;
  momentum_radial : R;
  momentum_x : R;
  momentum_y : R;
  momentum_z : R
}.

Definition resonance_decay_momentum (total_energy mass_a mass_b : R)
    (u_phi u_cos : R) : DecayMomentum :=
  let energy_a :=
    (total_energy * total_energy + mass_a * mass_a - mass_b * mass_b)
    / (2.0 * total_energy) in
  let momentum_radial := sqrt (energy_a * energy_a - mass_a * mass_a) in
  let phi := 2.0 * PI * u_phi in
  let cos_theta := -1.0 + 2.0 * u_cos in
  let sin_theta := sqrt (1.0 - cos_theta * cos_theta) in
  mkDecayMomentum energy_a momentum_radial
    (momentum_radial * cos phi * sin_theta)
    (momentum_radial * sin phi * sin_theta)
    (momentum_radial * cos_theta).

(** ** A small gas, a pair of moving particles and a decay, to run the
    other modules on *)

Module Gas.

(** Every species of the small table is a hadron without strangeness or
    charm; the Bessel functions are constant stand-ins. *)
Definition eos : EosCollaborators :=
  {| is_hadron := fun _ => true;
     strangeness := fun _ => 0%Z;
     charmness := fun _ => 0%Z;
     gsl_sf_bessel_Kn_scaled := fun _ _ => 1;
     gsl_sf_bessel_K1_scaled := fun _ => 1;
     prefactor_ := 1;
     tolerance_ := 1.0e-8 |}.

(** A table of 3 x 3 nodes, stored row by row. *)
Definition index (ie inb : Z) : nat := Z.to_nat (ie * 3 + inb).

Definition node (x : R) : EosTable.table_element :=
  EosTable.mk_table_element x x 0 0.

Definition table : EosTable.EosTable :=
  EosTable.mkEosTable 1 1 3 3
    [node 0; node 1; node 2; node 1; node 2; node 3; node 2; node 3; node 4].

Definition thermalizer : GrandCanThermalizer :=
  mkGrandCanThermalizer [Box.proton; Box.antiproton].

(** The registry of [Box] with a rho0 that two pions can form: its partial
    width into a pair and its spectral function are positive, those of
    every other type are 0. *)
Definition registry_with_rho : Registry :=
  {| list_all := Box.all_types;
     list_nucleons := [Box.proton; Box.neutron];
     list_anti_nucleons := [Box.antiproton; Box.antineutron];
     list_Deltas := [];
     list_anti_Deltas := [];
     list_baryon_resonances := [Box.Nstar_1535_plus];
     list_light_nuclei := [Box.deuteron; Box.dprime];
     try_find := Box.lookup;
     get_antiparticle :=
       fun t =>
         match Box.lookup (- pdgcode t)%Z with Some a => a | None => t end;
     get_partial_in_width :=
       fun t _ _ _ =>
         if (pdgcode t =? pdgcode Box.rho_zero)%Z then 0.149 else 0;
     spectral_function :=
       fun t _ => if (pdgcode t =? pdgcode Box.rho_zero)%Z then 1 else 0;
     get_integral_NR := fun _ _ => 1;
     get_integral_RR := fun _ _ _ => 1;
     get_integral_RK := fun _ _ => 1;
     get_integral_piR := fun _ _ => 1 |}.

(** Two particles on the first axis that approach each other. *)
Definition left_particle : Scatter.ParticleData :=
  Scatter.mkParticleData 1 (-1)
    (Scatter.mkFourVector 0 (Scatter.mkThreeVector (-1) 0 0))
    (Scatter.mkThreeVector 0.5 0 0) true.

Definition right_particle : Scatter.ParticleData :=
  Scatter.mkParticleData 2 (-1)
    (Scatter.mkFourVector 0 (Scatter.mkThreeVector 1 0 0))
    (Scatter.mkThreeVector (-0.5) 0 0) true.

(** Actions that record the pair and the time, with a constant weight. *)
Definition actions : Scatter.ScatterActions :=
  {| Scatter.ScatterAction := (Scatter.ParticleData * Scatter.ParticleData * R);
     Scatter.ProcessBranch := R;
     Scatter.ScatterActionBaryonBaryon := fun a b t => (a, b, t);
     Scatter.ScatterActionBaryonMeson := fun a b t => (a, b, t);
     Scatter.ScatterActionMesonMeson := fun a b t => (a, b, t);
     Scatter.elastic_cross_section := fun _ elastic_parameter => elastic_parameter;
     Scatter.resonance_cross_sections := fun _ => [];
     Scatter.two_to_two_cross_sections := fun _ => [];
     Scatter.add_process := fun act _ => act;
     Scatter.add_processes := fun act _ => act;
     Scatter.weight := fun _ => 100;
     Scatter.particle_distance := fun _ => 0 |}.

Definition finder : Scatter.ScatterActionsFinder :=
  Scatter.mkScatterActionsFinder 5 10.

(** The charges of the pions and nucleons by their decimal codes. *)
Definition charge_of (code : Z) : Z :=
  if ((code =? 211) || (code =? 2212))%Z then 1%Z
  else if ((code =? -211) || (code =? -2212))%Z then (-1)%Z
  else 0%Z.

End Gas.

(** * Properties *)

(** ** Comparisons *)

Lemma Rltb_true (x y : R) : x < y -> (x <? y) = true.
Proof. intros H. unfold Rltb. destruct (Rlt_dec x y); [reflexivity | contradiction]. Qed.

Lemma Rltb_false (x y : R) : y <= x -> (x <? y) = false.
Proof. intros H. unfold Rltb. destruct (Rlt_dec x y); [lra | reflexivity]. Qed.

Lemma Rleb_true (x y : R) : x <= y -> (x <=? y) = true.
Proof. intros H. unfold Rleb. destruct (Rle_dec x y); [reflexivity | contradiction]. Qed.

Lemma Rleb_false (x y : R) : y < x -> (x <=? y) = false.
Proof. intros H. unfold Rleb. destruct (Rle_dec x y); [lra | reflexivity]. Qed.

Lemma Rltb_spec (x y : R) : reflect (x < y) (x <? y).
Proof.
  unfold Rltb. destruct (Rlt_dec x y); constructor; assumption.
Qed.

Lemma Rleb_spec (x y : R) : reflect (x <= y) (x <=? y).
Proof.
  unfold Rleb. destruct (Rle_dec x y); constructor; assumption.
Qed.

(** Settle every comparison of concrete reals in the goal. *)
Ltac settle_R :=
  repeat match goal with
  | |- context [Rltb ?a ?b] =>
      first [ rewrite (Rltb_true a b) by lra
            | rewrite (Rltb_false a b) by lra ]
  | |- context [Rleb ?a ?b] =>
      first [ rewrite (Rleb_true a b) by lra
            | rewrite (Rleb_false a b) by lra ]
  end.

(** ** Unsigned products of small spins do not wrap *)

Lemma u32_small (z : Z) : (0 <= z < 2 ^ 32)%Z -> u32 z = z.
Proof. intros H. unfold u32. apply Z.mod_small. exact H. Qed.

Lemma spin_product (x y : ParticleType) :
  spin_in_range x -> spin_in_range y ->
  IZR (u32_mul (u32_add (spin x) 1) (u32_add (spin y) 1)) = g x * g y.
Proof.
  unfold spin_in_range, u32_mul, u32_add, g. intros Hx Hy.
  rewrite (u32_small (spin x + 1)) by lia.
  rewrite (u32_small (spin y + 1)) by lia.
  rewrite u32_small by nia.
  rewrite mult_IZR, !plus_IZR. reflexivity.
Qed.

Lemma symmetry_count (a b : ParticleType) :
  IZR (1 + Z.b2z (type_eqb a b)) = 1 + delta a b.
Proof.
  unfold delta. rewrite plus_IZR. destruct (type_eqb a b); reflexivity.
Qed.

(** ** C9: the Breit-Wigner profile *)

(** C9.  For every invariant mass [srts], pole mass M and width Gamma,
    [breit_wigner] returns (2 s Gamma) / (pi ((s - M^2)^2 + s Gamma^2)),
    where s = srts * srts is the squared invariant mass at which the
    amplitude is evaluated. *)
Theorem breit_wigner_profile (srts M Gamma : R) :
  breit_wigner srts M Gamma =
  (2 * (srts * srts) * Gamma) /
  (PI * (((srts * srts) - M ^ 2) ^ 2 + (srts * srts) * Gamma ^ 2)).
Proof.
  unfold breit_wigner. cbv zeta. unfold Rdiv.
  f_equal. f_equal. f_equal. ring.
Qed.


(** ** C7: detailed balance for stable particles *)

(** C7.  [detailed_balance_factor_stable s A B C D] is the product of the
    spin factor g(C) g(D) / (g(A) g(B)) with g(x) = 2 J_x + 1, the symmetry
    factor (1 + delta(A,B)) / (1 + delta(C,D)) and the momentum factor
    pCM^2(s, m_C, m_D) / pCM^2(s, m_A, m_B), for particle types whose 2J
    fits the unsigned arithmetic of the spin products. *)
Theorem detailed_balance_factor_stable_product (s : R) (a b c d : ParticleType) :
  spin_in_range a -> spin_in_range b ->
  spin_in_range c -> spin_in_range d ->
  detailed_balance_factor_stable s a b c d =
  (g c * g d / (g a * g b)) *
  ((1 + delta a b) / (1 + delta c d)) *
  (pCM_sqr_from_s s (mass c) (mass d) / pCM_sqr_from_s s (mass a) (mass b)).
Proof.
  intros Ha Hb Hc Hd. unfold detailed_balance_factor_stable. cbv zeta.
  rewrite (spin_product c d Hc Hd), (spin_product a b Ha Hb).
  rewrite !symmetry_count. reflexivity.
Qed.

(** ** C5: the N N -> X matrix element *)

Section MatrixElement.

Context {PM : Pdg.Methods} {Hlp : Helpers}.

Lemma msqr_code (a b : ParticleType) :
  2 * (mass a * mass a + mass b * mass b) = msqr a b.
Proof. unfold msqr. ring. Qed.

Lemma d_pi_fit (sqrts : R) :
  0.055 / ((sqrts - 2.145) ^ 2 + 0.065 ^ 2) *
  (1.0 - std_exp (- (sqrts - 2.0) * 20.0)) =
  0.055 / ((sqrts - 2.145) ^ 2 + 0.065 ^ 2) *
  (1 - std_exp (- 20 * (sqrts - 2))).
Proof.
  replace 1.0 with 1 by lra.
  replace (- (sqrts - 2.0) * 20.0) with (- 20 * (sqrts - 2)) by lra.
  reflexivity.
Qed.

(** C5, as the code has it.  [nn_to_resonance_matrix_element] returns 0
    above the cutoff m_a + m_b + 3 (Gamma_a + Gamma_b) + 3 and otherwise the
    value of the table, in which the N N* row at 2I = 2 is 7 / msqr for
    every N*, the N*(1535) included; final states and isospins that are not
    listed give 0. *)
Theorem nn_to_resonance_matrix_element_table
    (sqrts : R) (a b : ParticleType) (twoI : Z) :
  nn_to_resonance_matrix_element sqrts a b twoI =
  matrix_element_amended sqrts a b twoI.
Proof.
  unfold nn_to_resonance_matrix_element, matrix_element_amended,
    matrix_element_table, final_state, nstar_row_amended, by_isospin, uplmt,
    pow_int.
  cbv zeta. rewrite !msqr_code.
  replace (mass a + mass b + 3.0 * (width_at_pole a + width_at_pole b) + 3.0)
    with (mass a + mass b + 3 * (width_at_pole a + width_at_pole b) + 3)
    by lra.
  destruct (Rltb _ sqrts); [reflexivity |].
  destruct (antiparticle_sign a =? antiparticle_sign b)%Z;
    destruct (is_Delta a), (is_Delta b), (is_nucleon a), (is_nucleon b),
      (is_Nstar a), (is_Nstar b), (is_Deltastar a), (is_Deltastar b);
    cbn [andb orb];
    try reflexivity;
    repeat match goal with
    | |- context [if ?c then _ else _] => destruct c; cbn [andb orb]
    end;
    try reflexivity;
    try (unfold Rdiv; ring);
    try apply d_pi_fit.
Qed.

End MatrixElement.

(** ** Switches *)

Lemma switch_default {A} (x : Z) (cases : list (Z * A)) (d : A) :
  Forall (fun c => snd c = d) cases -> switch x cases d = d.
Proof.
  induction 1 as [| [lab body] rest Hhd _ IH]; cbn.
  - reflexivity.
  - cbn in Hhd. destruct (x =? lab)%Z; [exact Hhd | exact IH].
Qed.

Lemma switch2_default {A} (x y : Z) (cases : list (Z * Z * A)) (d : A) :
  Forall (fun c => snd c = d) cases -> switch2 x y cases d = d.
Proof.
  induction 1 as [| [[lx ly] body] rest Hhd _ IH]; cbn.
  - reflexivity.
  - cbn in Hhd. destruct ((x =? lx) && (y =? ly))%Z; [exact Hhd | exact IH].
Qed.

(** A property of every case body and of the default holds of the switch. *)
Lemma switch_ind {A} (P : A -> Prop) (x : Z) (cases : list (Z * A)) (d : A) :
  Forall (fun c => P (snd c)) cases -> P d -> P (switch x cases d).
Proof.
  intros Hc Hd. induction Hc as [| [lab body] rest Hhd _ IH]; cbn.
  - exact Hd.
  - destruct (x =? lab)%Z; [exact Hhd | exact IH].
Qed.

Lemma switch2_ind {A} (P : A -> Prop) (x y : Z) (cases : list (Z * Z * A))
    (d : A) :
  Forall (fun c => P (snd c)) cases -> P d -> P (switch2 x y cases d).
Proof.
  intros Hc Hd. induction Hc as [| [[lx ly] body] rest Hhd _ IH]; cbn.
  - exact Hd.
  - destruct ((x =? lx) && (y =? ly))%Z; [exact Hhd | exact IH].
Qed.

Ltac each_case tac :=
  repeat (apply Forall_cons; [cbn [snd]; tac |]); try apply Forall_nil.

Section Routines.

Context {K : pdg.Constants} {PM : Pdg.Methods} {Reg : Registry}
        {Par : Parametrizations} {Hlp : Helpers} {Rnd : Random}.

(** ** C10: rho h1(1170) -> N Nbar *)

(** C10.  With p and pbar in the registry, [NNbar_creation] returns an
    empty list when sqrt_s is below twice the proton pole mass; otherwise
    (n and nbar being in the registry as well) it returns exactly the two
    TwoToTwo branches (p, pbar) and (n, nbar), both with the weight
    R_RR(sqrt_s, pcm, incoming pair, p, pbar) * max(0, ppbar_total(s) -
    ppbar_elastic(s)), whatever that weight is. *)
Theorem NNbar_creation_branches (self : cross_sections)
    (type_N type_Nbar : ParticleType) :
  find pdg.p = Ok type_N ->
  find (- pdg.p)%Z = Ok type_Nbar ->
  let s := sqrt_s_ self * sqrt_s_ self in
  let xsection :=
    detailed_balance_factor_RR (sqrt_s_ self) (cm_momentum self)
      (type (incoming_0 self)) (type (incoming_1 self)) type_N type_Nbar *
    Rmax 0 (ppbar_total s - ppbar_elastic s) in
  (sqrt_s_ self < 2 * mass type_N -> NNbar_creation self = Ok [])
  /\ (2 * mass type_N <= sqrt_s_ self ->
      forall type_n type_nbar,
        find pdg.n = Ok type_n ->
        find (- pdg.n)%Z = Ok type_nbar ->
        NNbar_creation self =
        Ok [branch2 type_N type_Nbar xsection TwoToTwo;
            branch2 type_n type_nbar xsection TwoToTwo]).
Proof.
  intros HN HNbar s xsection. unfold NNbar_creation.
  rewrite HN, HNbar. cbn [Res_bind]. split.
  - intros Hlow. rewrite Rltb_true by lra. reflexivity.
  - intros Hhigh type_n type_nbar Hn Hnbar.
    rewrite Rltb_false by lra. rewrite Hn, Hnbar. reflexivity.
Qed.

(** ** C6: the raise rule of the elastic parametrizations *)

(** The error text carries both names, both 2J values, the cross section
    and s. *)
Lemma problem_in_elastic_carries (self : cross_sections) (sig_el s : R) :
  exists what,
    problem_in_elastic self sig_el s = runtime_error what
    /\ In (Text (name (type (incoming_0 self)))) what
    /\ In (Text (name (type (incoming_1 self)))) what
    /\ In (Int (Pdg.spin (pdgcode (type (incoming_0 self))))) what
    /\ In (Int (Pdg.spin (pdgcode (type (incoming_1 self))))) what
    /\ In (Dbl sig_el) what
    /\ In (Dbl s) what.
Proof.
  eexists. split; [reflexivity |]. cbn. intuition.
Qed.

(** With a nucleon code among p, n, pbar, nbar the nucleon-pion table has
    an entry (0 when the other code is no pion). *)
Lemma npi_sig_el_defined (self : cross_sections) :
  let pdg_a := pdgcode (type (incoming_0 self)) in
  let pdg_b := pdgcode (type (incoming_1 self)) in
  let nucleon := if Pdg.is_nucleon pdg_a then pdg_a else pdg_b in
  In nucleon [pdg.p; pdg.n; (- pdg.p)%Z; (- pdg.n)%Z] ->
  exists sig_el, npi_sig_el self = Ok sig_el.
Proof.
  intros pdg_a pdg_b nucleon Hin. unfold npi_sig_el.
  fold pdg_a pdg_b. fold nucleon. cbv zeta. cbn [switch].
  repeat match goal with
  | |- context [(nucleon =? ?c)%Z] =>
      destruct (Z.eqb_spec nucleon c); [eexists; reflexivity |]
  end.
  cbn in Hin. intuition congruence.
Qed.

(** C6.  [nn_el] selects pp_elastic for equal PDG codes, ppbar_elastic
    when one code is the antiparticle of the other and np_elastic
    otherwise; it returns the selected value when it is positive and
    throws, with a text that carries both names, both 2J, the value and s,
    exactly when it is not.  [npi_el] treats the entry of the nucleon-pion
    table by the same rule. *)
Theorem elastic_raise_iff_non_positive (self : cross_sections) :
  let pdg_a := pdgcode (type (incoming_0 self)) in
  let pdg_b := pdgcode (type (incoming_1 self)) in
  let s := sqrt_s_ self * sqrt_s_ self in
  (nn_sig_el self =
     if (pdg_a =? pdg_b)%Z then pp_elastic s
     else if Pdg.is_antiparticle_of pdg_a pdg_b then ppbar_elastic s
     else np_elastic s)
  /\ (nn_sig_el self > 0 -> nn_el self = Ok (nn_sig_el self))
  /\ (nn_sig_el self <= 0 ->
      nn_el self = Throw (problem_in_elastic self (nn_sig_el self) s))
  /\ (forall sig_el, npi_sig_el self = Ok sig_el ->
      (sig_el > 0 -> npi_el self = Ok sig_el)
      /\ (sig_el <= 0 ->
          npi_el self = Throw (problem_in_elastic self sig_el s)))
  /\ (forall sig_el, exists what,
        problem_in_elastic self sig_el s = runtime_error what
        /\ In (Text (name (type (incoming_0 self)))) what
        /\ In (Text (name (type (incoming_1 self)))) what
        /\ In (Int (Pdg.spin pdg_a)) what
        /\ In (Int (Pdg.spin pdg_b)) what
        /\ In (Dbl sig_el) what
        /\ In (Dbl s) what).
Proof.
  intros pdg_a pdg_b s. repeat split.
  - intros Hpos. unfold nn_el. cbv zeta. rewrite Rltb_true by lra.
    reflexivity.
  - intros Hneg. unfold nn_el. cbv zeta. rewrite Rltb_false by lra.
    reflexivity.
  - intros Hpos. unfold npi_el. cbv zeta. rewrite H. cbn [Res_bind].
    rewrite Rltb_true by lra. reflexivity.
  - intros Hneg. unfold npi_el. cbv zeta. rewrite H. cbn [Res_bind].
    rewrite Rltb_false by lra. reflexivity.
  - intros sig_el. apply problem_in_elastic_carries.
Qed.

(** ** C8: the nucleus routines and the policy bitset *)

Lemma nk_xx_without_bits (self : cross_sections) (e nr dr : bool) :
  nk_xx self (mkBits e nr dr false false false) = Ok [].
Proof.
  unfold nk_xx. cbv zeta. cbn [test].
  apply switch_default.
  each_case ltac:(apply switch_default; each_case reflexivity).
Qed.

Lemma ypi_xx_without_bit (self : cross_sections) (e nr dr kn kd : bool) :
  ypi_xx self (mkBits e nr dr kn kd false) = Ok [].
Proof. reflexivity. Qed.

Lemma deltak_xx_without_bit (self : cross_sections) (e nr dr kn se : bool) :
  deltak_xx self (mkBits e nr dr kn false se) = Ok [].
Proof. reflexivity. Qed.

Lemma bb_xx_except_nn_without_bits (self : cross_sections)
    (e kn kd se : bool) :
  bb_xx_except_nn self (mkBits e false false kn kd se) = [].
Proof.
  unfold bb_xx_except_nn. cbv zeta.
  change (test (mkBits e false false kn kd se) NN_to_NR) with false.
  change (test (mkBits e false false kn kd se) NN_to_DR) with false.
  repeat match goal with
  | |- context [if ?c then _ else _] => destruct c
  end; reflexivity.
Qed.

(** C8.  The lists of [dpi_xx] and of [dn_xx] are the same for any two
    values of the policy bitset; the routines for nucleon-kaon,
    hyperon-pion, Delta-kaon and baryon-baryon pairs read it: with their
    flags off they return no channel. *)
Theorem nucleus_routines_ignore_bitset (self : cross_sections) :
  (forall b1 b2 : ReactionsBitSet, dpi_xx self b1 = dpi_xx self b2)
  /\ (forall b1 b2 : ReactionsBitSet, dn_xx self b1 = dn_xx self b2)
  /\ (forall e nr dr, nk_xx self (mkBits e nr dr false false false) = Ok [])
  /\ (forall e nr dr kn kd,
        ypi_xx self (mkBits e nr dr kn kd false) = Ok [])
  /\ (forall e nr dr kn se,
        deltak_xx self (mkBits e nr dr kn false se) = Ok [])
  /\ (forall e kn kd se,
        bb_xx_except_nn self (mkBits e false false kn kd se) = []).
Proof.
  refine (conj _ (conj _ (conj _ (conj _ (conj _ _))))); intros.
  - reflexivity.
  - reflexivity.
  - apply nk_xx_without_bits.
  - apply ypi_xx_without_bit.
  - apply deltak_xx_without_bit.
  - apply bb_xx_except_nn_without_bits.
Qed.

End Routines.

(** ** Running the monads *)

Lemma Res_bind_Ok {A B} (c : Res A) (k : A -> Res B) (b : B) :
  Res_bind c k = Ok b -> exists a, c = Ok a /\ k a = Ok b.
Proof.
  destruct c as [a | e]; cbn; intros H; [eauto | discriminate].
Qed.

Lemma M_bind_Ok {A B} (c : M A) (k : A -> M B) (w : World) (r : B * World) :
  M_bind c k w = Ok r -> exists a w1, c w = Ok (a, w1) /\ k a w1 = Ok r.
Proof.
  unfold M_bind. destruct (c w) as [[a w1] | e]; intros H;
    [eauto | discriminate].
Qed.

Lemma M_bind_run {A B} (c : M A) (k : A -> M B) (w w1 : World) (a : A) :
  c w = Ok (a, w1) -> M_bind c k w = k a w1.
Proof. intros H. unfold M_bind. rewrite H. reflexivity. Qed.

Lemma lift_Ok {A} (c : Res A) (w w' : World) (a : A) :
  lift c w = Ok (a, w') -> c = Ok a /\ w' = w.
Proof.
  unfold lift. destruct c; intros H; inversion H; auto.
Qed.

Lemma M_ret_Ok {A} (a b : A) (w w' : World) :
  M_ret a w = Ok (b, w') -> b = a /\ w' = w.
Proof. unfold M_ret. intros H. inversion H. auto. Qed.

(** Invert one step of a successful run. *)
Ltac run_step :=
  match goal with
  | H : M_bind _ _ _ = Ok _ |- _ =>
      apply M_bind_Ok in H; destruct H as (? & ? & ? & H)
  | H : lift _ _ = Ok (_, _) |- _ =>
      apply lift_Ok in H; destruct H as [H ?]; subst
  | H : M_ret _ _ = Ok (_, _) |- _ =>
      apply M_ret_Ok in H; destruct H as [? ?]; subst
  | H : Res_bind _ _ = Ok _ |- _ =>
      apply Res_bind_Ok in H; destruct H as (? & ? & H)
  | H : Ok _ = Ok _ |- _ => inversion H; subst; clear H
  | H : Throw _ = Ok _ |- _ => discriminate H
  | H : lift (Throw _) _ = Ok _ |- _ => discriminate H
  end.

(** ** C4: the string budget *)

Section StringBudget.

Context {K : pdg.Constants} {PM : Pdg.Methods} {Reg : Registry}
        {Par : Parametrizations} {Hlp : Helpers} {Rnd : Random}.

(** The four partial cross sections add up to the total. *)
Lemma string_budget_total (S AX XB DD hard : R) :
  AX + XB <> 0 ->
  let b := string_budget S (AX, XB, DD) hard in
  single_diffr_AX b + single_diffr_XB b + double_diffr b +
  nondiffractive_all b = S.
Proof.
  intros Hsingle. cbn.
  set (nd := Rmax 0 (S - (AX + XB + DD))).
  set (dd := Rmax 0 (S - nd - (AX + XB))).
  field. exact Hsingle.
Qed.

(** The steps of the budget arithmetic, one by one. *)
Lemma string_budget_steps (S AX XB DD hard : R) :
  let b := string_budget S (AX, XB, DD) hard in
  let diffractive := S - nondiffractive_all b in
  let a := (diffractive - double_diffr b) / (AX + XB) in
  nondiffractive_all b = Rmax 0 (S - (AX + XB + DD))
  /\ double_diffr b = Rmax 0 (diffractive - (AX + XB))
  /\ single_diffr_AX b = AX * a
  /\ single_diffr_XB b = XB * a
  /\ nondiffractive_soft b =
     nondiffractive_all b * std_exp (- hard / nondiffractive_all b)
  /\ nondiffractive_hard b = nondiffractive_all b - nondiffractive_soft b
  /\ sig_string_soft b = S - nondiffractive_hard b.
Proof. cbn. repeat split. Qed.

(** The string cross section when the pair is above the elastic value:
    what [string_excitation] returns once the generator is there and the
    draw lands in one of the four soft buckets. *)
Lemma string_excitation_runs (self : cross_sections) (gen : StringProcess)
    (w : World) (el : R) :
  elastic_parametrization self = Ok el ->
  let S := Rmax 0 (high_energy self - el) in
  let xs :=
    cross_sections_diffractive gen
      (pdgid_for_strings (type (incoming_0 self)))
      (pdgid_for_strings (type (incoming_1 self))) (sqrt_s_ self) in
  let b := string_budget S xs (string_hard_cross_section self) in
  let sums :=
    sub_cross_sections_sum 0
      [single_diffr_AX b; single_diffr_XB b; double_diffr b;
       nondiffractive_soft b; nondiffractive_hard b] in
  let iproc :=
    select_soft_subprocess 0 4 sums
      (nth 4 sums 0 * uniform_stream (draws w)) in
  S > 0 ->
  iproc <> NoneSoft ->
  string_excitation self (Some gen) w =
  Ok ((if sig_string_soft b >? 0
       then [branch0 (sig_string_soft b) StringSoft] else []) ++
      (if nondiffractive_hard b >? 0
       then [branch0 (nondiffractive_hard b) StringHard] else []),
      mkWorld (Datatypes.S (draws w)) iproc).
Proof.
  intros Hel S xs b sums iproc HS Hproc.
  unfold string_excitation, M_bind. rewrite Hel. cbn [lift].
  fold S. rewrite Rltb_true by exact HS.
  fold xs. fold b. fold sums. unfold Random_uniform01. cbn [draws subproc].
  fold iproc.
  destruct iproc eqn:E; try congruence;
    unfold set_subproc, M_ret; cbn [draws];
    destruct (sig_string_soft b >? 0), (nondiffractive_hard b >? 0);
    reflexivity.
Qed.

(** What a successful run of [string_excitation] went through. *)
Lemma string_excitation_inversion (self : cross_sections)
    (string_process : option StringProcess) (w w' : World)
    (l : CollisionBranchList) :
  string_excitation self string_process w = Ok (l, w') ->
  exists el,
    elastic_parametrization self = Ok el
    /\ let S := Rmax 0 (high_energy self - el) in
       (S <= 0 -> l = [])
       /\ (S > 0 ->
           exists gen,
             string_process = Some gen
             /\ let b :=
                  string_budget S
                    (cross_sections_diffractive gen
                       (pdgid_for_strings (type (incoming_0 self)))
                       (pdgid_for_strings (type (incoming_1 self)))
                       (sqrt_s_ self))
                    (string_hard_cross_section self) in
                l =
                (if sig_string_soft b >? 0
                 then [branch0 (sig_string_soft b) StringSoft] else []) ++
                (if nondiffractive_hard b >? 0
                 then [branch0 (nondiffractive_hard b) StringHard]
                 else [])).
Proof.
  intros Hrun. unfold string_excitation in Hrun.
  repeat run_step. rename x into el. exists el. split; [assumption |].
  cbv zeta. split.
  - intros HS. rewrite Rltb_false in Hrun by lra. run_step. reflexivity.
  - intros HS. rewrite Rltb_true in Hrun by lra.
    destruct string_process as [gen |]; [| discriminate Hrun].
    exists gen. split; [reflexivity |].
    run_step.
    destruct (select_soft_subprocess _ _ _ _); try discriminate Hrun;
      unfold set_subproc, M_bind, M_ret in Hrun;
      repeat match type of Hrun with
      | context [if ?c then _ else _] => destruct c
      end;
      inversion Hrun; reflexivity.
Qed.

(** C4.  When [string_excitation] returns a list, the elastic
    parametrization gave a value el and, with S = max(0, high_energy -
    el): for S <= 0 the list is empty; for S > 0 the generator was given,
    the budget arithmetic is the one of the four steps, the rescaled
    AX + XB + DD + nondiff_all equals S (the generator's AX + XB not being
    0), and the list is the StringSoft branch of weight S - nondiff_hard
    followed by the StringHard branch of weight nondiff_hard, each left
    out when its weight is not positive. *)
Theorem string_excitation_budget (self : cross_sections)
    (string_process : option StringProcess) (w w' : World)
    (l : CollisionBranchList) :
  string_excitation self string_process w = Ok (l, w') ->
  exists el,
    elastic_parametrization self = Ok el
    /\ let S := Rmax 0 (high_energy self - el) in
       (S <= 0 -> l = [])
       /\ (S > 0 ->
           exists gen AX XB DD,
             string_process = Some gen
             /\ cross_sections_diffractive gen
                  (pdgid_for_strings (type (incoming_0 self)))
                  (pdgid_for_strings (type (incoming_1 self)))
                  (sqrt_s_ self) = (AX, XB, DD)
             /\ let b :=
                  string_budget S (AX, XB, DD)
                    (string_hard_cross_section self) in
                let diffractive := S - nondiffractive_all b in
                nondiffractive_all b = Rmax 0 (S - (AX + XB + DD))
                /\ double_diffr b = Rmax 0 (diffractive - (AX + XB))
                /\ single_diffr_AX b =
                   AX * ((diffractive - double_diffr b) / (AX + XB))
                /\ single_diffr_XB b =
                   XB * ((diffractive - double_diffr b) / (AX + XB))
                /\ (AX + XB <> 0 ->
                    single_diffr_AX b + single_diffr_XB b + double_diffr b +
                    nondiffractive_all b = S)
                /\ sig_string_soft b = S - nondiffractive_hard b
                /\ l =
                   (if sig_string_soft b >? 0
                    then [branch0 (sig_string_soft b) StringSoft] else []) ++
                   (if nondiffractive_hard b >? 0
                    then [branch0 (nondiffractive_hard b) StringHard]
                    else [])).
Proof.
  intros Hrun. apply string_excitation_inversion in Hrun.
  destruct Hrun as (el & Hel & Hlow & Hhigh).
  exists el. split; [exact Hel |]. cbv zeta in Hlow, Hhigh |- *.
  split; [exact Hlow |]. intros HS.
  destruct (Hhigh HS) as (gen & Hgen & Hl).
  destruct (cross_sections_diffractive gen _ _ _) as [[AX XB] DD] eqn:Hxs.
  exists gen, AX, XB, DD. split; [exact Hgen |]. split; [exact Hxs |].
  pose proof (string_budget_steps (Rmax 0 (high_energy self - el))
                AX XB DD (string_hard_cross_section self)) as Hsteps.
  cbv zeta in Hsteps.
  destruct Hsteps as (Hnd & Hdd & HAX & HXB & _ & _ & Hsoft).
  repeat (split; [assumption |]).
  split; [intros Hsingle; apply string_budget_total; exact Hsingle |].
  split; [exact Hsoft | exact Hl].
Qed.

End StringBudget.

(** ** What the channel builders put in their lists *)

Lemma fold_left_Forall {A B} (Q : A -> Prop) (f : list A -> B -> list A)
    (l : list B) (init : list A) :
  Forall Q init ->
  (forall acc x, In x l -> Forall Q acc -> Forall Q (f acc x)) ->
  Forall Q (fold_left f l init).
Proof.
  revert init. induction l as [| x l IH]; intros init Hinit Hstep; cbn.
  - exact Hinit.
  - apply IH.
    + apply Hstep; [left; reflexivity | exact Hinit].
    + intros acc y Hy. apply Hstep. right. exact Hy.
Qed.

Lemma Forall_snoc {A} (Q : A -> Prop) (l : list A) (x : A) :
  Forall Q l -> Q x -> Forall Q (l ++ [x]).
Proof.
  intros Hl Hx. apply Forall_app. split; [exact Hl | repeat constructor; exact Hx].
Qed.

(** Split on every test of the goal; comparisons of reals leave their
    meaning in the context. *)
Ltac split_tests :=
  repeat match goal with
  | |- context [if Rltb ?a ?b then _ else _] => destruct (Rltb_spec a b)
  | |- context [if Rleb ?a ?b then _ else _] => destruct (Rleb_spec a b)
  | |- context [if ?c then _ else _] => destruct c
  end.

(** Split on the test at the head of the list in the goal. *)
Ltac head_test :=
  match goal with
  | |- Forall _ (if ?c then _ else _) => destruct c
  end.

(** A fresh branch passed the test just split on. *)
Ltac passed_test :=
  split;
  [ reflexivity
  | unfold above_really_small, branch2, branch1; cbn [weight]; assumption ].

Section Builders.

Context {K : pdg.Constants} {PM : Pdg.Methods} {Reg : Registry}
        {Par : Parametrizations} {Hlp : Helpers} {Rnd : Random}.

Lemma add_channel_filtered (Q : CollisionBranch -> Prop)
    (process_list : CollisionBranchList) (get_xsection : unit -> R)
    (sqrts : R) (type_a type_b : ParticleType) :
  (forall b, filtered_2to2 b -> Q b) ->
  Forall Q process_list ->
  Forall Q (add_channel process_list get_xsection sqrts type_a type_b).
Proof.
  intros HQ Hpl. unfold add_channel. cbv zeta. split_tests; try assumption.
  apply Forall_snoc; [assumption |]. apply HQ. passed_test.
Qed.

(** A candidate at or below [really_small], or at or below the threshold
    of the minimum spectral masses, is dropped. *)
Lemma add_channel_drops (process_list : CollisionBranchList)
    (get_xsection : unit -> R) (sqrts : R) (type_a type_b : ParticleType) :
  get_xsection tt <= really_small
  \/ sqrts <= min_mass_spectral type_a + min_mass_spectral type_b ->
  add_channel process_list get_xsection sqrts type_a type_b = process_list.
Proof.
  intros Hsmall. unfold add_channel. cbv zeta.
  split_tests; try reflexivity. lra.
Qed.

Lemma two_to_one_filtered (self : cross_sections) :
  Forall filtered_2to1 (two_to_one self).
Proof.
  unfold two_to_one. cbv zeta. apply fold_left_Forall; [constructor |].
  intros acc x _ Hacc. split_tests; try assumption.
  apply Forall_snoc; [assumption |]. passed_test.
Qed.

Lemma find_nn_xsection_from_type_filtered (self : cross_sections)
    (list_res_1 list_res_2 : list ParticleType)
    (integrator : ParticleType -> ParticleType -> R) :
  Forall filtered_2to2
    (find_nn_xsection_from_type self list_res_1 list_res_2 integrator).
Proof.
  unfold find_nn_xsection_from_type. cbv zeta.
  apply fold_left_Forall; [constructor |]. intros acc1 r1 _ Hacc1.
  apply fold_left_Forall; [assumption |]. intros acc2 r2 _ Hacc2.
  head_test; [assumption |].
  apply fold_left_Forall; [assumption |]. intros acc3 twoI _ Hacc3.
  split_tests; try assumption.
  apply Forall_snoc; [assumption |]. passed_test.
Qed.

Lemma nn_xx_filtered (self : cross_sections) (bits : ReactionsBitSet) :
  Forall filtered_2to2 (nn_xx self bits).
Proof.
  unfold nn_xx. cbv zeta.
  repeat match goal with
  | |- context [match ?c with Some _ => _ | None => _ end] => destruct c
  end;
  destruct (test bits NN_to_NR), (test bits NN_to_DR);
  repeat (apply Forall_app; split);
  try apply find_nn_xsection_from_type_filtered; constructor.
Qed.

Lemma bar_bar_to_nuc_nuc_filtered (self : cross_sections) (anti : bool) :
  Forall filtered_2to2 (bar_bar_to_nuc_nuc self anti).
Proof.
  unfold bar_bar_to_nuc_nuc. cbv zeta.
  apply fold_left_Forall; [constructor |]. intros acc1 r1 _ Hacc1.
  apply fold_left_Forall; [assumption |]. intros acc2 r2 _ Hacc2.
  head_test; [assumption |].
  apply fold_left_Forall; [assumption |]. intros acc3 twoI _ Hacc3.
  split_tests; try assumption;
    (apply Forall_snoc; [assumption |]; passed_test).
Qed.

Lemma bb_xx_except_nn_filtered (self : cross_sections)
    (bits : ReactionsBitSet) :
  Forall filtered_2to2 (bb_xx_except_nn self bits).
Proof.
  unfold bb_xx_except_nn. cbv zeta.
  split_tests; try apply bar_bar_to_nuc_nuc_filtered; constructor.
Qed.

Lemma dn_xx_to_light_nucleus (self : cross_sections)
    (bits : ReactionsBitSet) :
  Forall to_light_nucleus (dn_xx self bits).
Proof.
  unfold dn_xx. cbv zeta. apply fold_left_Forall; [constructor |].
  intros acc x Hx Hacc. head_test; [assumption |].
  apply Forall_snoc; [assumption |]. split; [reflexivity |].
  eexists _, x. split; [reflexivity | exact Hx].
Qed.

Lemma dpi_xx_filtered_or_to_light_nucleus (self : cross_sections)
    (bits : ReactionsBitSet) :
  Forall (fun b => filtered_2to2 b \/ to_light_nucleus b) (dpi_xx self bits).
Proof.
  unfold dpi_xx. cbv zeta.
  match goal with
  | |- Forall _ (if ?c then fold_left ?f ?l ?init else ?init) =>
      assert (Hfirst : Forall (fun b => filtered_2to2 b \/ to_light_nucleus b)
                         init); [| destruct c; [| exact Hfirst]]
  end.
  - head_test; [| constructor].
    apply fold_left_Forall; [constructor |]. intros acc1 r1 _ Hacc1.
    apply fold_left_Forall; [assumption |]. intros acc2 r2 _ Hacc2.
    head_test; [assumption |].
    apply fold_left_Forall; [assumption |]. intros acc3 twoI _ Hacc3.
    split_tests; try assumption;
      (apply Forall_snoc; [assumption |]; left; passed_test).
  - apply fold_left_Forall; [exact Hfirst |].
    intros acc x Hx Hacc. head_test; [assumption |].
    apply Forall_snoc; [assumption |]. right. split; [reflexivity |].
    eexists _, x. split; [reflexivity | exact Hx].
Qed.

End Builders.

Lemma switch_Ok_ind {A} (Q : A -> Prop) (x : Z) (cases : list (Z * Res A))
    (d : Res A) (a : A) :
  Forall (fun c => forall a, snd c = Ok a -> Q a) cases ->
  (forall a, d = Ok a -> Q a) ->
  switch x cases d = Ok a -> Q a.
Proof.
  intros Hc Hd. revert a.
  apply (switch_ind (fun r => forall a, r = Ok a -> Q a)); assumption.
Qed.

Lemma switch2_Ok_ind {A} (Q : A -> Prop) (x y : Z)
    (cases : list (Z * Z * Res A)) (d : Res A) (a : A) :
  Forall (fun c => forall a, snd c = Ok a -> Q a) cases ->
  (forall a, d = Ok a -> Q a) ->
  switch2 x y cases d = Ok a -> Q a.
Proof.
  intros Hc Hd. revert a.
  apply (switch2_ind (fun r => forall a, r = Ok a -> Q a)); assumption.
Qed.

(** Follow a case body that returned a list: the lookups succeeded and the
    flags are split on. *)
Ltac follow_body :=
  repeat first
    [ run_step
    | match goal with
      | H : (if ?c then _ else _) = Ok _ |- _ => destruct c
      end ].

(** Split on the test that decides a step of a run. *)
Ltac split_run H :=
  match type of H with
  | (if ?c then _ else _) _ = Ok _ => destruct c
  end.

Section Dispatch.

Context {K : pdg.Constants} {PM : Pdg.Methods} {Reg : Registry}
        {Par : Parametrizations} {Hlp : Helpers} {Rnd : Random}.

Ltac channels_added :=
  repeat (apply add_channel_filtered; [auto |]); try constructor.

Lemma nk_xx_filtered (self : cross_sections) (bits : ReactionsBitSet)
    (l : CollisionBranchList) :
  nk_xx self bits = Ok l -> Forall filtered_2to2 l.
Proof.
  unfold nk_xx. cbv zeta.
  apply switch_Ok_ind;
    [| intros a Ha; inversion Ha; constructor].
  each_case ltac:(
    intros l1; apply switch_Ok_ind;
    [ each_case ltac:(intros l2 Hbody; follow_body; channels_added)
    | intros a Ha; inversion Ha; constructor ]).
Qed.

Lemma ypi_xx_filtered (self : cross_sections) (bits : ReactionsBitSet)
    (l : CollisionBranchList) :
  ypi_xx self bits = Ok l -> Forall filtered_2to2 l.
Proof.
  unfold ypi_xx. cbv zeta.
  destruct (negb _); [intros H; inversion H; constructor |].
  apply switch2_Ok_ind;
    [| intros a Ha; inversion Ha; constructor].
  each_case ltac:(intros l2 Hbody; follow_body; channels_added).
Qed.

Lemma deltak_xx_filtered (self : cross_sections) (bits : ReactionsBitSet)
    (l : CollisionBranchList) :
  deltak_xx self bits = Ok l -> Forall filtered_2to2 l.
Proof.
  unfold deltak_xx. cbv zeta.
  destruct (negb _); [intros H; inversion H; constructor |].
  apply switch2_Ok_ind;
    [| intros a Ha; inversion Ha; constructor].
  each_case ltac:(intros l2 Hbody; follow_body; channels_added).
Qed.

Lemma two_to_two_shape (self : cross_sections) (bits : ReactionsBitSet)
    (l : CollisionBranchList) :
  two_to_two self bits = Ok l ->
  Forall (fun b => filtered_2to2 b \/ to_light_nucleus b) l.
Proof.
  assert (Hleft : forall l', Forall filtered_2to2 l' ->
            Forall (fun b => filtered_2to2 b \/ to_light_nucleus b) l').
  { intros l' H. eapply Forall_impl; [| exact H]. intros b Hb. left. exact Hb. }
  unfold two_to_two. cbv zeta. intros H.
  repeat match type of H with
  | (if ?c then _ else _) = Ok _ => destruct c
  end;
  try (inversion H; subst; clear H).
  - apply Hleft, nn_xx_filtered.
  - apply Hleft, bb_xx_except_nn_filtered.
  - apply Hleft. eapply nk_xx_filtered; eassumption.
  - apply Hleft. eapply ypi_xx_filtered; eassumption.
  - apply Hleft. eapply deltak_xx_filtered; eassumption.
  - constructor.
  - eapply Forall_impl; [| apply dn_xx_to_light_nucleus].
    intros b Hb. right. exact Hb.
  - apply dpi_xx_filtered_or_to_light_nucleus.
  - constructor.
  - constructor.
Qed.

End Dispatch.

(** ** The facade *)

Section Facade.

Context {K : pdg.Constants} {PM : Pdg.Methods} {Reg : Registry}
        {Par : Parametrizations} {Hlp : Helpers} {Rnd : Random}.

Lemma sum_xs_of_from (l : CollisionBranchList) (acc : R) :
  fold_left (fun xs_sum proc => xs_sum + weight proc) l acc =
  acc + total_weight l.
Proof.
  unfold total_weight.
  revert acc. induction l as [| b l IH]; intros acc; cbn.
  - ring.
  - rewrite IH. ring.
Qed.

(** [sum_xs_of] is the sum of the weights. *)
Lemma sum_xs_of_total (l : CollisionBranchList) :
  sum_xs_of l = total_weight l.
Proof. unfold sum_xs_of. rewrite sum_xs_of_from. ring. Qed.

Lemma filtered_2to2_after_elastic (b : CollisionBranch) :
  filtered_2to2 b -> after_elastic b.
Proof.
  intros [Hty Hw]. split; [rewrite Hty; discriminate | left; exact Hw].
Qed.

Lemma filtered_2to1_after_elastic (b : CollisionBranch) :
  filtered_2to1 b -> after_elastic b.
Proof.
  intros [Hty Hw]. split; [rewrite Hty; discriminate | left; exact Hw].
Qed.

Lemma to_light_nucleus_after_elastic (b : CollisionBranch) :
  to_light_nucleus b -> after_elastic b.
Proof.
  intros [Hty (x & y & Hp & Hy)]. split; [rewrite Hty; discriminate |].
  right. right. right. split; [exact Hty |]. exists x, y. auto.
Qed.

Lemma string_excitation_after_elastic (self : cross_sections)
    (string_process : option StringProcess) (w w' : World)
    (l : CollisionBranchList) :
  string_excitation self string_process w = Ok (l, w') ->
  Forall after_elastic l.
Proof.
  intros Hrun. apply string_excitation_inversion in Hrun.
  destruct Hrun as (el & _ & Hlow & Hhigh).
  destruct (Rle_or_lt (Rmax 0 (high_energy self - el)) 0) as [HS | HS].
  - rewrite (Hlow HS). constructor.
  - destruct (Hhigh HS) as (gen & _ & Hl).
    clear Hhigh Hlow. cbv zeta in Hl. subst l.
    apply Forall_app. split; split_tests; try apply Forall_nil;
      (apply Forall_cons; [| apply Forall_nil]);
      (split; [discriminate |]); right; right; left;
      (split; [auto | unfold branch0; cbn [weight]; lra]).
Qed.

Lemma NNbar_annihilation_after_elastic (self : cross_sections)
    (current_xs : R) (b : CollisionBranch) :
  NNbar_annihilation self current_xs = Ok b -> after_elastic b.
Proof.
  unfold NNbar_annihilation. cbv zeta. intros H. follow_body.
  split; [discriminate |]. right. right. right. split; [reflexivity |].
  eexists _, _. split; [reflexivity |]. right. left. split; assumption.
Qed.

Lemma NNbar_creation_after_elastic (self : cross_sections)
    (l : CollisionBranchList) :
  NNbar_creation self = Ok l -> Forall after_elastic l.
Proof.
  unfold NNbar_creation. cbv zeta. intros H. follow_body.
  - constructor.
  - cbn [app].
    apply Forall_cons; [| apply Forall_cons; [| apply Forall_nil]];
      (split; [discriminate |]); right; right; right;
      (split; [reflexivity |]); eexists _, _; (split; [reflexivity |]).
    + right. right. left. split; assumption.
    + right. right. right. split; assumption.
Qed.

(** The list of the facade: the elastic branch when it is included, then
    branches that are not elastic and either passed the [really_small]
    test or were appended without it. *)
Lemma generate_collision_list_shape (self : cross_sections)
    (elastic_parameter : R) (two_to_one_switch : bool)
    (included_2to2 : ReactionsBitSet) (low_snn_cut : R)
    (strings_switch : bool) (nnbar_treatment : NNbarTreatment)
    (string_process : option StringProcess) (w w' : World)
    (l : CollisionBranchList) :
  generate_collision_list self elastic_parameter two_to_one_switch
    included_2to2 low_snn_cut strings_switch nnbar_treatment string_process w
  = Ok (l, w') ->
  exists rest,
    Forall after_elastic rest
    /\ if elastic_included self included_2to2 low_snn_cut
       then exists el,
              elastic self elastic_parameter = Ok el /\ l = el :: rest
       else l = rest.
Proof.
  unfold generate_collision_list, elastic_included. cbv zeta.
  change (test included_2to2 IR_Elastic) with (bit_Elastic included_2to2).
  intros Hrun. apply M_bind_Ok in Hrun.
  destruct Hrun as (is_pythia & w1 & _ & Hrun).
  apply M_bind_Ok in Hrun. destruct Hrun as (pl1 & w2 & Hel & Hrun).
  apply M_bind_Ok in Hrun. destruct Hrun as (pl2 & w3 & Hmid & Hrun).
  assert (Hmid' : exists mid, pl2 = pl1 ++ mid /\ Forall after_elastic mid).
  { destruct is_pythia.
    - repeat run_step. eexists. split; [reflexivity |].
      eapply string_excitation_after_elastic; eassumption.
    - set (pl1' := if two_to_one_switch
                   then append_list pl1 (two_to_one self) else pl1) in Hmid.
      assert (H21 : exists m1, pl1' = pl1 ++ m1 /\ Forall after_elastic m1).
      { subst pl1'. destruct two_to_one_switch.
        - eexists. split; [reflexivity |].
          eapply Forall_impl; [| apply two_to_one_filtered].
          apply filtered_2to1_after_elastic.
        - exists []. split; [rewrite app_nil_r; reflexivity | constructor]. }
      destruct H21 as (m1 & Hm1 & Hm1Q). rewrite Hm1 in Hmid.
      split_run Hmid.
      + repeat run_step. unfold append_list. rewrite <- app_assoc.
        eexists. split; [reflexivity |]. apply Forall_app. split; [exact Hm1Q |].
        eapply Forall_impl; [| eapply two_to_two_shape; eassumption].
        intros b [Hb | Hb];
          [apply filtered_2to2_after_elastic | apply to_light_nucleus_after_elastic];
          exact Hb.
      + run_step. exists m1. split; [reflexivity | exact Hm1Q]. }
  destruct Hmid' as (mid & -> & HmidQ).
  assert (Hclosure : exists closure,
             l = pl1 ++ mid ++ closure /\ Forall after_elastic closure).
  { destruct nnbar_treatment;
      try (run_step; exists []; rewrite app_nil_r; split;
           [reflexivity | constructor]).
    apply M_bind_Ok in Hrun. destruct Hrun as (pl3 & w4 & Hann & Hrun).
    assert (H3 : exists c1, pl3 = (pl1 ++ mid) ++ c1 /\ Forall after_elastic c1).
    { split_run Hann.
      - repeat run_step. eexists. split; [reflexivity |].
        apply Forall_cons; [| apply Forall_nil].
        eapply NNbar_annihilation_after_elastic; eassumption.
      - run_step. exists []. rewrite app_nil_r. split;
          [reflexivity | constructor]. }
    destruct H3 as (c1 & -> & Hc1).
    split_run Hrun.
    - repeat run_step. unfold append_list.
      exists (c1 ++ x). rewrite <- !app_assoc. split; [reflexivity |].
      apply Forall_app. split; [exact Hc1 |].
      eapply NNbar_creation_after_elastic; eassumption.
    - run_step. exists c1. rewrite <- app_assoc. split;
        [reflexivity | exact Hc1]. }
  destruct Hclosure as (closure & -> & HclQ).
  exists (mid ++ closure). split; [apply Forall_app; split; assumption |].
  split_run Hel.
  - repeat run_step. eexists. split; [eassumption | reflexivity].
  - run_step. reflexivity.
Qed.

End Facade.

(** ** C1, C2, C3: the list of the facade *)

Section FacadeList.

Context {K : pdg.Constants} {PM : Pdg.Methods} {Reg : Registry}
        {Par : Parametrizations} {Hlp : Helpers} {Rnd : Random}.

Lemma after_elastic_not_elastic (rest : CollisionBranchList) :
  Forall after_elastic rest ->
  forallb (fun b => negb (is_elastic b)) rest = true.
Proof.
  intros H. apply forallb_forall. intros b Hb.
  rewrite Forall_forall in H. destruct (H b Hb) as [Hty _].
  unfold is_elastic. destruct (get_type b); try reflexivity.
  contradiction Hty. reflexivity.
Qed.

(** The elastic branch as the code computes it.  When the facade returns a
    list, that list starts with the elastic branch of the pair if and only
    if the Elastic bit is set and the pair is not two nucleons of the same
    antiparticle sign below [low_snn_cut]; no other branch is elastic.  Its
    weight is [elastic_parameter] when that is not negative and otherwise
    the value of [elastic_parametrization]: the nucleon-pion table for a
    nucleon with a pion, the nucleon-kaon table for a nucleon with a kaon,
    [nn_el] for two nucleons of the same antiparticle sign, and 0 for every
    other pair.  A nucleon with an antinucleon is such a pair: the ppbar
    case of [nn_el] is never reached from here. *)
Theorem elastic_branch_of_list (self : cross_sections)
    (elastic_parameter : R) (two_to_one_switch : bool)
    (included_2to2 : ReactionsBitSet) (low_snn_cut : R)
    (strings_switch : bool) (nnbar_treatment : NNbarTreatment)
    (string_process : option StringProcess) (w w' : World)
    (l : CollisionBranchList) :
  generate_collision_list self elastic_parameter two_to_one_switch
    included_2to2 low_snn_cut strings_switch nnbar_treatment string_process w
  = Ok (l, w') ->
  elastic_branch_rule elastic_parametrization self elastic_parameter
    included_2to2 low_snn_cut l
  /\ let pdg_a := pdgcode (type (incoming_0 self)) in
     let pdg_b := pdgcode (type (incoming_1 self)) in
     let nucleon_pion :=
       (Pdg.is_nucleon pdg_a && Pdg.is_pion pdg_b)
       || (Pdg.is_nucleon pdg_b && Pdg.is_pion pdg_a) in
     let nucleon_kaon :=
       (Pdg.is_nucleon pdg_a && Pdg.is_kaon pdg_b)
       || (Pdg.is_nucleon pdg_b && Pdg.is_kaon pdg_a) in
     let nucleons_of_one_sign :=
       Pdg.is_nucleon pdg_a && Pdg.is_nucleon pdg_b
       && (Pdg.antiparticle_sign pdg_a =? Pdg.antiparticle_sign pdg_b)%Z in
     (nucleon_pion = true -> elastic_parametrization self = npi_el self)
     /\ (nucleon_pion = false -> nucleon_kaon = true ->
         elastic_parametrization self = nk_el self)
     /\ (nucleon_pion = false -> nucleon_kaon = false ->
         nucleons_of_one_sign = true ->
         elastic_parametrization self = nn_el self)
     /\ (nucleon_pion = false -> nucleon_kaon = false ->
         nucleons_of_one_sign = false ->
         elastic_parametrization self = Ok 0).
Proof.
  intros Hrun. split.
  - apply generate_collision_list_shape in Hrun.
    destruct Hrun as (rest & Hrest & Hl). unfold elastic_branch_rule.
    destruct (elastic_included self included_2to2 low_snn_cut).
    + destruct Hl as (el & Hel & ->). unfold elastic in Hel.
      apply Res_bind_Ok in Hel. destruct Hel as (W & HW & Hbranch).
      inversion Hbranch; subst el. exists W, rest.
      split; [reflexivity |].
      split; [apply after_elastic_not_elastic; exact Hrest |].
      destruct (Rleb 0 elastic_parameter);
        [inversion HW; reflexivity | exact HW].
    + subst l. apply after_elastic_not_elastic. exact Hrest.
  - cbv zeta. unfold elastic_parametrization. cbv zeta.
    repeat split; intros; repeat match goal with
    | H : _ = _ |- _ => rewrite H
    end; reflexivity.
Qed.

(** The facade under the treatment [Resonances]: the list without the
    closure, then the annihilation branch, then the creation branches. *)
Lemma generate_collision_list_closure (self : cross_sections)
    (elastic_parameter : R) (two_to_one_switch : bool)
    (included_2to2 : ReactionsBitSet) (low_snn_cut : R)
    (strings_switch : bool) (string_process : option StringProcess)
    (w w' : World) (l : CollisionBranchList) :
  generate_collision_list self elastic_parameter two_to_one_switch
    included_2to2 low_snn_cut strings_switch Resonances string_process w
  = Ok (l, w') ->
  let t1 := type (incoming_0 self) in
  let t2 := type (incoming_1 self) in
  exists before with_annihilation,
    generate_collision_list self elastic_parameter two_to_one_switch
      included_2to2 low_snn_cut strings_switch NoAnnihilation
      string_process w = Ok (before, w')
    /\ (if is_nucleon t1 && (pdgcode t2 =? pdgcode (get_antiparticle t1))%Z
        then exists b,
               NNbar_annihilation self (sum_xs_of before) = Ok b
               /\ with_annihilation = before ++ [b]
        else with_annihilation = before)
    /\ (if ((pdgcode t1 =? pdg.rho_z) && (pdgcode t2 =? pdg.h1))%Z
           || ((pdgcode t1 =? pdg.h1) && (pdgcode t2 =? pdg.rho_z))%Z
        then exists created,
               NNbar_creation self = Ok created
               /\ l = with_annihilation ++ created
        else l = with_annihilation).
Proof.
  unfold generate_collision_list. cbv zeta. intros Hrun.
  apply M_bind_Ok in Hrun. destruct Hrun as (is_pythia & w1 & Hdec & Hrun).
  apply M_bind_Ok in Hrun. destruct Hrun as (pl1 & w2 & Hel & Hrun).
  apply M_bind_Ok in Hrun. destruct Hrun as (pl2 & w3 & Hmid & Hrun).
  apply M_bind_Ok in Hrun. destruct Hrun as (pl3 & w4 & Hann & Hrun).
  assert (Hw4 : w4 = w3).
  { split_run Hann; repeat run_step; reflexivity. }
  subst w4.
  assert (Hw' : w' = w3).
  { split_run Hrun; repeat run_step; reflexivity. }
  subst w'.
  exists pl2, pl3. split.
  - rewrite (M_bind_run _ _ _ _ _ Hdec), (M_bind_run _ _ _ _ _ Hel),
      (M_bind_run _ _ _ _ _ Hmid). reflexivity.
  - split.
    + split_run Hann; repeat run_step; [eexists; split; [eassumption |] |];
        reflexivity.
    + split_run Hrun; repeat run_step; [eexists; split; [eassumption |] |];
        reflexivity.
Qed.

(** C2.  Under the treatment [Resonances], for a nucleon with its own
    antiparticle (whose code is that of neither rho0 nor h1), the list the
    facade returns is the list of all other channels - what it returns
    without the treatment - followed by one TwoToTwo branch with the
    products (h1(1170), rho0) and the weight max(0, ppbar_total(s) - sum of
    the weights before it). *)
Theorem NNbar_annihilation_is_the_residual (self : cross_sections)
    (elastic_parameter : R) (two_to_one_switch : bool)
    (included_2to2 : ReactionsBitSet) (low_snn_cut : R)
    (strings_switch : bool) (string_process : option StringProcess)
    (w w' : World) (l : CollisionBranchList) :
  let t1 := type (incoming_0 self) in
  let t2 := type (incoming_1 self) in
  let s := sqrt_s_ self * sqrt_s_ self in
  is_nucleon t1 = true ->
  pdgcode t2 = pdgcode (get_antiparticle t1) ->
  pdgcode t1 <> pdg.rho_z ->
  pdgcode t1 <> pdg.h1 ->
  generate_collision_list self elastic_parameter two_to_one_switch
    included_2to2 low_snn_cut strings_switch Resonances string_process w
  = Ok (l, w') ->
  exists before type_h1 type_rho_z,
    generate_collision_list self elastic_parameter two_to_one_switch
      included_2to2 low_snn_cut strings_switch NoAnnihilation
      string_process w = Ok (before, w')
    /\ find pdg.h1 = Ok type_h1
    /\ find pdg.rho_z = Ok type_rho_z
    /\ l = before ++
           [branch2 type_h1 type_rho_z
              (Rmax 0 (ppbar_total s - total_weight before)) TwoToTwo].
Proof.
  intros t1 t2 s Hnucleon Hanti Hrho Hh1 Hrun.
  apply generate_collision_list_closure in Hrun. cbv zeta in Hrun.
  destruct Hrun as (before & mid & Hbefore & Hann & Hcre).
  fold t1 t2 in Hann, Hcre.
  rewrite Hnucleon, Hanti, Z.eqb_refl in Hann. cbn [andb] in Hann.
  destruct Hann as (b & Hb & ->).
  apply Z.eqb_neq in Hrho, Hh1. rewrite Hrho, Hh1 in Hcre.
  cbn [andb orb] in Hcre. subst l.
  unfold NNbar_annihilation in Hb. cbv zeta in Hb.
  apply Res_bind_Ok in Hb. destruct Hb as (type_h1 & Hfh1 & Hb).
  apply Res_bind_Ok in Hb. destruct Hb as (type_rho_z & Hfrho & Hb).
  inversion Hb; subst b.
  exists before, type_h1, type_rho_z.
  rewrite sum_xs_of_total. auto.
Qed.

(** C3, as the code has it.  Every branch of the list the facade returns
    has a weight above [really_small], except the branches that are
    appended without that test: the elastic branch, the string branches
    (whose weights are positive), the branches of [dn_xx] and [dpi_xx] to
    a light nucleus, the N Nbar annihilation branch and the N Nbar
    creation branches.  A candidate of [add_channel] at or below
    [really_small] is dropped. *)
Theorem weights_above_really_small_or_unfiltered (self : cross_sections)
    (elastic_parameter : R) (two_to_one_switch : bool)
    (included_2to2 : ReactionsBitSet) (low_snn_cut : R)
    (strings_switch : bool) (nnbar_treatment : NNbarTreatment)
    (string_process : option StringProcess) (w w' : World)
    (l : CollisionBranchList) :
  generate_collision_list self elastic_parameter two_to_one_switch
    included_2to2 low_snn_cut strings_switch nnbar_treatment string_process w
  = Ok (l, w') ->
  Forall (fun b => above_really_small b \/ appended_unfiltered b) l
  /\ (forall process_list get_xsection sqrts type_a type_b,
        get_xsection tt <= really_small ->
        add_channel process_list get_xsection sqrts type_a type_b =
        process_list).
Proof.
  intros Hrun. split.
  - apply generate_collision_list_shape in Hrun.
    destruct Hrun as (rest & Hrest & Hl).
    assert (Hrest' :
      Forall (fun b => above_really_small b \/ appended_unfiltered b) rest).
    { eapply Forall_impl; [| exact Hrest]. intros b [_ Hb]. exact Hb. }
    destruct (elastic_included self included_2to2 low_snn_cut).
    + destruct Hl as (el & Hel & ->). apply Forall_cons; [| exact Hrest'].
      right. left. unfold elastic in Hel.
      apply Res_bind_Ok in Hel. destruct Hel as (W & _ & Hbranch).
      inversion Hbranch. reflexivity.
    + subst l. exact Hrest'.
  - intros. apply add_channel_drops. left. assumption.
Qed.

End FacadeList.

(** * Further properties of the kernel and of the other modules *)

(** ** Detailed balance and the matrix element, both ways *)

Section KernelSymmetries.

Context {K : pdg.Constants} {PM : Pdg.Methods} {Reg : Registry}
        {Par : Parametrizations} {Hlp : Helpers} {Rnd : Random}.

Lemma g_positive (x : ParticleType) : spin_in_range x -> g x > 0.
Proof.
  unfold spin_in_range, g. intros [H _]. apply IZR_le in H. lra.
Qed.

Lemma delta_count_positive (a b : ParticleType) : 1 + delta a b > 0.
Proof. unfold delta. destruct (type_eqb a b); lra. Qed.

(** X1.  Detailed balance there and back: for particle types whose 2J fits
    the unsigned arithmetic of the spin products and for non-zero squared
    momenta on both sides, the factor of A B -> C D times the factor of
    C D -> A B is 1. *)
Theorem detailed_balance_factor_stable_reciprocal
    (s : R) (a b c d : ParticleType) :
  spin_in_range a -> spin_in_range b ->
  spin_in_range c -> spin_in_range d ->
  pCM_sqr_from_s s (mass a) (mass b) <> 0 ->
  pCM_sqr_from_s s (mass c) (mass d) <> 0 ->
  detailed_balance_factor_stable s a b c d *
  detailed_balance_factor_stable s c d a b = 1.
Proof.
  intros Ha Hb Hc Hd Hab Hcd. unfold detailed_balance_factor_stable.
  cbv zeta.
  rewrite (spin_product c d Hc Hd), (spin_product a b Ha Hb).
  rewrite !symmetry_count.
  pose proof (g_positive a Ha). pose proof (g_positive b Hb).
  pose proof (g_positive c Hc). pose proof (g_positive d Hd).
  pose proof (delta_count_positive a b).
  pose proof (delta_count_positive c d).
  field. repeat split; lra.
Qed.

(** X2.  The matrix element of N N -> X does not depend on the order of the
    two types of the final state. *)
Theorem nn_to_resonance_matrix_element_symmetric
    (sqrts : R) (type_a type_b : ParticleType) (twoI : Z) :
  nn_to_resonance_matrix_element sqrts type_a type_b twoI =
  nn_to_resonance_matrix_element sqrts type_b type_a twoI.
Proof.
  unfold nn_to_resonance_matrix_element. cbv zeta.
  rewrite (Z.eqb_sym (antiparticle_sign type_b)).
  rewrite (Rplus_comm (mass type_b * mass type_b)).
  rewrite (Rplus_comm (mass type_b) (mass type_a)).
  rewrite (Rplus_comm (width_at_pole type_b)).
  rewrite (orb_comm (is_Delta type_b && is_nucleon type_a)).
  rewrite (orb_comm (is_Nstar type_b && is_nucleon type_a)).
  rewrite (orb_comm (is_Deltastar type_b && is_nucleon type_a)).
  rewrite (andb_comm (is_Delta type_b) (is_Delta type_a)).
  rewrite (orb_comm (is_Nstar type_b && is_Delta type_a)).
  rewrite (orb_comm (is_Deltastar type_b && is_Delta type_a)).
  rewrite (orb_comm (is_deuteron type_b && _)).
  rewrite (orb_comm (is_Nstar1535 type_b)).
  reflexivity.
Qed.

End KernelSymmetries.

(** ** Conservation of charge and baryon number *)

Section Conservation.

Context {K : pdg.Constants} {PM : Pdg.Methods} {Reg : Registry}
        {Par : Parametrizations} {Hlp : Helpers} {Rnd : Random}.

Lemma formation_positive (self : cross_sections) (r : ParticleType)
    (p_cm_sqr : R) :
  formation self r p_cm_sqr > 0 ->
  charge r = total_charge (incoming_types self)
  /\ baryon_number r = total_baryon_number (incoming_types self)
  /\ get_partial_in_width r (sqrt_s_ self) (incoming_0 self)
       (incoming_1 self) > 0.
Proof.
  unfold formation, total_charge, total_baryon_number, incoming_types.
  cbv zeta. cbn [fold_right]. rewrite !Z.add_0_r.
  destruct (Z.eqb_spec (charge r)
              (charge (type (incoming_0 self)) +
               charge (type (incoming_1 self)))) as [Hq | Hq];
    cbn [negb]; [| intros H; lra].
  destruct (Z.eqb_spec (baryon_number r)
              (baryon_number (type (incoming_0 self)) +
               baryon_number (type (incoming_1 self)))) as [Hb | Hb];
    cbn [negb]; [| intros H; lra].
  destruct (Rleb_spec
              (get_partial_in_width r (sqrt_s_ self) (incoming_0 self)
                 (incoming_1 self)) 0) as [Hw | Hw]; [intros H; lra |].
  intros _. repeat split; [assumption | assumption | lra].
Qed.

(** X3.  For a non-negative [really_small], every branch of [two_to_one] is
    one unstable type of the registry whose charge and baryon number are
    those of the incoming pair and whose partial width into the pair is
    positive; it is never an unstable incoming particle itself. *)
Theorem two_to_one_conserves_quantum_numbers (self : cross_sections) :
  0 <= really_small ->
  Forall
    (fun b =>
       exists r,
         particle_types b = [r] /\ get_type b = TwoToOne
         /\ In r list_all /\ is_stable r = false
         /\ total_charge (particle_types b) =
            total_charge (incoming_types self)
         /\ total_baryon_number (particle_types b) =
            total_baryon_number (incoming_types self)
         /\ get_partial_in_width r (sqrt_s_ self) (incoming_0 self)
              (incoming_1 self) > 0
         /\ (is_stable (type (incoming_0 self)) = false ->
             pdgcode r <> pdgcode (type (incoming_0 self)))
         /\ (is_stable (type (incoming_1 self)) = false ->
             pdgcode r <> pdgcode (type (incoming_1 self))))
    (two_to_one self).
Proof.
  intros Hsmall. unfold two_to_one. cbv zeta.
  apply fold_left_Forall; [constructor |].
  intros acc r Hin Hacc.
  destruct (is_stable r) eqn:Hstable; [assumption |].
  destruct (Z.eqb_spec (pdgcode r) (pdgcode (type (incoming_0 self))))
    as [Ha | Ha];
  destruct (Z.eqb_spec (pdgcode r) (pdgcode (type (incoming_1 self))))
    as [Hb | Hb];
  destruct (is_stable (type (incoming_0 self))) eqn:Hsa;
  destruct (is_stable (type (incoming_1 self))) eqn:Hsb;
  cbn [negb andb orb]; try assumption;
  (match goal with
   | |- Forall _ (if Rltb ?x ?y then _ else _) =>
       destruct (Rltb_spec x y) as [Hxs | Hxs]; [| assumption]
   end;
   apply Forall_snoc; [assumption |];
   destruct (formation_positive self r _ (Rle_lt_trans _ _ _ Hsmall Hxs))
     as (Hq & Hbn & Hw);
   exists r; unfold branch1; cbn [particle_types get_type];
   unfold total_charge at 1, total_baryon_number at 1; cbn [fold_right];
   rewrite !Z.add_0_r;
   repeat split; try assumption; try reflexivity;
   intros; try discriminate; assumption).
Qed.

Lemma find_nn_xsection_from_type_conserves (self : cross_sections)
    (list_res_1 list_res_2 : list ParticleType)
    (integrator : ParticleType -> ParticleType -> R) :
  Forall
    (fun b =>
       exists r1 r2,
         particle_types b = [r1; r2]
         /\ In r1 list_res_1 /\ In r2 list_res_2
         /\ total_charge (particle_types b) =
            total_charge (incoming_types self)
         /\ min_mass_kinematic r1 + mass r2 + 1E-3 <= sqrt_s_ self
         /\ exists twoI,
              In twoI (I_tot_range (type (incoming_0 self))
                         (type (incoming_1 self)))
              /\ nn_to_resonance_matrix_element (sqrt_s_ self) r1 r2 twoI > 0)
    (find_nn_xsection_from_type self list_res_1 list_res_2 integrator).
Proof.
  unfold find_nn_xsection_from_type. cbv zeta.
  apply fold_left_Forall; [constructor |]. intros acc1 r1 Hin1 Hacc1.
  apply fold_left_Forall; [assumption |]. intros acc2 r2 Hin2 Hacc2.
  destruct (Z.eqb_spec (charge r1 + charge r2)
              (charge (type (incoming_0 self)) +
               charge (type (incoming_1 self)))) as [Hq | Hq];
    cbn [negb]; [| assumption].
  apply fold_left_Forall; [assumption |]. intros acc3 twoI Hin3 Hacc3.
  destruct (Rltb_spec (Rabs (isospin_clebsch_gordan_sqr_2to2
              (type (incoming_0 self)) (type (incoming_1 self)) r1 r2 twoI))
              really_small); [assumption |].
  destruct (Rltb_spec (sqrt_s_ self - mass r2 - min_mass_kinematic r1) 1E-3)
    as [Hth | Hth]; [assumption |].
  destruct (Rleb_spec
              (nn_to_resonance_matrix_element (sqrt_s_ self) r1 r2 twoI) 0)
    as [Hme | Hme]; [assumption |].
  match goal with
  | |- Forall _ (if Rltb ?x ?y then _ else _) =>
      destruct (Rltb_spec x y) as [Hxs | Hxs]; [| assumption]
  end.
  apply Forall_snoc; [assumption |].
  exists r1, r2. unfold branch2; cbn [particle_types].
  unfold total_charge, incoming_types; cbn [fold_right].
  rewrite !Z.add_0_r.
  repeat split; try assumption; [lra |].
  exists twoI. split; [assumption | lra].
Qed.

End Conservation.

Section ConservationOfTheScans.

Context {K : pdg.Constants} {PM : Pdg.Methods} {Reg : Registry}
        {Par : Parametrizations} {Hlp : Helpers} {Rnd : Random}.

(** X4.  Every branch of [nn_xx], whatever the bitset, has two products whose
    charges add up to the charge of the incoming pair; it opens at least
    1 MeV above min_mass_kinematic(R1) + mass(R2), and its matrix element is
    positive at one of the total isospins of the pair. *)
Theorem nn_xx_conserves_charge (self : cross_sections)
    (included_2to2 : ReactionsBitSet) :
  Forall
    (fun b =>
       exists r1 r2,
         particle_types b = [r1; r2]
         /\ total_charge (particle_types b) =
            total_charge (incoming_types self)
         /\ min_mass_kinematic r1 + mass r2 + 1E-3 <= sqrt_s_ self
         /\ exists twoI,
              In twoI (I_tot_range (type (incoming_0 self))
                         (type (incoming_1 self)))
              /\ nn_to_resonance_matrix_element (sqrt_s_ self) r1 r2 twoI > 0)
    (nn_xx self included_2to2).
Proof.
  assert (Hscan : forall l1 l2 integrator,
    Forall
      (fun b =>
         exists r1 r2,
           particle_types b = [r1; r2]
           /\ total_charge (particle_types b) =
              total_charge (incoming_types self)
           /\ min_mass_kinematic r1 + mass r2 + 1E-3 <= sqrt_s_ self
           /\ exists twoI,
                In twoI (I_tot_range (type (incoming_0 self))
                           (type (incoming_1 self)))
                /\ nn_to_resonance_matrix_element (sqrt_s_ self) r1 r2 twoI
                   > 0)
      (find_nn_xsection_from_type self l1 l2 integrator)).
  { intros l1 l2 integrator.
    eapply Forall_impl;
      [| apply find_nn_xsection_from_type_conserves].
    intros b (r1 & r2 & Hb & _ & _ & Hq & Hth & Hme).
    exists r1, r2. auto. }
  unfold nn_xx. cbv zeta.
  destruct (try_find (Pdg.from_decimal pdg.decimal_d));
    [destruct (try_find (Pdg.from_decimal pdg.decimal_antid));
     [destruct (try_find pdg.pi_m);
      [destruct (try_find pdg.pi_z);
       [destruct (try_find pdg.pi_p) |] |] |] |];
  destruct (test included_2to2 NN_to_NR);
  destruct (test included_2to2 NN_to_DR);
  cbn [app];
  repeat (apply Forall_app; split); try apply Hscan; constructor.
Qed.

Lemma bar_bar_to_nuc_nuc_conserves (self : cross_sections)
    (is_anti_particles : bool) :
  Forall
    (fun b =>
       exists nuc_a nuc_b,
         particle_types b = [nuc_a; nuc_b]
         /\ In nuc_a (if is_anti_particles then list_anti_nucleons
                      else list_nucleons)
         /\ In nuc_b (if is_anti_particles then list_anti_nucleons
                      else list_nucleons)
         /\ total_charge (particle_types b) =
            total_charge (incoming_types self)
         /\ exists twoI,
              nn_to_resonance_matrix_element (sqrt_s_ self)
                (type (incoming_0 self)) (type (incoming_1 self)) twoI > 0)
    (bar_bar_to_nuc_nuc self is_anti_particles).
Proof.
  unfold bar_bar_to_nuc_nuc. cbv zeta.
  apply fold_left_Forall; [constructor |]. intros acc1 r1 Hin1 Hacc1.
  apply fold_left_Forall; [assumption |]. intros acc2 r2 Hin2 Hacc2.
  destruct (Z.eqb_spec
              (charge (type (incoming_0 self)) +
               charge (type (incoming_1 self)))
              (charge r1 + charge r2)) as [Hq | Hq];
    cbn [negb]; [| assumption].
  apply fold_left_Forall; [assumption |]. intros acc3 twoI Hin3 Hacc3.
  destruct (Rltb_spec (Rabs (isospin_clebsch_gordan_sqr_2to2
              (type (incoming_0 self)) (type (incoming_1 self)) r1 r2 twoI))
              really_small); [assumption |].
  destruct (Rleb_spec
              (nn_to_resonance_matrix_element (sqrt_s_ self)
                 (type (incoming_0 self)) (type (incoming_1 self)) twoI) 0)
    as [Hme | Hme]; [assumption |].
  match goal with
  | |- Forall _ (if Rltb ?x ?y then _ else _) =>
      destruct (Rltb_spec x y) as [Hxs | Hxs]; [| assumption]
  end.
  apply Forall_snoc; [assumption |].
  exists r1, r2. unfold branch2; cbn [particle_types].
  unfold total_charge, incoming_types; cbn [fold_right].
  rewrite !Z.add_0_r.
  repeat split; try assumption; [symmetry; assumption |].
  exists twoI. lra.
Qed.

(** X5.  Every branch of [bb_xx_except_nn] is a pair of nucleons (of
    antinucleons when the first incoming particle is an antiparticle) with
    the charge of the incoming pair, and the matrix element of the incoming
    pair is positive at some isospin.  For opposite antiparticle signs and
    no nucleus the list is empty. *)
Theorem bb_xx_except_nn_to_nucleons (self : cross_sections)
    (included_2to2 : ReactionsBitSet) :
  let type_a := type (incoming_0 self) in
  let type_b := type (incoming_1 self) in
  let nucleons :=
    if (antiparticle_sign type_a =? -1)%Z then list_anti_nucleons
    else list_nucleons in
  Forall
    (fun b =>
       exists nuc_a nuc_b,
         particle_types b = [nuc_a; nuc_b]
         /\ In nuc_a nucleons /\ In nuc_b nucleons
         /\ total_charge (particle_types b) =
            total_charge (incoming_types self)
         /\ exists twoI,
              nn_to_resonance_matrix_element (sqrt_s_ self) type_a type_b
                twoI > 0)
    (bb_xx_except_nn self included_2to2)
  /\ ((antiparticle_sign type_a =? antiparticle_sign type_b)%Z = false ->
      is_nucleus type_a = false -> is_nucleus type_b = false ->
      bb_xx_except_nn self included_2to2 = []).
Proof.
  intros type_a type_b nucleons. split.
  - unfold bb_xx_except_nn. cbv zeta. fold type_a type_b.
    destruct (negb (antiparticle_sign type_a =? antiparticle_sign type_b)%Z
              && negb (is_nucleus type_a || is_nucleus type_b));
      [constructor |].
    destruct (is_nucleon type_a || is_nucleon type_b).
    + destruct (test included_2to2 NN_to_NR); [| constructor].
      apply bar_bar_to_nuc_nuc_conserves.
    + destruct (is_Delta type_a || is_Delta type_b); [| constructor].
      destruct (test included_2to2 NN_to_DR); [| constructor].
      apply bar_bar_to_nuc_nuc_conserves.
  - intros Hsign Ha Hb. unfold bb_xx_except_nn. cbv zeta.
    fold type_a type_b. rewrite Hsign, Ha, Hb. reflexivity.
Qed.

(** X6.  For a nucleon with a light nucleus, in either order, every branch of
    [dn_xx] is the incoming nucleon with a light nucleus of the registry
    other than the incoming one: charge and baryon number are conserved and
    the reaction is never elastic. *)
Theorem dn_xx_conserves_quantum_numbers (self : cross_sections)
    (bits : ReactionsBitSet) (type_N type_nucleus : ParticleType) :
  (type (incoming_0 self) = type_N /\ type (incoming_1 self) = type_nucleus)
  \/ (type (incoming_0 self) = type_nucleus
      /\ type (incoming_1 self) = type_N) ->
  is_nucleon type_N = true -> is_nucleus type_N = false ->
  is_nucleus type_nucleus = true -> is_nucleon type_nucleus = false ->
  Forall
    (fun b =>
       exists produced_nucleus,
         particle_types b = [type_N; produced_nucleus]
         /\ In produced_nucleus list_light_nuclei
         /\ type_eqb produced_nucleus type_nucleus = false
         /\ total_charge (particle_types b) =
            total_charge (incoming_types self)
         /\ total_baryon_number (particle_types b) =
            total_baryon_number (incoming_types self))
    (dn_xx self bits).
Proof.
  intros Hpair HN HNn Hd HdN.
  assert (HtN : (if is_nucleon (type (incoming_0 self))
                 then type (incoming_0 self) else type (incoming_1 self))
                = type_N).
  { destruct Hpair as [[-> ->] | [-> ->]];
      [rewrite HN | rewrite HdN]; reflexivity. }
  assert (Htd : (if is_nucleus (type (incoming_0 self))
                 then type (incoming_0 self) else type (incoming_1 self))
                = type_nucleus).
  { destruct Hpair as [[-> ->] | [-> ->]];
      [rewrite HNn | rewrite Hd]; reflexivity. }
  unfold dn_xx. cbv zeta. rewrite HtN, Htd.
  apply fold_left_Forall; [constructor |]. intros acc d' Hin Hacc.
  destruct (type_eqb d' type_nucleus) eqn:Hsame; cbn [orb];
    [assumption |].
  destruct (Z.eqb_spec (charge d') (charge type_nucleus)) as [Hq | Hq];
    cbn [negb orb]; [| assumption].
  destruct (Z.eqb_spec (baryon_number d') (baryon_number type_nucleus))
    as [Hb | Hb]; cbn [negb]; [| assumption].
  apply Forall_snoc; [assumption |].
  exists d'. unfold branch2; cbn [particle_types].
  unfold total_charge, total_baryon_number, incoming_types;
    cbn [fold_right]. rewrite !Z.add_0_r.
  repeat split; try assumption; try reflexivity;
    destruct Hpair as [[-> ->] | [-> ->]]; lia.
Qed.

End ConservationOfTheScans.

(** ** Totals, failures and the order of the pair *)

Section FacadeMore.

Context {K : pdg.Constants} {PM : Pdg.Methods} {Reg : Registry}
        {Par : Parametrizations} {Hlp : Helpers} {Rnd : Random}.

Lemma total_weight_app (l1 l2 : CollisionBranchList) :
  total_weight (l1 ++ l2) = total_weight l1 + total_weight l2.
Proof.
  unfold total_weight.
  induction l1 as [| b l1 IH]; cbn [app fold_right]; [lra |].
  rewrite IH. lra.
Qed.

Lemma sum_xs_of_app (l1 l2 : CollisionBranchList) :
  sum_xs_of (l1 ++ l2) = sum_xs_of l1 + sum_xs_of l2.
Proof. rewrite !sum_xs_of_total. apply total_weight_app. Qed.

(** X7.  Under the treatment [Resonances], the weights of the list of a
    nucleon with its own antiparticle add up to the larger of ppbar_total(s)
    and the sum of the weights of the other channels: the annihilation
    branch fills the total up and never lowers it. *)
Theorem NNbar_total_reaches_ppbar_total (self : cross_sections)
    (elastic_parameter : R) (two_to_one_switch : bool)
    (included_2to2 : ReactionsBitSet) (low_snn_cut : R)
    (strings_switch : bool) (string_process : option StringProcess)
    (w w' : World) (l : CollisionBranchList) :
  let t1 := type (incoming_0 self) in
  let t2 := type (incoming_1 self) in
  let s := sqrt_s_ self * sqrt_s_ self in
  is_nucleon t1 = true ->
  pdgcode t2 = pdgcode (get_antiparticle t1) ->
  pdgcode t1 <> pdg.rho_z ->
  pdgcode t1 <> pdg.h1 ->
  generate_collision_list self elastic_parameter two_to_one_switch
    included_2to2 low_snn_cut strings_switch Resonances string_process w
  = Ok (l, w') ->
  exists before,
    generate_collision_list self elastic_parameter two_to_one_switch
      included_2to2 low_snn_cut strings_switch NoAnnihilation
      string_process w = Ok (before, w')
    /\ sum_xs_of l = Rmax (sum_xs_of before) (ppbar_total s).
Proof.
  intros t1 t2 s Hnucleon Hanti Hrho Hh1 Hrun.
  apply generate_collision_list_closure in Hrun. cbv zeta in Hrun.
  destruct Hrun as (before & mid & Hbefore & Hann & Hcre).
  fold t1 t2 in Hann, Hcre.
  rewrite Hnucleon, Hanti, Z.eqb_refl in Hann. cbn [andb] in Hann.
  destruct Hann as (b & Hb & ->).
  apply Z.eqb_neq in Hrho, Hh1. rewrite Hrho, Hh1 in Hcre.
  cbn [andb orb] in Hcre. subst l.
  exists before. split; [exact Hbefore |].
  unfold NNbar_annihilation in Hb. cbv zeta in Hb.
  apply Res_bind_Ok in Hb. destruct Hb as (type_h1 & _ & Hb).
  apply Res_bind_Ok in Hb. destruct Hb as (type_rho_z & _ & Hb).
  inversion Hb; subst b. fold s.
  rewrite sum_xs_of_app.
  replace (sum_xs_of [branch2 type_h1 type_rho_z
             (Rmax 0 (ppbar_total s - sum_xs_of before)) TwoToTwo])
    with (Rmax 0 (ppbar_total s - sum_xs_of before))
    by (unfold sum_xs_of, branch2; cbn; lra).
  unfold Rmax.
  destruct (Rle_dec 0 (ppbar_total s - sum_xs_of before));
    destruct (Rle_dec (sum_xs_of before) (ppbar_total s)); lra.
Qed.

Lemma decide_string_off (self : cross_sections) (both_are_nucleons : bool)
    (w : World) :
  decide_string self false both_are_nucleons w = Ok (false, w).
Proof.
  unfold decide_string. cbv zeta.
  destruct both_are_nucleons; [reflexivity |].
  destruct ((Pdg.is_pion (pdgcode (type (incoming_0 self)))
             && is_nucleon (type (incoming_1 self)))
            || (is_nucleon (type (incoming_0 self))
                && Pdg.is_pion (pdgcode (type (incoming_1 self)))));
    reflexivity.
Qed.

(** X8.  [NNbar_creation] raises nothing but [PdgNotFoundFailure], for one of
    p, pbar, n, nbar that the registry lacks.  A missing proton fails at any
    energy: it is looked up before the threshold test.  Below the threshold
    the list is empty, whether the registry has neutrons or not. *)
Theorem NNbar_creation_failures (self : cross_sections) :
  (forall e, NNbar_creation self = Throw e ->
     exists c,
       e = PdgNotFoundFailure c /\ try_find c = None
       /\ In c [pdg.p; (- pdg.p)%Z; pdg.n; (- pdg.n)%Z])
  /\ (try_find pdg.p = None ->
      NNbar_creation self = Throw (PdgNotFoundFailure pdg.p))
  /\ (forall type_N type_Nbar,
        try_find pdg.p = Some type_N ->
        try_find (- pdg.p)%Z = Some type_Nbar ->
        sqrt_s_ self < 2 * mass type_N ->
        NNbar_creation self = Ok []).
Proof.
  unfold NNbar_creation, find. cbv zeta. repeat split.
  - intros e.
    destruct (try_find pdg.p) as [tp |] eqn:Hp; cbn [Res_bind].
    2: { intros H; inversion H. exists pdg.p. cbn [In]. auto 10. }
    destruct (try_find (- pdg.p)%Z) as [tpb |] eqn:Hpb; cbn [Res_bind].
    2: { intros H; inversion H. exists (- pdg.p)%Z. cbn [In]. auto 10. }
    destruct (sqrt_s_ self - 2 * mass tp <? 0); [discriminate |].
    destruct (try_find pdg.n) as [tn |] eqn:Hn; cbn [Res_bind].
    2: { intros H; inversion H. exists pdg.n. cbn [In]. auto 10. }
    destruct (try_find (- pdg.n)%Z) as [tnb |] eqn:Hnb; cbn [Res_bind].
    2: { intros H; inversion H. exists (- pdg.n)%Z. cbn [In]. auto 10. }
    discriminate.
  - intros ->. reflexivity.
  - intros type_N type_Nbar -> -> Hth. cbn [Res_bind].
    rewrite Rltb_true by lra. reflexivity.
Qed.

(** X9.  When being the antiparticle of is a symmetric relation of the
    codes, [high_energy] and [string_hard_cross_section] do not depend on
    the order of the incoming particles. *)
Theorem high_energy_order_independent (a b : ParticleData) (sqrts : R) :
  (forall x y, Pdg.is_antiparticle_of x y = Pdg.is_antiparticle_of y x) ->
  high_energy (mk_cross_sections a b sqrts) =
  high_energy (mk_cross_sections b a sqrts)
  /\ string_hard_cross_section (mk_cross_sections a b sqrts) =
     string_hard_cross_section (mk_cross_sections b a sqrts).
Proof.
  intros Hanti. split.
  - unfold high_energy. cbv zeta. cbn [incoming_0 incoming_1 sqrt_s_].
    rewrite (Hanti (pdgcode (type b))).
    rewrite (Z.eqb_sym (pdgcode (type b)) (pdgcode (type a))).
    rewrite (Z.mul_comm (Pdg.antiparticle_sign (pdgcode (type b)))).
    rewrite (andb_comm (Pdg.is_baryon (pdgcode (type b)))).
    destruct (pdgcode (type a) =? pdg.pi_p)%Z,
             (pdgcode (type b) =? pdg.p)%Z,
             (pdgcode (type b) =? pdg.pi_p)%Z,
             (pdgcode (type a) =? pdg.p)%Z,
             (pdgcode (type a) =? pdg.pi_m)%Z,
             (pdgcode (type b) =? pdg.n)%Z,
             (pdgcode (type b) =? pdg.pi_m)%Z,
             (pdgcode (type a) =? pdg.n)%Z; reflexivity.
  - unfold string_hard_cross_section. cbv zeta.
    cbn [incoming_0 incoming_1 sqrt_s_].
    destruct (is_baryon (type a)), (is_baryon (type b)); reflexivity.
Qed.

End FacadeMore.

(** ** The choice of strings and the edges of the string routine *)

Section StringChoice.

Context {K : pdg.Constants} {PM : Pdg.Methods} {Reg : Registry}
        {Par : Parametrizations} {Hlp : Helpers} {Rnd : Random}.

(** X10.  [decide_string] never raises.  With strings switched off, or for a
    pair that is neither two nucleons nor a pion with a nucleon, it answers
    false without a draw.  Otherwise it answers false up to the lower edge
    of the mixing window (4.0 GeV for two nucleons, 2.3 GeV for a pion with
    a nucleon) and true above the upper edge (5.0, 3.1), both without a
    draw; inside the window it draws one number u and answers whether
    (sqrt_s - lower) / (upper - lower) > u. *)
Theorem decide_string_window (self : cross_sections)
    (strings_switch both_are_nucleons : bool) (w : World) :
  let t1 := type (incoming_0 self) in
  let t2 := type (incoming_1 self) in
  let pion_nucleon :=
    (Pdg.is_pion (pdgcode t1) && is_nucleon t2)
    || (is_nucleon t1 && Pdg.is_pion (pdgcode t2)) in
  let lower := if both_are_nucleons then 4.0 else 2.3 in
  let upper := if both_are_nucleons then 5.0 else 3.1 in
  (strings_switch && (both_are_nucleons || pion_nucleon) = false ->
   decide_string self strings_switch both_are_nucleons w = Ok (false, w))
  /\ (strings_switch && (both_are_nucleons || pion_nucleon) = true ->
      (sqrt_s_ self <= lower ->
       decide_string self strings_switch both_are_nucleons w = Ok (false, w))
      /\ (upper < sqrt_s_ self ->
          decide_string self strings_switch both_are_nucleons w
          = Ok (true, w))
      /\ (lower < sqrt_s_ self <= upper ->
          decide_string self strings_switch both_are_nucleons w =
          Ok ((sqrt_s_ self - lower) / (upper - lower)
                >? uniform_stream (draws w),
              mkWorld (S (draws w)) (subproc w)))).
Proof.
  cbv zeta. unfold decide_string. cbv zeta.
  destruct both_are_nucleons; cbn [orb].
  - destruct strings_switch; cbn [andb]; split; try discriminate;
      try (intros _; reflexivity).
    intros _. refine (conj _ (conj _ _)); intros H.
    + rewrite Rltb_false by lra. rewrite Rltb_false by lra. reflexivity.
    + rewrite Rltb_true by lra. reflexivity.
    + rewrite Rltb_false by lra. rewrite Rltb_true by lra.
      unfold M_bind, Random_uniform01, M_ret.
      replace ((sqrt_s_ self - 4.5 + 0.5) / 0.5 / 2.0)
        with ((sqrt_s_ self - 4.0) / (5.0 - 4.0)) by lra.
      reflexivity.
  - destruct ((Pdg.is_pion (pdgcode (type (incoming_0 self)))
               && is_nucleon (type (incoming_1 self)))
              || (is_nucleon (type (incoming_0 self))
                  && Pdg.is_pion (pdgcode (type (incoming_1 self)))));
      destruct strings_switch; cbn [andb]; split; try discriminate;
      try (intros _; reflexivity).
    intros _. refine (conj _ (conj _ _)); intros H.
    + rewrite Rltb_false by lra. rewrite Rltb_false by lra. reflexivity.
    + rewrite Rltb_true by lra. reflexivity.
    + rewrite Rltb_false by lra. rewrite Rltb_true by lra.
      unfold M_bind, Random_uniform01, M_ret.
      replace ((sqrt_s_ self - 2.7 + 0.4) / 0.4 / 2.0)
        with ((sqrt_s_ self - 2.3) / (3.1 - 2.3)) by lra.
      reflexivity.
Qed.

(** X11.  [string_excitation] passes on the failure of the elastic
    parametrization; it returns the empty list, without a draw and whatever
    the generator pointer, when high_energy does not exceed the elastic
    value; and it raises "string_process should be initialized." when it
    does and the pointer is null. *)
Theorem string_excitation_edges (self : cross_sections) (w : World) :
  (forall e string_process,
     elastic_parametrization self = Throw e ->
     string_excitation self string_process w = Throw e)
  /\ (forall el string_process,
        elastic_parametrization self = Ok el ->
        high_energy self <= el ->
        string_excitation self string_process w = Ok ([], w))
  /\ (forall el,
        elastic_parametrization self = Ok el ->
        el < high_energy self ->
        string_excitation self None w =
        Throw (runtime_error
                 [Text "string_process should be initialized."])).
Proof.
  unfold string_excitation. cbv zeta. refine (conj _ (conj _ _)).
  - intros e sp He. unfold M_bind, lift. rewrite He. reflexivity.
  - intros el sp Hel Hle. unfold M_bind at 1, lift at 1. rewrite Hel.
    rewrite Rmax_left by lra. rewrite Rltb_false by lra. reflexivity.
  - intros el Hel Hlt. unfold M_bind at 1, lift at 1. rewrite Hel.
    rewrite Rmax_right by lra. rewrite Rltb_true by lra. reflexivity.
Qed.

End StringChoice.

(** ** The string routine on a generator with room *)

Section StringsWithRoom.

Context {K : pdg.Constants} {PM : Pdg.Methods} {Reg : Registry}
        {Par : Parametrizations} {Hlp : Helpers} {Rnd : Random}.

(** The budget when the generator's diffractive cross sections are
    non-negative and leave room for a non-diffractive part. *)
Lemma string_budget_with_room (S AX XB DD hard : R) :
  0 <= AX -> 0 <= XB -> 0 < AX + XB -> 0 <= DD ->
  AX + XB + DD < S -> 0 <= hard ->
  (forall x, x <= 0 -> 0 < std_exp x <= 1) ->
  let b := string_budget S (AX, XB, DD) hard in
  single_diffr_AX b = AX /\ single_diffr_XB b = XB /\ double_diffr b = DD
  /\ nondiffractive_all b = S - (AX + XB + DD)
  /\ 0 < nondiffractive_soft b
  /\ 0 <= nondiffractive_hard b
  /\ sig_string_soft b = S - nondiffractive_hard b
  /\ 0 < sig_string_soft b.
Proof.
  intros HAX HXB Hsingle HDD Hroom Hhard Hexp.
  unfold string_budget. cbv zeta.
  cbn [single_diffr_AX single_diffr_XB double_diffr nondiffractive_all
       nondiffractive_soft nondiffractive_hard sig_string_soft].
  rewrite (Rmax_right 0 (S - (AX + XB + DD))) by lra.
  set (nd := S - (AX + XB + DD)).
  replace (S - nd - (AX + XB)) with DD by (unfold nd; lra).
  rewrite (Rmax_right 0 DD) by lra.
  replace ((S - nd - DD) / (AX + XB)) with 1 by (unfold nd; field; lra).
  assert (Hnd : 0 < nd) by (unfold nd; lra).
  assert (Harg : - hard / nd <= 0).
  { unfold Rdiv. rewrite <- Ropp_mult_distr_l.
    assert (0 <= hard * / nd).
    { apply Rmult_le_pos; [lra |]. left. apply Rinv_0_lt_compat. lra. }
    lra. }
  destruct (Hexp _ Harg) as [He0 He1].
  set (e := std_exp (- hard / nd)) in *.
  assert (0 < nd * e) by (apply Rmult_lt_0_compat; lra).
  assert (nd * e <= nd) by nra.
  assert (nd <= S) by (unfold nd; lra).
  repeat split; try lra.
Qed.

(** The selection loop finds the bucket of the running sums that holds
    [r_xsec]. *)
Lemma select_soft_subprocess_found (x0 x1 x2 x3 x4 r_xsec : R) :
  0 <= x0 -> 0 <= x1 -> 0 <= x2 -> 0 <= x3 ->
  0 <= r_xsec < x0 + x1 + x2 + x3 ->
  let sums := sub_cross_sections_sum 0 [x0; x1; x2; x3; x4] in
  exists i,
    (i < 4)%nat
    /\ select_soft_subprocess 0 4 sums r_xsec = StringSoftType_of_index i
    /\ nth i sums 0 <= r_xsec < nth (Datatypes.S i) sums 0.
Proof.
  intros H0 H1 H2 H3 Hr. cbv zeta.
  cbn [sub_cross_sections_sum select_soft_subprocess nth].
  destruct (Rlt_dec r_xsec (0 + x0)) as [Ha | Ha].
  { exists 0%nat. rewrite Rleb_true, Rltb_true by lra. cbn [andb nth].
    split; [lia |]. split; [reflexivity | lra]. }
  rewrite (Rltb_false r_xsec (0 + x0)) by lra. rewrite andb_false_r.
  destruct (Rlt_dec r_xsec (0 + x0 + x1)) as [Hb | Hb].
  { exists 1%nat. rewrite Rleb_true, Rltb_true by lra. cbn [andb nth].
    split; [lia |]. split; [reflexivity | lra]. }
  rewrite (Rltb_false r_xsec (0 + x0 + x1)) by lra. rewrite andb_false_r.
  destruct (Rlt_dec r_xsec (0 + x0 + x1 + x2)) as [Hc | Hc].
  { exists 2%nat. rewrite Rleb_true, Rltb_true by lra. cbn [andb nth].
    split; [lia |]. split; [reflexivity | lra]. }
  rewrite (Rltb_false r_xsec (0 + x0 + x1 + x2)) by lra.
  rewrite andb_false_r.
  exists 3%nat. rewrite Rleb_true, Rltb_true by lra. cbn [andb nth].
  split; [lia |]. split; [reflexivity | lra].
Qed.

Lemma StringSoftType_of_index_specified (i : nat) :
  (i < 4)%nat -> StringSoftType_of_index i <> NoneSoft.
Proof.
  intros Hi. destruct i as [| [| [| [| i]]]]; cbn; try discriminate. lia.
Qed.

(** X12.  When the generator's diffractive cross sections are non-negative
    with AX + XB > 0 and leave room for a non-diffractive part, the hard
    cross section is non-negative, the exponential is within (0, 1] on
    non-positive arguments and the draw is in [0, 1), [string_excitation]
    returns: it consumes exactly one draw and sets the sub-process to the
    one of the four soft ones whose interval of the running sums holds
    r_xsec, so the failure "soft string subprocess is not specified." does
    not occur. *)
Theorem string_excitation_selects_a_subprocess (self : cross_sections)
    (gen : StringProcess) (w : World) (el AX XB DD : R) :
  let S := Rmax 0 (high_energy self - el) in
  let b := string_budget S (AX, XB, DD) (string_hard_cross_section self) in
  let sums :=
    sub_cross_sections_sum 0
      [single_diffr_AX b; single_diffr_XB b; double_diffr b;
       nondiffractive_soft b; nondiffractive_hard b] in
  let r_xsec := nth 4 sums 0 * uniform_stream (draws w) in
  elastic_parametrization self = Ok el ->
  cross_sections_diffractive gen
    (pdgid_for_strings (type (incoming_0 self)))
    (pdgid_for_strings (type (incoming_1 self))) (sqrt_s_ self)
  = (AX, XB, DD) ->
  0 <= AX -> 0 <= XB -> 0 < AX + XB -> 0 <= DD -> AX + XB + DD < S ->
  0 <= string_hard_cross_section self ->
  (forall x, x <= 0 -> 0 < std_exp x <= 1) ->
  0 <= uniform_stream (draws w) < 1 ->
  exists l i,
    string_excitation self (Some gen) w =
    Ok (l, mkWorld (Datatypes.S (draws w)) (StringSoftType_of_index i))
    /\ (i < 4)%nat
    /\ nth i sums 0 <= r_xsec < nth (Datatypes.S i) sums 0.
Proof.
  intros S b sums r_xsec Hel Hxs HAX HXB Hsingle HDD Hroom Hhard Hexp Hu.
  destruct (string_budget_with_room S AX XB DD _ HAX HXB Hsingle HDD Hroom
              Hhard Hexp)
    as (HbAX & HbXB & HbDD & Hnd & Hsoft & Hhardnd & Hsig & Hsigpos).
  fold b in HbAX, HbXB, HbDD, Hnd, Hsoft, Hhardnd, Hsig, Hsigpos.
  assert (Hfour : nth 4 sums 0 =
                  single_diffr_AX b + single_diffr_XB b + double_diffr b +
                  nondiffractive_soft b).
  { unfold sums. cbn [sub_cross_sections_sum nth]. lra. }
  assert (Hfourpos : 0 < nth 4 sums 0) by (rewrite Hfour; lra).
  assert (Hr : 0 <= r_xsec <
               single_diffr_AX b + single_diffr_XB b + double_diffr b +
               nondiffractive_soft b).
  { rewrite <- Hfour. unfold r_xsec. split.
    - apply Rmult_le_pos; lra.
    - rewrite <- (Rmult_1_r (nth 4 sums 0)) at 2.
      apply Rmult_lt_compat_l; lra. }
  destruct (select_soft_subprocess_found
              (single_diffr_AX b) (single_diffr_XB b) (double_diffr b)
              (nondiffractive_soft b) (nondiffractive_hard b) r_xsec)
    as (i & Hi & Hsel & Hbucket); try lra.
  fold sums in Hsel, Hbucket.
  assert (HS : S > 0) by lra.
  pose proof (string_excitation_runs self gen w el Hel) as Hrun.
  cbv zeta in Hrun. fold S in Hrun. rewrite Hxs in Hrun. fold b in Hrun.
  fold sums in Hrun. fold r_xsec in Hrun. rewrite Hsel in Hrun.
  specialize (Hrun HS (StringSoftType_of_index_specified i Hi)).
  eexists _, i. split; [exact Hrun |]. split; assumption.
Qed.

(** X13.  Under the same conditions on the generator, the weights of the
    branches [string_excitation] returns are positive and add up to
    sig_string_all = max(0, high_energy - elastic), and a StringSoft branch
    is among them. *)
Theorem string_excitation_carries_the_total (self : cross_sections)
    (gen : StringProcess) (w w' : World) (l : CollisionBranchList)
    (el AX XB DD : R) :
  let S := Rmax 0 (high_energy self - el) in
  elastic_parametrization self = Ok el ->
  cross_sections_diffractive gen
    (pdgid_for_strings (type (incoming_0 self)))
    (pdgid_for_strings (type (incoming_1 self))) (sqrt_s_ self)
  = (AX, XB, DD) ->
  0 <= AX -> 0 <= XB -> 0 < AX + XB -> 0 <= DD -> AX + XB + DD < S ->
  0 <= string_hard_cross_section self ->
  (forall x, x <= 0 -> 0 < std_exp x <= 1) ->
  string_excitation self (Some gen) w = Ok (l, w') ->
  sum_xs_of l = S
  /\ Forall (fun b => weight b > 0) l
  /\ exists soft, In (branch0 soft StringSoft) l.
Proof.
  intros S Hel Hxs HAX HXB Hsingle HDD Hroom Hhard Hexp Hrun.
  destruct (string_budget_with_room S AX XB DD _ HAX HXB Hsingle HDD Hroom
              Hhard Hexp)
    as (_ & _ & _ & _ & _ & Hhardnd & Hsig & Hsigpos).
  apply string_excitation_inversion in Hrun.
  destruct Hrun as (el' & Hel' & Hrun). rewrite Hel in Hel'.
  inversion Hel'; subst el'. cbv zeta in Hrun. fold S in Hrun.
  destruct Hrun as [_ Hrun].
  destruct Hrun as (gen' & Hgen & Hl); [lra |].
  inversion Hgen; subst gen'. rewrite Hxs in Hl.
  set (b := string_budget S (AX, XB, DD) (string_hard_cross_section self))
    in *.
  rewrite (Rltb_true 0 (sig_string_soft b)) in Hl by lra.
  revert Hl.
  destruct (Rltb_spec 0 (nondiffractive_hard b)) as [Hpos | Hzero];
    intros ->; cbn [app]; rewrite sum_xs_of_total; unfold total_weight;
    unfold branch0; cbn [fold_right weight].
  - split; [lra |]. split.
    + apply Forall_cons; [cbn [weight]; lra |].
      apply Forall_cons; [cbn [weight]; lra | apply Forall_nil].
    + exists (sig_string_soft b). left. reflexivity.
  - split; [lra |]. split.
    + apply Forall_cons; [cbn [weight]; lra | apply Forall_nil].
    + exists (sig_string_soft b). left. reflexivity.
Qed.

End StringsWithRoom.

(** ** The facade without strings *)

Section FacadeWithoutStrings.

Context {K : pdg.Constants} {PM : Pdg.Methods} {Reg : Registry}
        {Par : Parametrizations} {Hlp : Helpers} {Rnd : Random}.

Lemma generate_collision_list_off_any_world (self : cross_sections)
    (elastic_parameter : R) (two_to_one_switch : bool)
    (included_2to2 : ReactionsBitSet) (low_snn_cut : R)
    (nnbar_treatment : NNbarTreatment)
    (string_process other_process : option StringProcess)
    (w w' other_world : World) (l : CollisionBranchList) :
  generate_collision_list self elastic_parameter two_to_one_switch
    included_2to2 low_snn_cut false nnbar_treatment string_process w
  = Ok (l, w') ->
  w' = w
  /\ generate_collision_list self elastic_parameter two_to_one_switch
       included_2to2 low_snn_cut false nnbar_treatment other_process
       other_world = Ok (l, other_world).
Proof.
  unfold generate_collision_list. cbv zeta.
  rewrite (M_bind_run _ _ w w false (decide_string_off _ _ w)).
  rewrite (M_bind_run _ _ other_world other_world false
             (decide_string_off _ _ other_world)). unfold M_bind, M_ret, lift.
  repeat match goal with
  | |- context [match ?c with _ => _ end] =>
      match c with
      | context [match _ with _ => _ end] => fail 1
      | _ => destruct c
      end
  end; intros Hrun; try discriminate Hrun;
  inversion Hrun; subst; split; reflexivity.
Qed.

Lemma elastic_is_Elastic (self : cross_sections) (elast_par : R)
    (el : CollisionBranch) :
  elastic self elast_par = Ok el -> get_type el = Elastic.
Proof.
  unfold elastic. intros H. apply Res_bind_Ok in H.
  destruct H as (xs & _ & H). inversion H. reflexivity.
Qed.

Lemma NNbar_annihilation_is_TwoToTwo (self : cross_sections) (current_xs : R)
    (b : CollisionBranch) :
  NNbar_annihilation self current_xs = Ok b -> get_type b = TwoToTwo.
Proof.
  unfold NNbar_annihilation. cbv zeta. intros H. follow_body. reflexivity.
Qed.

Lemma NNbar_creation_is_TwoToTwo (self : cross_sections)
    (l : CollisionBranchList) :
  NNbar_creation self = Ok l -> Forall (fun b => get_type b = TwoToTwo) l.
Proof.
  unfold NNbar_creation. cbv zeta. intros H. follow_body.
  - constructor.
  - cbn [app]. repeat (apply Forall_cons; [reflexivity |]). apply Forall_nil.
Qed.

Lemma two_to_two_is_TwoToTwo (self : cross_sections)
    (bits : ReactionsBitSet) (l : CollisionBranchList) :
  two_to_two self bits = Ok l -> Forall (fun b => get_type b = TwoToTwo) l.
Proof.
  intros H. eapply Forall_impl; [| eapply two_to_two_shape; exact H].
  intros b [[Hb _] | [Hb _]]; exact Hb.
Qed.

(** X14.  With strings switched off the facade is a pure function of the pair
    and the policy: it leaves the world as it found it, it returns the same
    list for every generator pointer and every world, and the list is the
    elastic branch (if any), then the branches of [two_to_one] (if switched
    on), then TwoToTwo branches only. *)
Theorem generate_collision_list_without_strings (self : cross_sections)
    (elastic_parameter : R) (two_to_one_switch : bool)
    (included_2to2 : ReactionsBitSet) (low_snn_cut : R)
    (nnbar_treatment : NNbarTreatment)
    (string_process : option StringProcess) (w w' : World)
    (l : CollisionBranchList) :
  generate_collision_list self elastic_parameter two_to_one_switch
    included_2to2 low_snn_cut false nnbar_treatment string_process w
  = Ok (l, w') ->
  w' = w
  /\ (forall other_process other_world,
        generate_collision_list self elastic_parameter two_to_one_switch
          included_2to2 low_snn_cut false nnbar_treatment other_process
          other_world = Ok (l, other_world))
  /\ exists l_el l_22,
       l = l_el ++
           (if two_to_one_switch then two_to_one self else []) ++ l_22
       /\ (l_el = []
           \/ exists el,
                elastic self elastic_parameter = Ok el /\ l_el = [el])
       /\ Forall (fun b => get_type b = TwoToTwo) l_22.
Proof.
  intros Hrun. split.
  { exact (proj1 (generate_collision_list_off_any_world _ _ _ _ _ _ _ None
                    _ _ w _ Hrun)). }
  split.
  { intros other_process other_world.
    exact (proj2 (generate_collision_list_off_any_world _ _ _ _ _ _ _ _
                    _ _ _ _ Hrun)). }
  unfold generate_collision_list in Hrun. cbv zeta in Hrun.
  rewrite (M_bind_run _ _ w w false (decide_string_off _ _ w)) in Hrun.
  apply M_bind_Ok in Hrun. destruct Hrun as (pl1 & w2 & Hel & Hrun).
  apply M_bind_Ok in Hrun. destruct Hrun as (pl2 & w3 & Hmid & Hrun).
  assert (H1 : pl1 = []
               \/ exists el,
                    elastic self elastic_parameter = Ok el /\ pl1 = [el]).
  { split_run Hel.
    - repeat run_step. right. eexists. split; [eassumption | reflexivity].
    - run_step. left. reflexivity. }
  set (l_21 := if two_to_one_switch then two_to_one self else []).
  assert (H2 : exists m, pl2 = pl1 ++ l_21 ++ m
                         /\ Forall (fun b => get_type b = TwoToTwo) m).
  { assert (H21 : (if two_to_one_switch
                   then append_list pl1 (two_to_one self) else pl1)
                  = pl1 ++ l_21).
    { unfold l_21, append_list. destruct two_to_one_switch;
        [reflexivity | rewrite app_nil_r; reflexivity]. }
    cbv beta iota in Hmid. rewrite H21 in Hmid. split_run Hmid.
    - repeat run_step. unfold append_list. rewrite <- app_assoc.
      eexists. split; [reflexivity |].
      eapply two_to_two_is_TwoToTwo; eassumption.
    - run_step. exists []. rewrite app_nil_r. split;
        [reflexivity | constructor]. }
  destruct H2 as (m & -> & Hm).
  assert (H3 : exists c, l = (pl1 ++ l_21 ++ m) ++ c
                         /\ Forall (fun b => get_type b = TwoToTwo) c).
  { destruct nnbar_treatment;
      try (run_step; exists []; rewrite app_nil_r; split;
           [reflexivity | constructor]).
    apply M_bind_Ok in Hrun. destruct Hrun as (pl3 & w4 & Hann & Hrun).
    assert (H3 : exists c1, pl3 = (pl1 ++ l_21 ++ m) ++ c1
                   /\ Forall (fun b => get_type b = TwoToTwo) c1).
    { split_run Hann.
      - repeat run_step. eexists. split; [reflexivity |].
        apply Forall_cons; [| apply Forall_nil].
        eapply NNbar_annihilation_is_TwoToTwo; eassumption.
      - run_step. exists []. rewrite app_nil_r. split;
          [reflexivity | constructor]. }
    destruct H3 as (c1 & -> & Hc1).
    split_run Hrun.
    - repeat run_step. unfold append_list.
      exists (c1 ++ x). rewrite <- !app_assoc. split; [reflexivity |].
      apply Forall_app. split; [exact Hc1 |].
      eapply NNbar_creation_is_TwoToTwo; eassumption.
    - run_step. exists c1. split; [reflexivity | exact Hc1]. }
  destruct H3 as (c & -> & Hc).
  exists pl1, (m ++ c). split; [rewrite <- !app_assoc; reflexivity |].
  split; [exact H1 |]. apply Forall_app. split; assumption.
Qed.

End FacadeWithoutStrings.

(** ** The facade with strings *)

Section FacadeWithStrings.

Context {K : pdg.Constants} {PM : Pdg.Methods} {Reg : Registry}
        {Par : Parametrizations} {Hlp : Helpers} {Rnd : Random}.

Lemma decide_string_above_the_window (self : cross_sections) (w : World) :
  5.0 < sqrt_s_ self -> decide_string self true true w = Ok (true, w).
Proof.
  intros Hhigh. unfold decide_string. cbv zeta. cbn [andb].
  rewrite Rltb_true by lra. reflexivity.
Qed.

Lemma string_excitation_branches (self : cross_sections)
    (string_process : option StringProcess) (w w' : World)
    (l : CollisionBranchList) :
  string_excitation self string_process w = Ok (l, w') ->
  Forall (fun b => get_type b = StringSoft \/ get_type b = StringHard) l.
Proof.
  intros Hrun. apply string_excitation_inversion in Hrun.
  destruct Hrun as (el & _ & Hlow & Hhigh).
  destruct (Rle_or_lt (Rmax 0 (high_energy self - el)) 0) as [HS | HS].
  - rewrite (Hlow HS). constructor.
  - destruct (Hhigh HS) as (gen & _ & Hl). cbv zeta in Hl. subst l.
    apply Forall_app. split; split_tests; try apply Forall_nil;
      (apply Forall_cons; [| apply Forall_nil]); cbn [get_type branch0];
      auto.
Qed.

(** X30.  For two nucleons above 5 GeV with strings switched on, the facade
    takes the string branch without a draw of its own: the list is the
    elastic branch (if any), then what [string_excitation] returns on the
    incoming world, whose world the facade hands back, then TwoToTwo
    branches only; the string branches are StringSoft or StringHard, and no
    resonance formation (TwoToOne) is listed, whatever the two_to_one
    switch. *)
Theorem generate_collision_list_with_strings (self : cross_sections)
    (elastic_parameter : R) (two_to_one_switch : bool)
    (included_2to2 : ReactionsBitSet) (low_snn_cut : R)
    (nnbar_treatment : NNbarTreatment)
    (string_process : option StringProcess) (w w' : World)
    (l : CollisionBranchList) :
  is_nucleon (type (incoming_0 self)) = true ->
  is_nucleon (type (incoming_1 self)) = true ->
  5.0 < sqrt_s_ self ->
  generate_collision_list self elastic_parameter two_to_one_switch
    included_2to2 low_snn_cut true nnbar_treatment string_process w
  = Ok (l, w') ->
  exists l_el l_string l_closure,
    l = l_el ++ l_string ++ l_closure
    /\ (l_el = []
        \/ exists el,
             elastic self elastic_parameter = Ok el /\ l_el = [el])
    /\ string_excitation self string_process w = Ok (l_string, w')
    /\ Forall (fun b => get_type b = StringSoft \/ get_type b = StringHard)
         l_string
    /\ Forall (fun b => get_type b = TwoToTwo) l_closure
    /\ Forall (fun b => get_type b <> TwoToOne) l.
Proof.
  intros HN1 HN2 Hhigh Hrun.
  unfold generate_collision_list in Hrun. cbv zeta in Hrun.
  rewrite HN1, HN2 in Hrun. cbn [andb] in Hrun.
  rewrite (M_bind_run _ _ w w true
             (decide_string_above_the_window self w Hhigh)) in Hrun.
  apply M_bind_Ok in Hrun. destruct Hrun as (pl1 & w2 & Hel & Hrun).
  apply M_bind_Ok in Hrun. destruct Hrun as (pl2 & w3 & Hmid & Hrun).
  assert (H1 : w2 = w
               /\ (pl1 = []
                   \/ exists el,
                        elastic self elastic_parameter = Ok el
                        /\ pl1 = [el])).
  { clear Hmid Hrun. split_run Hel.
    - repeat run_step. split; [reflexivity |]. right.
      eexists. split; [eassumption | reflexivity].
    - run_step. split; [reflexivity |]. left. reflexivity. }
  destruct H1 as [-> H1].
  cbv beta iota in Hmid. apply M_bind_Ok in Hmid.
  destruct Hmid as (l_string & w4 & Hstring & Hmid).
  apply M_ret_Ok in Hmid. destruct Hmid as [-> ->].
  rename w4 into w3.
  assert (H3 : w' = w3
               /\ exists c, l = append_list pl1 l_string ++ c
                            /\ Forall (fun b => get_type b = TwoToTwo) c).
  { destruct nnbar_treatment;
      try (run_step; split; [reflexivity |]; exists [];
           rewrite app_nil_r; split; [reflexivity | constructor]).
    apply M_bind_Ok in Hrun. destruct Hrun as (pl3 & w5 & Hann & Hrun).
    assert (H3 : w5 = w3
                 /\ exists c1, pl3 = append_list pl1 l_string ++ c1
                     /\ Forall (fun b => get_type b = TwoToTwo) c1).
    { split_run Hann.
      - repeat run_step. split; [reflexivity |].
        eexists. split; [reflexivity |].
        apply Forall_cons; [| apply Forall_nil].
        eapply NNbar_annihilation_is_TwoToTwo; eassumption.
      - run_step. split; [reflexivity |]. exists [].
        rewrite app_nil_r. split; [reflexivity | constructor]. }
    destruct H3 as (-> & c1 & -> & Hc1).
    split_run Hrun.
    - repeat run_step. split; [reflexivity |]. unfold append_list.
      exists (c1 ++ x). rewrite <- !app_assoc. split; [reflexivity |].
      apply Forall_app. split; [exact Hc1 |].
      eapply NNbar_creation_is_TwoToTwo; eassumption.
    - run_step. split; [reflexivity |]. exists c1.
      split; [reflexivity | exact Hc1]. }
  destruct H3 as (-> & c & -> & Hc).
  pose proof (string_excitation_branches _ _ _ _ _ Hstring) as Hkinds.
  exists pl1, l_string, c. unfold append_list. rewrite <- app_assoc.
  split; [reflexivity |]. split; [exact H1 |].
  split; [exact Hstring |]. split; [exact Hkinds |].
  split; [exact Hc |].
  apply Forall_app. split.
  - destruct H1 as [-> | (el & Hel' & ->)]; [constructor |].
    apply Forall_cons; [| apply Forall_nil].
    rewrite (elastic_is_Elastic _ _ _ Hel'). discriminate.
  - apply Forall_app. split.
    + eapply Forall_impl; [| exact Hkinds].
      intros b [Hb | Hb]; rewrite Hb; discriminate.
    + eapply Forall_impl; [| exact Hc].
      intros b Hb. rewrite Hb. discriminate.
Qed.

End FacadeWithStrings.

(** ** The profiles of distributions.cc *)

Lemma Rdiv_le_cross (a b c d : R) :
  0 < b -> 0 < d -> a * d <= c * b -> a / b <= c / d.
Proof.
  intros Hb Hd H. apply (Rmult_le_reg_r (b * d)); [nra |].
  replace (a / b * (b * d)) with (a * d) by (field; lra).
  replace (c / d * (b * d)) with (c * b) by (field; lra).
  exact H.
Qed.

(** X15.  For a positive width and srts <> 0 the Breit-Wigner profile is
    positive and at most 2 / (pi Gamma), the value it takes at the pole
    srts^2 = M^2. *)
Theorem breit_wigner_peak (srts resonance_mass resonance_width : R) :
  srts <> 0 -> 0 < resonance_width ->
  0 < breit_wigner srts resonance_mass resonance_width
    <= 2 / (PI * resonance_width)
  /\ (srts * srts = resonance_mass * resonance_mass ->
      breit_wigner srts resonance_mass resonance_width =
      2 / (PI * resonance_width)).
Proof.
  intros Hs Hw. unfold breit_wigner. cbv zeta.
  pose proof PI_RGT_0 as Hpi.
  set (s := srts * srts).
  assert (Hspos : 0 < s) by (unfold s; nra).
  set (B := s - resonance_mass * resonance_mass).
  assert (HA : 0 < s * resonance_width * resonance_width).
  { apply Rmult_lt_0_compat; [apply Rmult_lt_0_compat |]; lra. }
  assert (HB : 0 <= B * B) by nra.
  assert (HD : 0 < PI * (B * B + s * resonance_width * resonance_width)).
  { apply Rmult_lt_0_compat; lra. }
  split; [split |].
  - apply Rdiv_lt_0_compat; [| exact HD].
    apply Rmult_lt_0_compat; [| lra]. lra.
  - apply Rdiv_le_cross; [exact HD | apply Rmult_lt_0_compat; lra |].
    assert (0 <= PI * (B * B)) by (apply Rmult_le_pos; lra).
    nra.
  - intros Hpole.
    assert (HB0 : B = 0) by (unfold B; lra). rewrite HB0.
    field. repeat split; lra.
Qed.

(** X16.  For a positive width [cauchy] is positive, largest at the pole, where
    it is 1 / (pi width), and symmetric about the pole. *)
Theorem cauchy_peak (x pole width : R) :
  0 < width ->
  0 < cauchy x pole width <= cauchy pole pole width
  /\ cauchy pole pole width = 1 / (PI * width)
  /\ forall d, cauchy (pole + d) pole width = cauchy (pole - d) pole width.
Proof.
  intros Hw. unfold cauchy. cbv zeta.
  pose proof PI_RGT_0 as Hpi.
  assert (Hww : 0 < width * width) by (apply Rmult_lt_0_compat; lra).
  pose proof (Rle_0_sqr (x - pole)) as Hdd. unfold Rsqr in Hdd.
  assert (HD : 0 < PI * ((x - pole) * (x - pole) + width * width)).
  { apply Rmult_lt_0_compat; lra. }
  assert (HD0 : 0 < PI * ((pole - pole) * (pole - pole) + width * width)).
  { apply Rmult_lt_0_compat; [lra |].
    replace ((pole - pole) * (pole - pole)) with 0 by ring. lra. }
  split; [split |].
  - apply Rdiv_lt_0_compat; assumption.
  - apply Rdiv_le_cross; [exact HD | exact HD0 |].
    assert (0 <= PI * ((x - pole) * (x - pole))) by (apply Rmult_le_pos; lra).
    nra.
  - split.
    + field. split; lra.
    + intros d. f_equal. f_equal. ring.
Qed.

(** ** The densities of the hadron gas *)

Lemma fold_left_sum {A} (step : R -> A -> R) (f : A -> R) (l : list A)
    (a : R) :
  (forall acc x, step acc x = acc + f x) ->
  fold_left step l a = a + fold_right Rplus 0 (map f l).
Proof.
  intros Hstep. revert a.
  induction l as [| x l IH]; intros a; cbn [fold_left map fold_right].
  - lra.
  - rewrite IH, Hstep. lra.
Qed.

Lemma sum_scale {A} (c : R) (f : A -> R) (l : list A) :
  fold_right Rplus 0 (map f l) * c =
  fold_right Rplus 0 (map (fun x => f x * c) l).
Proof.
  induction l as [| x l IH]; cbn [map fold_right]; [lra |].
  rewrite <- IH. lra.
Qed.

Lemma sum_of_zeros {A} (f : A -> R) (l : list A) :
  (forall x, f x = 0) -> fold_right Rplus 0 (map f l) = 0.
Proof.
  intros Hf. induction l as [| x l IH]; cbn [map fold_right]; [lra |].
  rewrite IH, Hf. lra.
Qed.

Lemma sum_ext {A} (f g : A -> R) (l : list A) :
  (forall x, f x = g x) ->
  fold_right Rplus 0 (map f l) = fold_right Rplus 0 (map g l).
Proof.
  intros Hfg. induction l as [| x l IH]; cbn [map fold_right]; [lra |].
  rewrite IH, Hfg. reflexivity.
Qed.

Lemma Rplus_0_l_decimal (x : R) : 0.0 + x = x.
Proof. lra. Qed.

Section HadronGasEosProperties.

Context {Reg : Registry} {Hlp : Helpers} {EC : EosCollaborators}.

Import HadronGasEos.

(** X17.  [density] is the sum of [partial_density] over the species of
    [list_eos_particles]; [net_baryon_density] is the sum of partial density
    times baryon number over the species for which [is_baryon] holds, and
    [net_strange_density] the sum of partial density times strangeness.
    This covers the temperatures below [really_small], where all are 0. *)
Theorem densities_sum_partial_densities (T mub mus : R) :
  density T mub mus =
  fold_right Rplus 0
    (map (fun ptype => partial_density ptype T mub mus) list_eos_particles)
  /\ net_baryon_density T mub mus =
     fold_right Rplus 0
       (map (fun ptype =>
               if is_baryon ptype
               then partial_density ptype T mub mus *
                    IZR (baryon_number ptype)
               else 0)
          list_eos_particles)
  /\ net_strange_density T mub mus =
     fold_right Rplus 0
       (map (fun ptype =>
               partial_density ptype T mub mus * IZR (strangeness ptype))
          list_eos_particles).
Proof.
  unfold density, net_baryon_density, net_strange_density, partial_density.
  cbv zeta. destruct (Rltb_spec T really_small) as [Hcold | Hwarm].
  - rewrite !sum_of_zeros; try (intros; lra).
    intros x. destruct (is_baryon x); lra.
  - refine (conj _ (conj _ _)).
    + rewrite (fold_left_sum _
                 (fun ptype => scaled_partial_density ptype (1.0 / T) mub mus))
        by reflexivity.
      rewrite Rplus_0_l_decimal, sum_scale. apply sum_ext. intros x. lra.
    + rewrite (fold_left_sum _
                 (fun ptype =>
                    if is_baryon ptype
                    then scaled_partial_density ptype (1.0 / T) mub mus *
                         IZR (baryon_number ptype)
                    else 0)).
      2: { intros acc x. destruct (is_baryon x); cbn [negb]; lra. }
      rewrite Rplus_0_l_decimal, sum_scale. apply sum_ext. intros x.
      destruct (is_baryon x); lra.
    + rewrite (fold_left_sum _
                 (fun ptype =>
                    scaled_partial_density ptype (1.0 / T) mub mus *
                    IZR (strangeness ptype))).
      2: { intros acc x. destruct (Z.eqb_spec (strangeness x) 0) as [-> | _];
           lra. }
      rewrite Rplus_0_l_decimal, sum_scale. apply sum_ext. intros x. lra.
Qed.

End HadronGasEosProperties.

(** ** The search for the strange chemical potential *)

Section BisectionProperties.

Context {Reg : Registry} {Hlp : Helpers} {EC : EosCollaborators}.

Import HadronGasEos.

Lemma mus_bisection_invariant (fuel : nat) (T mub : R) :
  forall (mus_u mus_l : R) (iteration : nat) (lo hi : R),
    lo <= mus_u <= hi -> lo <= mus_l <= hi ->
    (max_iteration <= fuel + iteration)%nat ->
    (iteration < max_iteration)%nat ->
    lo <= fst (mus_bisection fuel T mub mus_u mus_l iteration) <= hi
    /\ (snd (mus_bisection fuel T mub mus_u mus_l iteration)
        <= max_iteration)%nat
    /\ ((snd (mus_bisection fuel T mub mus_u mus_l iteration)
         < max_iteration)%nat ->
        Rabs (net_strange_density T mub
                (fst (mus_bisection fuel T mub mus_u mus_l iteration)))
        <= tolerance_).
Proof.
  induction fuel as [| fuel IH]; intros mus_u mus_l iteration lo hi Hu Hl
    Hfuel Hit.
  - cbn [Nat.add] in Hfuel. lia.
  - cbn [mus_bisection].
    set (mus := 0.5 * (mus_u + mus_l)).
    assert (Hmus : lo <= mus <= hi) by (unfold mus; lra).
    destruct (Rltb_spec tolerance_
                (Rabs (net_strange_density T mub mus))) as [Hfar | Hnear];
      cbn [andb].
    + destruct (Nat.ltb_spec (S iteration) max_iteration) as [Hmore | Hlast].
      * apply IH; try lia;
          destruct (Rltb 0.0 (net_strange_density T mub mus)); lra.
      * cbn [fst snd]. split; [exact Hmus |]. split; lia.
    + cbn [fst snd]. split; [exact Hmus |]. split; [lia |].
      intros _. lra.
Qed.

Lemma mus_bisection_fuel (fuel : nat) (T mub : R) :
  forall (mus_u mus_l : R) (iteration : nat),
    (max_iteration <= fuel + iteration)%nat ->
    (iteration < max_iteration)%nat ->
    mus_bisection (S fuel) T mub mus_u mus_l iteration =
    mus_bisection fuel T mub mus_u mus_l iteration.
Proof.
  induction fuel as [| fuel IH]; intros mus_u mus_l iteration Hfuel Hit.
  - cbn [Nat.add] in Hfuel. lia.
  - change (mus_bisection (S (S fuel)) T mub mus_u mus_l iteration) with
      (let mus := 0.5 * (mus_u + mus_l) in
       let rhos := net_strange_density T mub mus in
       if (Rabs rhos >? tolerance_) && (S iteration <? max_iteration)%nat
       then mus_bisection (S fuel) T mub
              (if rhos >? 0.0 then mus else mus_u)
              (if rhos >? 0.0 then mus_l else mus) (S iteration)
       else (mus, S iteration)).
    change (mus_bisection (S fuel) T mub mus_u mus_l iteration) with
      (let mus := 0.5 * (mus_u + mus_l) in
       let rhos := net_strange_density T mub mus in
       if (Rabs rhos >? tolerance_) && (S iteration <? max_iteration)%nat
       then mus_bisection fuel T mub
              (if rhos >? 0.0 then mus else mus_u)
              (if rhos >? 0.0 then mus_l else mus) (S iteration)
       else (mus, S iteration)).
    cbv zeta.
    destruct (Rltb tolerance_ _); cbn [andb]; [| reflexivity].
    destruct (Nat.ltb_spec (S iteration) max_iteration) as [Hmore | Hlast];
      [| reflexivity].
    apply IH; lia.
Qed.

(** X18.  When [mus_net_strangeness0] returns mus, the net strangeness density
    at mus is within [tolerance_] and mus lies between 0 and mub + T.  Its
    only failure is "Solving rho_s = 0: too many iterations.".  The loop
    leaves by its own test: more fuel than [max_iteration] changes
    nothing. *)
Theorem mus_net_strangeness0_result (T mub : R) :
  (forall mus,
     mus_net_strangeness0 T mub = Ok mus ->
     Rabs (net_strange_density T mub mus) <= tolerance_
     /\ Rmin 0 (mub + T) <= mus <= Rmax 0 (mub + T))
  /\ (forall e,
        mus_net_strangeness0 T mub = Throw e ->
        e = runtime_error [Text "Solving rho_s = 0: too many iterations."])
  /\ (forall extra,
        mus_bisection (extra + max_iteration) T mub (mub + T) 0.0 0 =
        mus_bisection max_iteration T mub (mub + T) 0.0 0).
Proof.
  refine (conj _ (conj _ _)).
  - intros mus. unfold mus_net_strangeness0. cbv zeta.
    pose proof (mus_bisection_invariant max_iteration T mub (mub + T) 0.0 0
                  (Rmin 0 (mub + T)) (Rmax 0 (mub + T))) as Hinv.
    destruct (mus_bisection max_iteration T mub (mub + T) 0.0 0)
      as [mus' iteration].
    cbn [fst snd] in Hinv.
    destruct (Nat.eqb_spec iteration max_iteration) as [Hlast | Hearly];
      [discriminate |].
    intros Hok. inversion Hok; subst mus'.
    destruct Hinv as (Hrange & Hle & Htol).
    + pose proof (Rmin_r 0 (mub + T)). pose proof (Rmax_r 0 (mub + T)). lra.
    + pose proof (Rmin_l 0 (mub + T)). pose proof (Rmax_l 0 (mub + T)). lra.
    + unfold max_iteration. lia.
    + unfold max_iteration. lia.
    + split; [apply Htol; lia | exact Hrange].
  - intros e. unfold mus_net_strangeness0. cbv zeta.
    destruct (mus_bisection max_iteration T mub (mub + T) 0.0 0)
      as [mus' iteration].
    destruct (iteration =? max_iteration)%nat; [| discriminate].
    intros H. inversion H. reflexivity.
  - intros extra. induction extra as [| extra IH]; [reflexivity |].
    cbn [Nat.add]. rewrite mus_bisection_fuel; [exact IH | lia |].
    unfold max_iteration. lia.
Qed.

Lemma mus_bisection_step (fuel : nat) (T mub mus_u mus_l : R)
    (iteration : nat) :
  mus_bisection (S fuel) T mub mus_u mus_l iteration =
  let mus := 0.5 * (mus_u + mus_l) in
  let rhos := net_strange_density T mub mus in
  if (Rabs rhos >? tolerance_) && (S iteration <? max_iteration)%nat
  then mus_bisection fuel T mub
         (if rhos >? 0.0 then mus else mus_u)
         (if rhos >? 0.0 then mus_l else mus) (S iteration)
  else (mus, S iteration).
Proof. reflexivity. Qed.

(** X19.  For a temperature below [really_small] and a non-negative tolerance
    the search returns its first midpoint, (mub + T) / 2. *)
Theorem mus_net_strangeness0_of_cold_gas (T mub : R) :
  T < really_small -> 0 <= tolerance_ ->
  mus_net_strangeness0 T mub = Ok ((mub + T) / 2).
Proof.
  intros Hcold Htol. unfold mus_net_strangeness0. cbv zeta.
  assert (Hfirst :
    mus_bisection max_iteration T mub (mub + T) 0.0 0 =
    (0.5 * (mub + T + 0.0), 1%nat)).
  { unfold max_iteration at 1. rewrite mus_bisection_step. cbv zeta.
    unfold net_strange_density at 1.
    rewrite (Rltb_true T really_small Hcold).
    replace (Rabs 0.0) with 0
      by (replace 0.0 with 0 by lra; symmetry; apply Rabs_R0).
    rewrite (Rltb_false tolerance_ 0) by lra.
    rewrite andb_false_l. reflexivity. }
  rewrite Hfirst. change (1 =? max_iteration)%nat with false.
  cbv iota. f_equal. lra.
Qed.

End BisectionProperties.

(** ** The table of the equation of state *)

Lemma Zfloor_of_quotient (x d : R) (k : Z) :
  0 < d ->
  (x < IZR k * d -> (Zfloor (x / d) < k)%Z)
  /\ (IZR k * d <= x -> (k <= Zfloor (x / d))%Z).
Proof.
  intros Hd.
  assert (Hx : x / d * d = x) by (field; lra).
  pose proof (Zfloor_bound (x / d)) as [Hlow Hhigh].
  split; intros H.
  - apply lt_IZR. apply Rle_lt_trans with (x / d); [exact Hlow |].
    apply (Rmult_lt_reg_r d); [exact Hd |]. lra.
  - apply Zfloor_lub. apply (Rmult_le_reg_r d); [exact Hd |]. lra.
Qed.

Lemma interpolate_between (ae an s1 s2 s3 s4 lo hi : R) :
  0 <= ae <= 1 -> 0 <= an <= 1 ->
  lo <= s1 <= hi -> lo <= s2 <= hi -> lo <= s3 <= hi -> lo <= s4 <= hi ->
  lo <= EosTable.interpolate ae an s1 s2 s3 s4 <= hi.
Proof.
  intros Hae Han H1 H2 H3 H4. unfold EosTable.interpolate.
  assert (Hu : lo <= an * s4 + (1.0 - an) * s2 <= hi) by nra.
  assert (Hv : lo <= an * s3 + (1.0 - an) * s1 <= hi) by nra.
  nra.
Qed.

Section EosTableProperties.

Import EosTable.

Variable index : Z -> Z -> nat.

(** X20.  For positive steps [get] answers the element (-1, -1, -1, -1)
    whenever e < 0, nb < 0, e >= (n_e - 1) de or nb >= (n_nb - 1) dnb: the
    last line of nodes of the table is already outside. *)
Theorem EosTable_get_outside (self : EosTable) (e nb : R) :
  0 < de_ self -> 0 < dnb_ self ->
  e < 0 \/ IZR (n_e_ self - 1) * de_ self <= e
  \/ nb < 0 \/ IZR (n_nb_ self - 1) * dnb_ self <= nb ->
  get index self e nb =
  Some (mk_table_element (-1) (-1) (-1) (-1)).
Proof.
  intros Hde Hdnb Hout. unfold get. cbv zeta.
  assert (Htest :
    ((Zfloor (e / de_ self) <? 0) || (Zfloor (e / de_ self) >=? n_e_ self - 1)
     || (Zfloor (nb / dnb_ self) <? 0)
     || (Zfloor (nb / dnb_ self) >=? n_nb_ self - 1))%Z = true).
  { destruct Hout as [H | [H | [H | H]]].
    - assert (Zfloor (e / de_ self) < 0)%Z.
      { apply (proj1 (Zfloor_of_quotient e (de_ self) 0 Hde)). lra. }
      destruct (Z.ltb_spec (Zfloor (e / de_ self)) 0); [reflexivity | lia].
    - pose proof (proj2 (Zfloor_of_quotient e (de_ self) _ Hde) H).
      destruct (Z.geb_spec (Zfloor (e / de_ self)) (n_e_ self - 1));
        [| lia].
      rewrite orb_true_r. reflexivity.
    - assert (Zfloor (nb / dnb_ self) < 0)%Z.
      { apply (proj1 (Zfloor_of_quotient nb (dnb_ self) 0 Hdnb)). lra. }
      destruct (Z.ltb_spec (Zfloor (nb / dnb_ self)) 0); [| lia].
      rewrite orb_true_r. reflexivity.
    - pose proof (proj2 (Zfloor_of_quotient nb (dnb_ self) _ Hdnb) H).
      destruct (Z.geb_spec (Zfloor (nb / dnb_ self)) (n_nb_ self - 1));
        [| lia].
      rewrite orb_true_r. reflexivity. }
  rewrite Htest. f_equal. f_equal; lra.
Qed.

Lemma EosTable_get_inside (self : EosTable) (e nb : R) :
  0 < de_ self -> 0 < dnb_ self ->
  0 <= e < IZR (n_e_ self - 1) * de_ self ->
  0 <= nb < IZR (n_nb_ self - 1) * dnb_ self ->
  let ie := Zfloor (e / de_ self) in
  let inb := Zfloor (nb / dnb_ self) in
  let ae := e / de_ self - IZR ie in
  let an := nb / dnb_ self - IZR inb in
  (0 <= ie < n_e_ self - 1)%Z /\ (0 <= inb < n_nb_ self - 1)%Z
  /\ 0 <= ae < 1 /\ 0 <= an < 1
  /\ get index self e nb =
     match nth_error (table_ self) (index ie inb),
           nth_error (table_ self) (index (ie + 1) inb),
           nth_error (table_ self) (index ie (inb + 1)),
           nth_error (table_ self) (index (ie + 1) (inb + 1)) with
     | Some s1, Some s2, Some s3, Some s4 =>
         Some (mk_table_element
                 (interpolate ae an (p s1) (p s2) (p s3)
                    (p s4))
                 (interpolate ae an (T s1) (T s2) (T s3)
                    (T s4))
                 (interpolate ae an (mub s1) (mub s2) (mub s3)
                    (mub s4))
                 (interpolate ae an (mus s1) (mus s2) (mus s3)
                    (mus s4)))
     | _, _, _, _ => None
     end.
Proof.
  intros Hde Hdnb He Hnb ie inb ae an.
  assert (Hie : (0 <= ie < n_e_ self - 1)%Z).
  { split.
    - apply (proj2 (Zfloor_of_quotient e (de_ self) 0 Hde)). lra.
    - apply (proj1 (Zfloor_of_quotient e (de_ self) _ Hde)). lra. }
  assert (Hinb : (0 <= inb < n_nb_ self - 1)%Z).
  { split.
    - apply (proj2 (Zfloor_of_quotient nb (dnb_ self) 0 Hdnb)). lra.
    - apply (proj1 (Zfloor_of_quotient nb (dnb_ self) _ Hdnb)). lra. }
  pose proof (Zfloor_bound (e / de_ self)) as Hae.
  pose proof (Zfloor_bound (nb / dnb_ self)) as Han.
  fold ie in Hae. fold inb in Han.
  split; [exact Hie |]. split; [exact Hinb |].
  split; [unfold ae; lra |]. split; [unfold an; lra |].
  unfold get. cbv zeta. fold ie inb.
  destruct (Z.ltb_spec ie 0); [lia |].
  destruct (Z.geb_spec ie (n_e_ self - 1)); [lia |].
  destruct (Z.ltb_spec inb 0); [lia |].
  destruct (Z.geb_spec inb (n_nb_ self - 1)); [lia |].
  reflexivity.
Qed.

(** X21.  At a node (ie de, inb dnb) that is not on the last lines, [get]
    returns the element stored at index(ie, inb). *)
Theorem EosTable_get_at_node (self : EosTable) (ie inb : Z)
    (s1 s2 s3 s4 : table_element) :
  0 < de_ self -> 0 < dnb_ self ->
  (0 <= ie < n_e_ self - 1)%Z -> (0 <= inb < n_nb_ self - 1)%Z ->
  nth_error (table_ self) (index ie inb) = Some s1 ->
  nth_error (table_ self) (index (ie + 1) inb) = Some s2 ->
  nth_error (table_ self) (index ie (inb + 1)) = Some s3 ->
  nth_error (table_ self) (index (ie + 1) (inb + 1)) = Some s4 ->
  get index self (IZR ie * de_ self) (IZR inb * dnb_ self) =
  Some s1.
Proof.
  intros Hde Hdnb Hie Hinb H1 H2 H3 H4.
  assert (Hqe : IZR ie * de_ self / de_ self = IZR ie) by (field; lra).
  assert (Hqn : IZR inb * dnb_ self / dnb_ self = IZR inb) by (field; lra).
  unfold get. cbv zeta. rewrite Hqe, Hqn, !ZfloorZ.
  destruct (Z.ltb_spec ie 0); [lia |].
  destruct (Z.geb_spec ie (n_e_ self - 1)); [lia |].
  destruct (Z.ltb_spec inb 0); [lia |].
  destruct (Z.geb_spec inb (n_nb_ self - 1)); [lia |].
  cbn [orb]. rewrite H1, H2, H3, H4.
  destruct s1 as [p1 T1 mub1 mus1]. cbn [p T mub mus].
  unfold interpolate. f_equal. f_equal; lra.
Qed.

(** X22.  Inside the table, each of the four quantities of the element [get]
    returns lies within any bounds that hold at the four corners of the
    cell. *)
Theorem EosTable_get_between_corners (self : EosTable) (e nb : R)
    (s1 s2 s3 s4 : table_element) (quantity : table_element -> R)
    (lo hi : R) :
  0 < de_ self -> 0 < dnb_ self ->
  0 <= e < IZR (n_e_ self - 1) * de_ self ->
  0 <= nb < IZR (n_nb_ self - 1) * dnb_ self ->
  let ie := Zfloor (e / de_ self) in
  let inb := Zfloor (nb / dnb_ self) in
  nth_error (table_ self) (index ie inb) = Some s1 ->
  nth_error (table_ self) (index (ie + 1) inb) = Some s2 ->
  nth_error (table_ self) (index ie (inb + 1)) = Some s3 ->
  nth_error (table_ self) (index (ie + 1) (inb + 1)) = Some s4 ->
  In quantity [p; T; mub; mus] ->
  Forall (fun s => lo <= quantity s <= hi) [s1; s2; s3; s4] ->
  exists res,
    get index self e nb = Some res /\ lo <= quantity res <= hi.
Proof.
  intros Hde Hdnb He Hnb ie inb H1 H2 H3 H4 Hq Hcorners.
  destruct (EosTable_get_inside self e nb Hde Hdnb He Hnb)
    as (_ & _ & Hae & Han & Hget).
  fold ie inb in Hae, Han, Hget. rewrite H1, H2, H3, H4 in Hget.
  eexists. split; [exact Hget |].
  inversion Hcorners as [| ? ? Hs1 Hc1]; subst.
  inversion Hc1 as [| ? ? Hs2 Hc2]; subst.
  inversion Hc2 as [| ? ? Hs3 Hc3]; subst.
  inversion Hc3 as [| ? ? Hs4 _]; subst.
  cbn [In] in Hq.
  destruct Hq as [<- | [<- | [<- | [<- | []]]]];
    cbn [p T mub mus];
    apply interpolate_between; assumption || lra.
Qed.

End EosTableProperties.

(** ** The thermalizer *)

Section ThermalizerProperties.

Context {EC : EosCollaborators}.

(** X23.  [get_class] sorts a species into one of the classes 0 to 6; class 6
    holds exactly the species with B = S = charge = 0; and a species with
    the opposite baryon number, strangeness and charge falls into the
    partner class (0 and 1, 2 and 3, 4 and 5 are exchanged, 6 is kept). *)
Theorem get_class_of_antiparticle (self : GrandCanThermalizer)
    (i j : nat) (ptype anti : ParticleType) (c : Z) :
  nth_error (eos_typelist_ self) i = Some ptype ->
  nth_error (eos_typelist_ self) j = Some anti ->
  baryon_number anti = (- baryon_number ptype)%Z ->
  strangeness anti = (- strangeness ptype)%Z ->
  charge anti = (- charge ptype)%Z ->
  get_class self i = Some c ->
  (0 <= c <= 6)%Z
  /\ (c = 6%Z <->
      baryon_number ptype = 0%Z /\ strangeness ptype = 0%Z
      /\ charge ptype = 0%Z)
  /\ get_class self j =
     Some (if (c =? 6)%Z then 6%Z
           else if Z.even c then (c + 1)%Z else (c - 1)%Z).
Proof.
  intros Hi Hj HB HS Hch. unfold get_class. rewrite Hi, Hj. cbv zeta.
  rewrite HB, HS, Hch.
  destruct (Z.gtb_spec (baryon_number ptype) 0);
  destruct (Z.ltb_spec (baryon_number ptype) 0);
  destruct (Z.gtb_spec (strangeness ptype) 0);
  destruct (Z.ltb_spec (strangeness ptype) 0);
  destruct (Z.gtb_spec (charge ptype) 0);
  destruct (Z.ltb_spec (charge ptype) 0);
  try lia; intros Hc; inversion Hc; subst c;
  (refine (conj _ (conj (conj _ _) _));
   [ lia
   | intros H6; try discriminate H6; lia
   | intros (? & ? & ?); lia
   | repeat match goal with
     | |- context [(?a >? 0)%Z] => destruct (Z.gtb_spec a 0); try lia
     | |- context [(?a <? 0)%Z] => destruct (Z.ltb_spec a 0); try lia
     end; reflexivity ]).
Qed.

End ThermalizerProperties.

(** ** The search for scatterings *)

Lemma fold_left_In_step {A B} (f : list A -> B -> list A)
    (g : B -> list A) (l : list B) (init : list A) (a : A) :
  (forall acc x, f acc x = acc ++ g x) ->
  In a (fold_left f l init) <->
  In a init \/ exists x, In x l /\ In a (g x).
Proof.
  intros Hf. revert init.
  induction l as [| x l IH]; intros init; cbn [fold_left].
  - split; [auto | intros [H | (x & [] & _)]; exact H].
  - rewrite IH, Hf, in_app_iff. split.
    + intros [[H | H] | (y & Hy & H)]; auto.
      * right. exists x. split; [left; reflexivity | exact H].
      * right. exists y. split; [right; exact Hy | exact H].
    + intros [H | (y & [<- | Hy] & H)]; auto.
      right. exists y. auto.
Qed.

Section FinderProperties.

Context {Hlp : Helpers} {Act : Scatter.ScatterActions}.

Import Scatter.

(** The two cases of [collision_time], for a positive [really_small]. *)
Lemma collision_time_cases (p1 p2 : ParticleData) :
  let pos_diff := minus (threevec (position p1)) (threevec (position p2)) in
  let velo_diff := minus (velocity p1) (velocity p2) in
  0 < really_small ->
  (sqr velo_diff < really_small -> collision_time p1 p2 = -1)
  /\ (really_small <= sqr velo_diff ->
      collision_time p1 p2 = - dot pos_diff velo_diff / sqr velo_diff
      /\ (0 <= collision_time p1 p2 <-> dot pos_diff velo_diff <= 0)).
Proof.
  intros pos_diff velo_diff Hsmall.
  assert (Hsq : 0 <= sqr velo_diff).
  { unfold sqr, dot. nra. }
  split.
  - intros Hslow. unfold collision_time. cbv zeta. fold velo_diff.
    rewrite Rabs_pos_eq by exact Hsq. rewrite Rltb_true by exact Hslow. lra.
  - intros Hfast.
    assert (Htime : collision_time p1 p2 =
                    - dot pos_diff velo_diff / sqr velo_diff).
    { unfold collision_time. cbv zeta. fold pos_diff velo_diff.
      rewrite Rabs_pos_eq by exact Hsq. rewrite Rltb_false by exact Hfast.
      f_equal. unfold dot, opp. cbn [x1 x2 x3]. ring. }
    split; [exact Htime |]. rewrite Htime.
    set (v2 := sqr velo_diff) in *. set (xv := dot pos_diff velo_diff) in *.
    assert (Hv2 : 0 < v2) by lra.
    assert (Hinv : 0 < / v2) by (apply Rinv_0_lt_compat; exact Hv2).
    assert (Hxv : xv = - (- xv / v2) * v2) by (field; lra).
    split; intros H.
    + set (c := - xv / v2) in *. nra.
    + unfold Rdiv. apply Rmult_le_pos; lra.
Qed.

(** X25.  For a positive [really_small]: [collision_time] is -1 when the
    squared relative velocity is below [really_small]; otherwise it is the
    time at which the two straight trajectories are closest, and it is
    non-negative exactly when the particles approach each other
    (pos_diff . velo_diff <= 0).  It does not depend on the order of the
    two particles. *)
Theorem collision_time_is_closest_approach (p1 p2 : ParticleData) :
  let pos_diff := minus (threevec (position p1)) (threevec (position p2)) in
  let velo_diff := minus (velocity p1) (velocity p2) in
  let separation_sqr (t : R) :=
    (x1 pos_diff + t * x1 velo_diff) ^ 2 +
    (x2 pos_diff + t * x2 velo_diff) ^ 2 +
    (x3 pos_diff + t * x3 velo_diff) ^ 2 in
  0 < really_small ->
  (sqr velo_diff < really_small -> collision_time p1 p2 = -1)
  /\ (really_small <= sqr velo_diff ->
      (forall t, separation_sqr (collision_time p1 p2) <= separation_sqr t)
      /\ (0 <= collision_time p1 p2 <-> dot pos_diff velo_diff <= 0))
  /\ collision_time p2 p1 = collision_time p1 p2.
Proof.
  intros pos_diff velo_diff separation_sqr Hsmall.
  destruct (collision_time_cases p1 p2 Hsmall) as [Hslow Hfast].
  fold pos_diff velo_diff in Hslow, Hfast.
  refine (conj Hslow (conj _ _)).
  - intros Hquick. destruct (Hfast Hquick) as [Htime Hsign].
    split; [| exact Hsign]. rewrite Htime.
    set (v2 := sqr velo_diff) in *. set (xv := dot pos_diff velo_diff) in *.
    assert (Hv2 : 0 < v2) by lra.
    intros t.
    assert (Hexpand : forall u,
      separation_sqr u = sqr pos_diff + 2 * u * xv + u * u * v2).
    { intros u. unfold separation_sqr, v2, xv, sqr, dot. ring. }
    rewrite !Hexpand.
    assert (Hdiff :
      sqr pos_diff + 2 * t * xv + t * t * v2 -
      (sqr pos_diff + 2 * (- xv / v2) * xv +
       (- xv / v2) * (- xv / v2) * v2) =
      (t * v2 + xv) * (t * v2 + xv) / v2) by (field; lra).
    assert (0 <= (t * v2 + xv) * (t * v2 + xv) / v2).
    { apply Rmult_le_pos; [exact (Rle_0_sqr _) |]. left.
      apply Rinv_0_lt_compat. exact Hv2. }
    lra.
  - unfold collision_time. cbv zeta.
    set (pd := minus (threevec (position p1)) (threevec (position p2))).
    set (vd := minus (velocity p1) (velocity p2)).
    set (pd' := minus (threevec (position p2)) (threevec (position p1))).
    set (vd' := minus (velocity p2) (velocity p1)).
    assert (Hs : sqr vd' = sqr vd).
    { unfold vd, vd', sqr, dot, minus. cbn [x1 x2 x3]. ring. }
    assert (Hd : dot (opp pd') vd' = dot (opp pd) vd).
    { unfold pd, pd', vd, vd', dot, opp, minus. cbn [x1 x2 x3]. ring. }
    rewrite Hs, Hd. reflexivity.
Qed.

(** X26.  [find_possible_actions] returns exactly the actions that
    [check_collision] gives for the pairs (p1, p2) of the particle list with
    id(p1) < id(p2): no particle is paired with itself and no pair is taken
    in both orders. *)
Theorem find_possible_actions_pairs (self : ScatterActionsFinder)
    (particles : list ParticleData) (act : ScatterAction) :
  In act (find_possible_actions self particles) <->
  exists p1 p2,
    In p1 particles /\ In p2 particles /\ (id p1 < id p2)%Z
    /\ check_collision self p1 p2 = Some act.
Proof.
  unfold find_possible_actions.
  set (found := fun p1 p2 =>
         if (id p1 >=? id p2)%Z then []
         else match check_collision self p1 p2 with
              | Some a => [a]
              | None => []
              end).
  set (row := fun p1 => flat_map (found p1) particles).
  assert (Hinner : forall p1 l init,
    fold_left
      (fun actions p2 =>
         if (id p1 >=? id p2)%Z then actions
         else match check_collision self p1 p2 with
              | Some a => actions ++ [a]
              | None => actions
              end) l init = init ++ flat_map (found p1) l).
  { intros p1 l. induction l as [| p2 l IH]; intros init;
      cbn [fold_left flat_map].
    - rewrite app_nil_r. reflexivity.
    - rewrite IH. unfold found at 2.
      destruct (id p1 >=? id p2)%Z; [reflexivity |].
      destruct (check_collision self p1 p2);
        [rewrite <- app_assoc |]; reflexivity. }
  rewrite (fold_left_In_step _ row).
  2: { intros acc p1. apply Hinner. }
  cbn [In]. split.
  - intros [[] | (p1 & Hp1 & Hrow)]. unfold row in Hrow.
    apply in_flat_map in Hrow. destruct Hrow as (p2 & Hp2 & Hfound).
    unfold found in Hfound.
    destruct (Z.geb_spec (id p1) (id p2)); [destruct Hfound |].
    destruct (check_collision self p1 p2) as [a |] eqn:Hcheck;
      [| destruct Hfound].
    destruct Hfound as [<- | []].
    exists p1, p2. repeat split; assumption || lia.
  - intros (p1 & p2 & Hp1 & Hp2 & Hlt & Hcheck). right.
    exists p1. split; [exact Hp1 |]. unfold row.
    apply in_flat_map. exists p2. split; [exact Hp2 |].
    unfold found. destruct (Z.geb_spec (id p1) (id p2)); [lia |].
    rewrite Hcheck. left. reflexivity.
Qed.

(** X27.  An action that [check_collision] returns is not for two particles
    that come out of the same process, its time lies in [0, dt) and the
    distance of the pair is below the one its cross section allows; for a
    positive [really_small] the pair moves with a relative velocity above
    the threshold and approaches. *)
Theorem check_collision_guards (self : ScatterActionsFinder)
    (data_a data_b : ParticleData) (act : ScatterAction) :
  check_collision self data_a data_b = Some act ->
  ~ ((0 <= id_process data_a)%Z /\ id_process data_a = id_process data_b)
  /\ 0 <= collision_time data_a data_b < dt_ self
  /\ particle_distance act < weight act * fm2_mb * (1 / PI)
  /\ (0 < really_small ->
      really_small <=
      sqr (minus (velocity data_a) (velocity data_b))
      /\ dot (minus (threevec (position data_a))
                (threevec (position data_b)))
             (minus (velocity data_a) (velocity data_b)) <= 0).
Proof.
  unfold check_collision. cbv zeta.
  destruct (Z.geb_spec (id_process data_a) 0) as [Hpos | Hneg];
    destruct (Z.eqb_spec (id_process data_a) (id_process data_b))
      as [Hsame | Hother]; cbn [andb]; try discriminate;
  (destruct (Rltb_spec (collision_time data_a data_b) 0) as [Hpast | Hfuture];
     cbn [orb]; [discriminate |];
   destruct (Rleb_spec (dt_ self) (collision_time data_a data_b))
     as [Hlate | Hsoon]; [discriminate |];
   match goal with
   | |- (if Rleb ?x ?y then _ else _) = _ -> _ =>
       destruct (Rleb_spec x y) as [Hwide | Hclose]; [discriminate |]
   end;
   intros Hact; inversion Hact; subst act;
   refine (conj _ (conj _ (conj _ _)));
   [ lia | lra | lra | ]).
  all: intros Hsmall;
    pose proof (collision_time_cases data_a data_b) as Hct;
    cbv zeta in Hct; specialize (Hct Hsmall);
    destruct Hct as (Hslow & Hfast);
    destruct (Rlt_le_dec
                (sqr (minus (velocity data_a) (velocity data_b)))
                really_small) as [Hs | Hf];
    [ rewrite (Hslow Hs) in Hfuture; lra
    | split; [exact Hf | apply (proj2 (Hfast Hf)); lra] ].
Qed.

End FinderProperties.

(** ** The decay of a resonance *)

(** X28.  Given the charges of the pions and nucleons, the decay channel that
    [resonance_decay] chooses conserves the charge for every charge its
    table lists (mesons -1 to 1, baryons -1 to 2, antibaryons -2 to 1),
    whichever of the two combinations the energy selects; for any other
    charge no products are chosen: both codes stay 0. *)
Theorem resonance_decay_channel_conserves_charge
    (charge_of : Z -> Z) (spin charge pdgcode : Z) (total_energy : R)
    (type_mass : Z -> R) :
  charge_of 211%Z = 1%Z -> charge_of (-211)%Z = (-1)%Z ->
  charge_of 111%Z = 0%Z ->
  charge_of 2212%Z = 1%Z -> charge_of 2112%Z = 0%Z ->
  charge_of (-2212)%Z = (-1)%Z -> charge_of (-2112)%Z = 0%Z ->
  let listed :=
    if (Z.rem spin 2 =? 0)%Z then (-1 <=? charge)%Z && (charge <=? 1)%Z
    else if (pdgcode >? 0)%Z then (-1 <=? charge)%Z && (charge <=? 2)%Z
    else (-2 <=? charge)%Z && (charge <=? 1)%Z in
  let '(type_a, type_b) :=
    resonance_decay_channel spin charge pdgcode total_energy type_mass in
  if listed then (charge_of type_a + charge_of type_b)%Z = charge
  else (type_a, type_b) = (0, 0)%Z.
Proof.
  intros Hpip Hpim Hpi0 Hp Hn Hpbar Hnbar. cbv zeta.
  unfold resonance_decay_channel.
  destruct (Z.rem spin 2 =? 0)%Z; [| destruct (pdgcode >? 0)%Z];
    destruct (Z.eqb_spec charge 0); subst;
    try destruct (Z.eqb_spec charge 1); subst;
    try destruct (Z.eqb_spec charge (-1)); subst;
    try destruct (Z.eqb_spec charge 2); subst;
    try destruct (Z.eqb_spec charge (-2)); subst;
    try lia;
    repeat match goal with
    | |- context [if Rltb ?x ?y then _ else _] => destruct (Rltb x y)
    end;
    cbn [Z.leb Z.compare Pos.compare Pos.compare_cont andb];
    try (rewrite ?Hpip, ?Hpim, ?Hpi0, ?Hp, ?Hn, ?Hpbar, ?Hnbar; reflexivity);
    (destruct (Z.leb_spec (-1) charge); destruct (Z.leb_spec charge 1);
     try destruct (Z.leb_spec charge 2);
     try destruct (Z.leb_spec (-2) charge);
     cbn [andb]; try lia; reflexivity).
Qed.

(** X29.  Above the threshold (m_a + m_b <= E, E > 0), the momentum that
    [resonance_decay] gives the first product has the radial momentum as its
    length, and it puts both products on their mass shells: the energies
    sqrt(m_a^2 + p^2) and sqrt(m_b^2 + p^2) add up to the energy of the
    resonance. *)
Theorem resonance_decay_momentum_on_shell
    (total_energy mass_a mass_b u_phi u_cos : R) :
  0 <= mass_a -> 0 <= mass_b -> 0 < total_energy ->
  mass_a + mass_b <= total_energy ->
  0 <= u_cos <= 1 ->
  let d :=
    resonance_decay_momentum total_energy mass_a mass_b u_phi u_cos in
  let p_sqr :=
    momentum_x d * momentum_x d + momentum_y d * momentum_y d +
    momentum_z d * momentum_z d in
  p_sqr = momentum_radial d * momentum_radial d
  /\ mass_a <= energy_a d
  /\ energy_a d = sqrt (mass_a * mass_a + p_sqr)
  /\ total_energy - energy_a d = sqrt (mass_b * mass_b + p_sqr).
Proof.
  intros Hma Hmb HE Hthreshold Hu. cbv zeta.
  unfold resonance_decay_momentum. cbv zeta.
  cbn [energy_a momentum_radial momentum_x momentum_y momentum_z].
  set (Ea := (total_energy * total_energy + mass_a * mass_a - mass_b * mass_b)
             / (2.0 * total_energy)).
  set (c := -1.0 + 2.0 * u_cos).
  set (phi := 2.0 * PI * u_phi).
  assert (HEa : Ea * (2 * total_energy) =
                total_energy * total_energy + mass_a * mass_a
                - mass_b * mass_b).
  { unfold Ea. replace (2.0 * total_energy) with (2 * total_energy) by lra.
    field. lra. }
  assert (Hlow : mass_a <= Ea).
  { apply (Rmult_le_reg_r (2 * total_energy)); [lra |]. rewrite HEa. nra. }
  assert (Hhigh : mass_b <= total_energy - Ea).
  { apply (Rmult_le_reg_r (2 * total_energy)); [lra |].
    replace ((total_energy - Ea) * (2 * total_energy))
      with (2 * total_energy * total_energy - Ea * (2 * total_energy))
      by ring.
    rewrite HEa. nra. }
  assert (Hrad : 0 <= Ea * Ea - mass_a * mass_a) by nra.
  assert (Hc : 0 <= 1.0 - c * c) by (unfold c; nra).
  set (pr := sqrt (Ea * Ea - mass_a * mass_a)).
  set (st := sqrt (1.0 - c * c)).
  assert (Hpr : pr * pr = Ea * Ea - mass_a * mass_a)
    by (apply sqrt_sqrt; exact Hrad).
  assert (Hst : st * st = 1 - c * c)
    by (unfold st; rewrite sqrt_sqrt by exact Hc; lra).
  pose proof (sin2_cos2 phi) as Htrig. unfold Rsqr in Htrig.
  assert (Hp : pr * cos phi * st * (pr * cos phi * st) +
               pr * sin phi * st * (pr * sin phi * st) +
               pr * c * (pr * c) = pr * pr).
  { replace (pr * cos phi * st * (pr * cos phi * st) +
             pr * sin phi * st * (pr * sin phi * st) + pr * c * (pr * c))
      with (pr * pr * ((sin phi * sin phi + cos phi * cos phi) * (st * st)
                       + c * c)) by ring.
    rewrite Htrig, Hst. ring. }
  rewrite Hp, Hpr.
  split; [reflexivity |]. split; [exact Hlow |]. split.
  - replace (mass_a * mass_a + (Ea * Ea - mass_a * mass_a)) with (Ea * Ea)
      by ring.
    symmetry. apply sqrt_square. lra.
  - replace (mass_b * mass_b + (Ea * Ea - mass_a * mass_a))
      with ((total_energy - Ea) * (total_energy - Ea)).
    + symmetry. apply sqrt_square. lra.
    + ring_simplify.
      replace (total_energy ^ 2 - 2 * total_energy * Ea + Ea ^ 2)
        with (total_energy * total_energy - Ea * (2 * total_energy)
              + Ea * Ea) by ring.
      rewrite HEa. ring.
Qed.

(** * Runs on the small particle table *)

(** Evaluate a run: compute, and settle the comparisons of reals. *)
Ltac run_box := repeat (progress (cbn; settle_R)).

Module Runs.

#[local] Existing Instances Box.constants Box.methods Box.registry
  Box.parametrizations Box.helpers Box.random.

(** *** C7 *)

Lemma detailed_balance_p_pi_minus :
  spin_in_range Box.proton /\ spin_in_range Box.pi_minus /\
  spin_in_range Box.neutron /\ spin_in_range Box.pi_zero /\
  detailed_balance_factor_stable 4
    Box.proton Box.pi_minus Box.neutron Box.pi_zero =
  (g Box.neutron * g Box.pi_zero / (g Box.proton * g Box.pi_minus)) *
  ((1 + delta Box.proton Box.pi_minus) / (1 + delta Box.neutron Box.pi_zero)) *
  (pCM_sqr_from_s 4 (mass Box.neutron) (mass Box.pi_zero) /
   pCM_sqr_from_s 4 (mass Box.proton) (mass Box.pi_minus)).
Proof.
  assert (Hp : spin_in_range Box.proton) by (unfold spin_in_range; cbn; lia).
  assert (Hpi : spin_in_range Box.pi_minus) by (unfold spin_in_range; cbn; lia).
  assert (Hn : spin_in_range Box.neutron) by (unfold spin_in_range; cbn; lia).
  assert (Hpz : spin_in_range Box.pi_zero) by (unfold spin_in_range; cbn; lia).
  repeat (split; [assumption |]).
  apply detailed_balance_factor_stable_product; assumption.
Defined.

(** *** C5 *)

(** For p N*(1535)+ at 2I = 2 and sqrt_s = 2.5 the code returns 7 / msqr,
    which is not 0, where the table of the specification has no row. *)
Lemma Nstar1535_at_isospin_2 :
  nn_to_resonance_matrix_element 2.5 Box.proton Box.Nstar_1535_plus 2 <>
  matrix_element_in_spec 2.5 Box.proton Box.Nstar_1535_plus 2.
Proof.
  unfold nn_to_resonance_matrix_element, matrix_element_in_spec,
    matrix_element_table, nstar_row_in_spec, by_isospin, uplmt, msqr.
  run_box.
  assert (0 < 7 / (2 * (0.938 * 0.938 + 1.53 * 1.53)))
    by (apply Rdiv_lt_0_compat; lra).
  lra.
Qed.

(** *** C10 *)

Lemma NNbar_creation_from_rho_h1 :
  find pdg.p = Ok Box.proton /\ find (- pdg.p)%Z = Ok Box.antiproton /\
  2 * mass Box.proton <= 2.5 /\
  find pdg.n = Ok Box.neutron /\ find (- pdg.n)%Z = Ok Box.antineutron /\
  NNbar_creation (Box.pair Box.rho_zero Box.h1_1170 2.5) =
  let xsection :=
    detailed_balance_factor_RR 2.5
      (cm_momentum (Box.pair Box.rho_zero Box.h1_1170 2.5))
      Box.rho_zero Box.h1_1170 Box.proton Box.antiproton *
    Rmax 0 (ppbar_total (2.5 * 2.5) - ppbar_elastic (2.5 * 2.5)) in
  Ok [branch2 Box.proton Box.antiproton xsection TwoToTwo;
      branch2 Box.neutron Box.antineutron xsection TwoToTwo].
Proof.
  assert (H1 : find pdg.p = Ok Box.proton) by reflexivity.
  assert (H2 : find (- pdg.p)%Z = Ok Box.antiproton) by reflexivity.
  assert (H3 : 2 * mass Box.proton <= 2.5) by (cbn; lra).
  assert (H4 : find pdg.n = Ok Box.neutron) by reflexivity.
  assert (H5 : find (- pdg.n)%Z = Ok Box.antineutron) by reflexivity.
  repeat (split; [assumption |]).
  exact (proj2 (NNbar_creation_branches
                  (Box.pair Box.rho_zero Box.h1_1170 2.5) _ _ H1 H2)
           H3 _ _ H4 H5).
Defined.

(** *** C6 *)

Lemma nn_el_of_two_protons :
  nn_sig_el (Box.pair Box.proton Box.proton 2.5) > 0
  /\ nn_el (Box.pair Box.proton Box.proton 2.5) =
     Ok (nn_sig_el (Box.pair Box.proton Box.proton 2.5)).
Proof.
  assert (H : nn_sig_el (Box.pair Box.proton Box.proton 2.5) > 0)
    by (unfold nn_sig_el; cbn; lra).
  split; [exact H |].
  exact (proj1 (proj2 (elastic_raise_iff_non_positive
                         (Box.pair Box.proton Box.proton 2.5))) H).
Defined.

(** *** C1 *)

Lemma run_p_pbar :
  generate_collision_list (Box.pair Box.proton Box.antiproton 2.5) (-1) false
    Box.only_elastic 0 false NoAnnihilation None Box.world0 =
  Ok ([branch2 Box.proton Box.antiproton 0 Elastic], Box.world0).
Proof.
  unfold generate_collision_list, elastic, elastic_parametrization.
  run_box. reflexivity.
Qed.

(** For p pbar with the parametrized elastic weight, the code's elastic
    branch has weight 0, not ppbar_elastic(s). *)
Lemma elastic_rule_of_spec_fails_for_p_pbar :
  exists l w',
    generate_collision_list (Box.pair Box.proton Box.antiproton 2.5) (-1) false
      Box.only_elastic 0 false NoAnnihilation None Box.world0 = Ok (l, w')
    /\ ~ elastic_branch_rule elastic_parametrization_in_spec
           (Box.pair Box.proton Box.antiproton 2.5) (-1) Box.only_elastic 0 l.
Proof.
  eexists _, _. split; [apply run_p_pbar |].
  unfold elastic_branch_rule, elastic_included, elastic_parametrization_in_spec, nn_el, nn_sig_el.
  run_box.
  intros (W & rest & Hl & _ & HW).
  inversion Hl; subst. inversion HW. lra.
Qed.

(** C1.  The code at a proton with an antiproton, sqrt_s = 2.5, with the
    parametrized elastic weight ([elastic_parameter] = -1) and the Elastic
    bit: the elastic branch is included, as the claim says, but with the
    weight 0 that [elastic_parametrization] defaults to, where the claim has
    the ppbar elastic parametrization.  [nn_el] has the case of that pair
    and would return ppbar_elastic(s) > 0: its only caller guards it by
    equal antiparticle signs, so the case is never reached. *)
Theorem elastic_of_p_pbar_misses_ppbar_elastic :
  let self := Box.pair Box.proton Box.antiproton 2.5 in
  generate_collision_list self (-1) false Box.only_elastic 0 false
    NoAnnihilation None Box.world0
  = Ok ([branch2 Box.proton Box.antiproton 0 Elastic], Box.world0)
  /\ elastic_parametrization self = Ok 0
  /\ nn_el self = Ok (ppbar_elastic (2.5 * 2.5))
  /\ 0 < ppbar_elastic (2.5 * 2.5).
Proof.
  cbv zeta. split; [exact run_p_pbar |]. split.
  - unfold elastic_parametrization. run_box. reflexivity.
  - split.
    + unfold nn_el, nn_sig_el. run_box. reflexivity.
    + cbn. lra.
Qed.

Lemma elastic_branch_of_two_protons :
  generate_collision_list (Box.pair Box.proton Box.proton 2.5) (-1) true
    Box.only_elastic 0 true Resonances (Some Box.strings) Box.world0 =
  Ok ([branch2 Box.proton Box.proton 7 Elastic], Box.world0)
  /\ elastic_branch_rule elastic_parametrization
       (Box.pair Box.proton Box.proton 2.5) (-1) Box.only_elastic 0
       [branch2 Box.proton Box.proton 7 Elastic].
Proof.
  assert (Hrun :
    generate_collision_list (Box.pair Box.proton Box.proton 2.5) (-1) true
      Box.only_elastic 0 true Resonances (Some Box.strings) Box.world0 =
    Ok ([branch2 Box.proton Box.proton 7 Elastic], Box.world0)).
  { unfold generate_collision_list, elastic, elastic_parametrization,
      decide_string, nn_el, two_to_one, two_to_two, nn_xx.
    run_box. reflexivity. }
  split; [exact Hrun |].
  exact (proj1 (elastic_branch_of_list _ _ _ _ _ _ _ _ _ _ _ Hrun)).
Defined.

(** *** C2 *)

Lemma annihilation_of_p_pbar :
  exists l before,
  let self := Box.pair Box.proton Box.antiproton 2.5 in
  is_nucleon (type (incoming_0 self)) = true
  /\ pdgcode (type (incoming_1 self)) =
     pdgcode (get_antiparticle (type (incoming_0 self)))
  /\ pdgcode (type (incoming_0 self)) <> pdg.rho_z
  /\ pdgcode (type (incoming_0 self)) <> pdg.h1
  /\ generate_collision_list self (-1) true Box.only_elastic 0 false
       Resonances None Box.world0 = Ok (l, Box.world0)
  /\ generate_collision_list self (-1) true Box.only_elastic 0 false
       NoAnnihilation None Box.world0 = Ok (before, Box.world0)
  /\ l = before ++
         [branch2 Box.h1_1170 Box.rho_zero
            (Rmax 0 (ppbar_total (2.5 * 2.5) - total_weight before)) TwoToTwo].
Proof.
  set (self := Box.pair Box.proton Box.antiproton 2.5).
  assert (Hrun : exists l, generate_collision_list self (-1) true Box.only_elastic 0 false
       Resonances None Box.world0 = Ok (l, Box.world0)).
  { eexists. unfold generate_collision_list, elastic, elastic_parametrization,
      decide_string, two_to_one, two_to_two, NNbar_annihilation.
    run_box. reflexivity. }
  destruct Hrun as [l Hrun].
  assert (H1 : is_nucleon (type (incoming_0 self)) = true) by reflexivity.
  assert (H2 : pdgcode (type (incoming_1 self)) =
     pdgcode (get_antiparticle (type (incoming_0 self)))) by reflexivity.
  assert (H3 : pdgcode (type (incoming_0 self)) <> pdg.rho_z) by (cbn; lia).
  assert (H4 : pdgcode (type (incoming_0 self)) <> pdg.h1) by (cbn; lia).
  destruct (NNbar_annihilation_is_the_residual self _ _ _ _ _ _ _ _ _ H1 H2 H3 H4 Hrun)
    as (before & th1 & trho & Hbefore & Hfh1 & Hfrho & Hl).
  exists l, before. cbv zeta.
  repeat (split; [assumption |]).
  assert (th1 = Box.h1_1170) by (cbn in Hfh1; inversion Hfh1; reflexivity).
  assert (trho = Box.rho_zero) by (cbn in Hfrho; inversion Hfrho; reflexivity).
  subst th1 trho. exact Hl.
Defined.

(** *** C3 *)

(** For pi+ pi- the list is the single elastic branch of weight 0. *)
Lemma elastic_branch_of_weight_zero :
  exists l w',
    generate_collision_list (Box.pair Box.pi_plus Box.pi_minus 1) (-1) false
      Box.only_elastic 0 false NoAnnihilation None Box.world0 = Ok (l, w')
    /\ ~ Forall above_really_small l.
Proof.
  exists [branch2 Box.pi_plus Box.pi_minus 0 Elastic], Box.world0. split.
  - unfold generate_collision_list, elastic, elastic_parametrization.
    run_box. reflexivity.
  - intros H. inversion H as [| b l' Hb _]; subst.
    unfold above_really_small in Hb. cbn in Hb. lra.
Qed.

Lemma weights_of_p_d :
  exists l,
    generate_collision_list (Box.pair Box.proton Box.deuteron 3) (-1) false
      Box.only_elastic 0 false NoAnnihilation None Box.world0
    = Ok (l, Box.world0)
    /\ List.length l = 2%nat
    /\ Forall (fun b => above_really_small b \/ appended_unfiltered b) l.
Proof.
  assert (Hrun : exists l,
    generate_collision_list (Box.pair Box.proton Box.deuteron 3) (-1) false
      Box.only_elastic 0 false NoAnnihilation None Box.world0
    = Ok (l, Box.world0) /\ List.length l = 2%nat).
  { eexists. split.
    - unfold generate_collision_list, elastic, elastic_parametrization,
        two_to_two, dn_xx.
      run_box. reflexivity.
    - reflexivity. }
  destruct Hrun as (l & Hrun & Hlen). exists l.
  split; [exact Hrun |]. split; [exact Hlen |].
  exact (proj1 (weights_above_really_small_or_unfiltered _ _ _ _ _ _ _ _ _ _ _ Hrun)).
Defined.

(** *** C4 *)

Lemma string_total_of_two_protons : Rmax 0 (high_energy (Box.pair Box.proton Box.proton 10) - 7) = 33.
Proof. unfold high_energy. run_box. rewrite Rmax_right by lra. lra. Qed.

Lemma string_budget_of_two_protons :
  let self := Box.pair Box.proton Box.proton 10 in
  exists l w',
    string_excitation self (Some Box.strings) Box.world0 = Ok (l, w')
    /\ elastic_parametrization self = Ok 7
    /\ let S := Rmax 0 (high_energy self - 7) in
       let b := string_budget S (2, 2, 1) (string_hard_cross_section self) in
       single_diffr_AX b + single_diffr_XB b + double_diffr b +
       nondiffractive_all b = S
       /\ l =
          (if sig_string_soft b >? 0
           then [branch0 (sig_string_soft b) StringSoft] else []) ++
          (if nondiffractive_hard b >? 0
           then [branch0 (nondiffractive_hard b) StringHard] else []).
Proof.
  intros self.
  assert (Hel : elastic_parametrization self = Ok 7).
  { unfold elastic_parametrization, nn_el, nn_sig_el. run_box. reflexivity. }
  assert (HS : Rmax 0 (high_energy self - 7) > 0).
  { unfold self. rewrite string_total_of_two_protons. lra. }
  assert (Hrun : exists l w',
            string_excitation self (Some Box.strings) Box.world0 = Ok (l, w')).
  { eexists _, _.
    apply (string_excitation_runs self Box.strings Box.world0 7 Hel HS).
    unfold self. rewrite string_total_of_two_protons. cbn.
    replace (Rmax 0 (33 - (2 + 2 + 1))) with 28
      by (rewrite Rmax_right by lra; lra).
    replace (Rmax 0 (33 - 28 - (2 + 2))) with 1
      by (rewrite Rmax_right by lra; lra).
    settle_R. cbn. discriminate. }
  destruct Hrun as (l & w' & Hrun). exists l, w'.
  split; [exact Hrun |]. split; [exact Hel |].
  destruct (string_excitation_budget self _ _ _ _ Hrun)
    as (el & Hel' & _ & Hhigh).
  rewrite Hel in Hel'. inversion Hel'; subst el.
  destruct (Hhigh HS) as (gen & AX & XB & DD & Hgen & Hxs & Hb).
  inversion Hgen; subst gen. cbn in Hxs. inversion Hxs; subst AX XB DD.
  cbv zeta in Hb. destruct Hb as (_ & _ & _ & _ & Hsum & _ & Hl).
  cbv zeta. split; [apply Hsum; lra | exact Hl].
Defined.

End Runs.

(** * Runs of the further properties *)

Module MoreRuns.

#[local] Existing Instances Box.constants Box.methods Box.registry
  Box.parametrizations Box.helpers Box.random Gas.eos Gas.actions.

Lemma Box_spins_in_range :
  spin_in_range Box.proton /\ spin_in_range Box.pi_minus /\
  spin_in_range Box.neutron /\ spin_in_range Box.pi_zero.
Proof. unfold spin_in_range. cbn. lia. Qed.

Lemma exp_unit_interval (x : R) : x <= 0 -> 0 < exp x <= 1.
Proof.
  intros Hx. split; [apply exp_pos |].
  destruct Hx as [Hneg | ->]; [| rewrite exp_0; lra].
  left. rewrite <- exp_0. apply exp_increasing. exact Hneg.
Qed.

(** *** X1 *)

Lemma detailed_balance_p_pi_minus_and_back :
  spin_in_range Box.proton /\ spin_in_range Box.pi_minus /\
  spin_in_range Box.neutron /\ spin_in_range Box.pi_zero /\
  pCM_sqr_from_s 4 (mass Box.proton) (mass Box.pi_minus) <> 0 /\
  pCM_sqr_from_s 4 (mass Box.neutron) (mass Box.pi_zero) <> 0 /\
  detailed_balance_factor_stable 4
    Box.proton Box.pi_minus Box.neutron Box.pi_zero *
  detailed_balance_factor_stable 4
    Box.neutron Box.pi_zero Box.proton Box.pi_minus = 1.
Proof.
  destruct Box_spins_in_range as (Hp & Hpi & Hn & Hpz).
  assert (H1 : pCM_sqr_from_s 4 (mass Box.proton) (mass Box.pi_minus) <> 0).
  { unfold pCM_sqr_from_s. cbn [mass Box.proton Box.pi_minus Box.stable_hadron].
    apply Rgt_not_eq. lra. }
  assert (H2 : pCM_sqr_from_s 4 (mass Box.neutron) (mass Box.pi_zero) <> 0).
  { unfold pCM_sqr_from_s. cbn [mass Box.neutron Box.pi_zero Box.stable_hadron].
    apply Rgt_not_eq. lra. }
  repeat (split; [assumption |]).
  apply detailed_balance_factor_stable_reciprocal; assumption.
Defined.

(** With the rho0 of [Gas.registry_with_rho], two pions at sqrt_s = 1 form
    it with a cross section above [really_small]. *)
Lemma formation_of_rho :
  really_small <
  formation (Reg := Gas.registry_with_rho)
    (Box.pair Box.pi_plus Box.pi_minus 1) Box.rho_zero
    (pCM_sqr 1 0.138 0.138).
Proof.
  unfold formation, pCM_sqr, pCM_sqr_from_s. cbn.
  rewrite Rleb_false by lra.
  pose proof PI_RGT_0 as Hpi.
  assert (H3 : 3 < PI)
    by (pose proof PI2_3_2 as H32; unfold PI2 in H32; lra).
  assert (Hpp : 9 < PI * PI) by nra.
  replace (3 / 1 * 1 * 2 * PI * PI) with (6 * (PI * PI)) by field.
  set (q := PI * PI) in *. lra.
Qed.

(** *** X3 *)

Lemma two_to_one_of_two_pions :
  let self := Box.pair Box.pi_plus Box.pi_minus 1 in
  0 <= really_small
  /\ (exists xs,
        two_to_one (Reg := Gas.registry_with_rho) self
        = [branch1 Box.rho_zero xs TwoToOne])
  /\ Forall
       (fun b =>
          total_charge (particle_types b) = total_charge (incoming_types self)
          /\ total_baryon_number (particle_types b) =
             total_baryon_number (incoming_types self))
       (two_to_one (Reg := Gas.registry_with_rho) self).
Proof.
  intros self.
  assert (H : 0 <= really_small) by (cbn; lra).
  split; [exact H |]. split.
  - eexists. unfold two_to_one. cbn -[formation pCM_sqr].
    assert (Hd : formation (Reg := Gas.registry_with_rho) self Box.dprime
                   (pCM_sqr 1 0.138 0.138) = 0) by reflexivity.
    assert (HN : formation (Reg := Gas.registry_with_rho) self
                   Box.Nstar_1535_plus (pCM_sqr 1 0.138 0.138) = 0)
      by reflexivity.
    assert (Hh : formation (Reg := Gas.registry_with_rho) self Box.h1_1170
                   (pCM_sqr 1 0.138 0.138) = 0)
      by (unfold formation; cbn; rewrite Rleb_true by lra; reflexivity).
    rewrite Hd, HN, Hh.
    rewrite (Rltb_false (1.0 / 1000000) 0) by lra.
    rewrite Rltb_true by exact formation_of_rho.
    reflexivity.
  - eapply Forall_impl;
      [| exact (two_to_one_conserves_quantum_numbers
                  (Reg := Gas.registry_with_rho) self H)].
    intros b (r & _ & _ & _ & _ & Hq & Hb & _). split; assumption.
Defined.

(** *** X6 *)

Lemma dn_xx_of_p_d :
  let self := Box.pair Box.proton Box.deuteron 3 in
  type (incoming_0 self) = Box.proton /\
  type (incoming_1 self) = Box.deuteron /\
  List.length (dn_xx self Box.no_reactions) = 1%nat /\
  Forall
    (fun b =>
       total_charge (particle_types b) = total_charge (incoming_types self)
       /\ total_baryon_number (particle_types b) =
          total_baryon_number (incoming_types self))
    (dn_xx self Box.no_reactions).
Proof.
  intros self.
  split; [reflexivity |]. split; [reflexivity |].
  split; [reflexivity |].
  eapply Forall_impl;
    [| exact (dn_xx_conserves_quantum_numbers self Box.no_reactions
                Box.proton Box.deuteron
                (or_introl (conj eq_refl eq_refl))
                eq_refl eq_refl eq_refl eq_refl)].
  intros b (d & _ & _ & _ & Hq & Hb). split; assumption.
Defined.

(** *** X7 *)

Lemma total_of_p_pbar :
  exists l before,
  let self := Box.pair Box.proton Box.antiproton 2.5 in
  is_nucleon (type (incoming_0 self)) = true
  /\ pdgcode (type (incoming_1 self)) =
     pdgcode (get_antiparticle (type (incoming_0 self)))
  /\ pdgcode (type (incoming_0 self)) <> pdg.rho_z
  /\ pdgcode (type (incoming_0 self)) <> pdg.h1
  /\ generate_collision_list self (-1) true Box.only_elastic 0 false
       Resonances None Box.world0 = Ok (l, Box.world0)
  /\ generate_collision_list self (-1) true Box.only_elastic 0 false
       NoAnnihilation None Box.world0 = Ok (before, Box.world0)
  /\ sum_xs_of l = Rmax (sum_xs_of before) (ppbar_total (2.5 * 2.5)).
Proof.
  set (self := Box.pair Box.proton Box.antiproton 2.5).
  assert (Hrun : exists l,
    generate_collision_list self (-1) true Box.only_elastic 0 false
      Resonances None Box.world0 = Ok (l, Box.world0)).
  { eexists. unfold generate_collision_list, elastic,
      elastic_parametrization, decide_string, two_to_one, two_to_two,
      NNbar_annihilation.
    run_box. reflexivity. }
  destruct Hrun as [l Hrun].
  assert (H1 : is_nucleon (type (incoming_0 self)) = true) by reflexivity.
  assert (H2 : pdgcode (type (incoming_1 self)) =
     pdgcode (get_antiparticle (type (incoming_0 self)))) by reflexivity.
  assert (H3 : pdgcode (type (incoming_0 self)) <> pdg.rho_z) by (cbn; lia).
  assert (H4 : pdgcode (type (incoming_0 self)) <> pdg.h1) by (cbn; lia).
  destruct (NNbar_total_reaches_ppbar_total self _ _ _ _ _ _ _ _ _
              H1 H2 H3 H4 Hrun) as (before & Hbefore & Hsum).
  exists l, before. cbv zeta.
  repeat (split; [assumption |]). exact Hsum.
Defined.

(** *** X14 *)

Lemma two_protons_without_strings :
  exists l,
    generate_collision_list (Box.pair Box.proton Box.proton 2.5) (-1) true
      Box.only_elastic 0 false Resonances None Box.world0 =
    Ok (l, Box.world0)
    /\ forall other_process other_world,
         generate_collision_list (Box.pair Box.proton Box.proton 2.5) (-1)
           true Box.only_elastic 0 false Resonances other_process
           other_world = Ok (l, other_world).
Proof.
  assert (Hrun : exists l,
    generate_collision_list (Box.pair Box.proton Box.proton 2.5) (-1) true
      Box.only_elastic 0 false Resonances None Box.world0 =
    Ok (l, Box.world0)).
  { eexists. unfold generate_collision_list, elastic,
      elastic_parametrization, decide_string, nn_el, two_to_one, two_to_two,
      nn_xx.
    run_box. reflexivity. }
  destruct Hrun as [l Hrun]. exists l. split; [exact Hrun |].
  exact (proj1 (proj2 (generate_collision_list_without_strings
                         _ _ _ _ _ _ _ _ _ _ Hrun))).
Defined.

(** The inputs of the string routine for two protons at sqrt_s = 10. *)
Lemma strings_of_two_protons :
  let self := Box.pair Box.proton Box.proton 10 in
  elastic_parametrization self = Ok 7
  /\ Rmax 0 (high_energy self - 7) = 33
  /\ string_hard_cross_section self = 3.
Proof.
  cbv zeta. refine (conj _ (conj _ _)).
  - unfold elastic_parametrization, nn_el, nn_sig_el. run_box. reflexivity.
  - unfold high_energy. run_box. rewrite Rmax_right by lra. lra.
  - unfold string_hard_cross_section. cbn. reflexivity.
Qed.

(** *** X12 *)

Lemma subprocess_of_two_protons :
  let self := Box.pair Box.proton Box.proton 10 in
  elastic_parametrization self = Ok 7
  /\ 2 + 2 + 1 < Rmax 0 (high_energy self - 7)
  /\ 0 <= string_hard_cross_section self
  /\ (forall x, x <= 0 -> 0 < std_exp x <= 1)
  /\ 0 <= uniform_stream (draws Box.world0) < 1
  /\ exists l i,
       string_excitation self (Some Box.strings) Box.world0 =
       Ok (l, mkWorld 1 (StringSoftType_of_index i))
       /\ (i < 4)%nat.
Proof.
  intros self.
  destruct strings_of_two_protons as (Hel & HS & Hhard). fold self in Hel, HS, Hhard.
  assert (Hroom : 2 + 2 + 1 < Rmax 0 (high_energy self - 7))
    by (rewrite HS; lra).
  assert (Hh : 0 <= string_hard_cross_section self) by (rewrite Hhard; lra).
  assert (Hexp : forall x, x <= 0 -> 0 < std_exp x <= 1)
    by exact exp_unit_interval.
  assert (Hu : 0 <= uniform_stream (draws Box.world0) < 1) by (cbn; lra).
  repeat (split; [assumption |]).
  destruct (string_excitation_selects_a_subprocess self Box.strings
              Box.world0 7 2 2 1 Hel eq_refl
              ltac:(lra) ltac:(lra) ltac:(lra) ltac:(lra) Hroom Hh Hexp Hu)
    as (l & i & Hrun & Hi & _).
  exists l, i. split; [exact Hrun | exact Hi].
Defined.

(** *** X13 *)

Lemma total_of_the_strings_of_two_protons :
  let self := Box.pair Box.proton Box.proton 10 in
  elastic_parametrization self = Ok 7
  /\ 2 + 2 + 1 < Rmax 0 (high_energy self - 7)
  /\ 0 <= string_hard_cross_section self
  /\ (forall x, x <= 0 -> 0 < std_exp x <= 1)
  /\ exists l w',
       string_excitation self (Some Box.strings) Box.world0 = Ok (l, w')
       /\ sum_xs_of l = Rmax 0 (high_energy self - 7).
Proof.
  intros self.
  destruct strings_of_two_protons as (Hel & HS & Hhard). fold self in Hel, HS, Hhard.
  assert (Hroom : 2 + 2 + 1 < Rmax 0 (high_energy self - 7))
    by (rewrite HS; lra).
  assert (Hh : 0 <= string_hard_cross_section self) by (rewrite Hhard; lra).
  assert (Hexp : forall x, x <= 0 -> 0 < std_exp x <= 1)
    by exact exp_unit_interval.
  repeat (split; [assumption |]).
  assert (Hrun : exists l w',
            string_excitation self (Some Box.strings) Box.world0 = Ok (l, w')).
  { eexists _, _.
    apply (string_excitation_runs self Box.strings Box.world0 7 Hel);
      [rewrite HS; lra |].
    rewrite HS, Hhard. cbn.
    replace (Rmax 0 (33 - (2 + 2 + 1))) with 28
      by (rewrite Rmax_right by lra; lra).
    replace (Rmax 0 (33 - 28 - (2 + 2))) with 1
      by (rewrite Rmax_right by lra; lra).
    settle_R. cbn. discriminate. }
  destruct Hrun as (l & w' & Hrun). exists l, w'.
  split; [exact Hrun |].
  exact (proj1 (string_excitation_carries_the_total self Box.strings
                  Box.world0 w' l 7 2 2 1 Hel eq_refl
                  ltac:(lra) ltac:(lra) ltac:(lra) ltac:(lra) Hroom Hh Hexp
                  Hrun)).
Defined.

(** *** X9 *)

Lemma high_energy_of_p_pi_in_both_orders :
  (forall x y, Pdg.is_antiparticle_of x y = Pdg.is_antiparticle_of y x)
  /\ high_energy
       (mk_cross_sections (Box.at_rest Box.proton) (Box.at_rest Box.pi_plus) 3)
     = high_energy
         (mk_cross_sections (Box.at_rest Box.pi_plus) (Box.at_rest Box.proton)
            3).
Proof.
  assert (H : forall x y,
            Pdg.is_antiparticle_of x y = Pdg.is_antiparticle_of y x).
  { intros x y. cbn.
    destruct (Z.eqb_spec x (- y)), (Z.eqb_spec y (- x)); try reflexivity; lia. }
  split; [exact H |].
  exact (proj1 (high_energy_order_independent _ _ 3 H)).
Defined.

(** *** X15 *)

Lemma breit_wigner_at_the_pole :
  1 <> 0 /\ 0 < 0.1 /\ breit_wigner 1 1 0.1 = 2 / (PI * 0.1).
Proof.
  assert (H1 : 1 <> 0) by lra. assert (H2 : 0 < 0.1) by lra.
  split; [exact H1 |]. split; [exact H2 |].
  apply (proj2 (breit_wigner_peak 1 1 0.1 H1 H2)). lra.
Defined.

(** *** X16 *)

Lemma cauchy_at_the_pole :
  0 < 0.1 /\ cauchy 1 1 0.1 = 1 / (PI * 0.1).
Proof.
  assert (H : 0 < 0.1) by lra. split; [exact H |].
  exact (proj1 (proj2 (cauchy_peak 1 1 0.1 H))).
Defined.

(** *** X20 *)

Lemma table_on_its_last_line :
  0 < EosTable.de_ Gas.table /\ 0 < EosTable.dnb_ Gas.table
  /\ IZR (EosTable.n_e_ Gas.table - 1) * EosTable.de_ Gas.table <= 2
  /\ EosTable.get Gas.index Gas.table 2 0.5 =
     Some (EosTable.mk_table_element (-1) (-1) (-1) (-1)).
Proof.
  assert (H1 : 0 < EosTable.de_ Gas.table) by (cbn; lra).
  assert (H2 : 0 < EosTable.dnb_ Gas.table) by (cbn; lra).
  assert (H3 : IZR (EosTable.n_e_ Gas.table - 1) * EosTable.de_ Gas.table <= 2)
    by (cbn; lra).
  repeat (split; [assumption |]).
  apply (EosTable_get_outside Gas.index Gas.table 2 0.5 H1 H2).
  right. left. exact H3.
Defined.

(** *** X21 *)

Lemma table_at_its_middle_node :
  0 < EosTable.de_ Gas.table /\ 0 < EosTable.dnb_ Gas.table
  /\ (0 <= 1 < EosTable.n_e_ Gas.table - 1)%Z
  /\ (0 <= 1 < EosTable.n_nb_ Gas.table - 1)%Z
  /\ nth_error (EosTable.table_ Gas.table) (Gas.index 1 1) =
     Some (Gas.node 2)
  /\ EosTable.get Gas.index Gas.table
       (IZR 1 * EosTable.de_ Gas.table) (IZR 1 * EosTable.dnb_ Gas.table) =
     Some (Gas.node 2).
Proof.
  assert (H1 : 0 < EosTable.de_ Gas.table) by (cbn; lra).
  assert (H2 : 0 < EosTable.dnb_ Gas.table) by (cbn; lra).
  assert (H3 : (0 <= 1 < EosTable.n_e_ Gas.table - 1)%Z) by (cbn; lia).
  assert (H4 : (0 <= 1 < EosTable.n_nb_ Gas.table - 1)%Z) by (cbn; lia).
  assert (H5 : nth_error (EosTable.table_ Gas.table) (Gas.index 1 1) =
               Some (Gas.node 2)) by reflexivity.
  repeat (split; [assumption |]).
  exact (EosTable_get_at_node Gas.index Gas.table 1 1
           (Gas.node 2) (Gas.node 3) (Gas.node 3) (Gas.node 4)
           H1 H2 H3 H4 H5 eq_refl eq_refl eq_refl).
Defined.

Lemma Zfloor_of_a_half : Zfloor (0.5 / 1) = 0%Z.
Proof. apply Zfloor_eq. lra. Qed.

(** *** X22 *)

Lemma table_inside_its_first_cell :
  0 < EosTable.de_ Gas.table /\ 0 < EosTable.dnb_ Gas.table
  /\ 0 <= 0.5 < IZR (EosTable.n_e_ Gas.table - 1) * EosTable.de_ Gas.table
  /\ 0 <= 0.5 < IZR (EosTable.n_nb_ Gas.table - 1) * EosTable.dnb_ Gas.table
  /\ exists res,
       EosTable.get Gas.index Gas.table 0.5 0.5 = Some res
       /\ 0 <= EosTable.T res <= 2.
Proof.
  assert (H1 : 0 < EosTable.de_ Gas.table) by (cbn; lra).
  assert (H2 : 0 < EosTable.dnb_ Gas.table) by (cbn; lra).
  assert (H3 : 0 <= 0.5 <
               IZR (EosTable.n_e_ Gas.table - 1) * EosTable.de_ Gas.table)
    by (cbn; lra).
  assert (H4 : 0 <= 0.5 <
               IZR (EosTable.n_nb_ Gas.table - 1) * EosTable.dnb_ Gas.table)
    by (cbn; lra).
  repeat (split; [assumption |]).
  assert (Hcell : forall i j : Z,
    nth_error (EosTable.table_ Gas.table)
      (Gas.index (Zfloor (0.5 / EosTable.de_ Gas.table) + i)
         (Zfloor (0.5 / EosTable.dnb_ Gas.table) + j)) =
    nth_error (EosTable.table_ Gas.table) (Gas.index i j)).
  { intros i j. cbn [EosTable.de_ EosTable.dnb_ Gas.table].
    rewrite Zfloor_of_a_half. reflexivity. }
  apply (EosTable_get_between_corners Gas.index Gas.table 0.5 0.5
           (Gas.node 0) (Gas.node 1) (Gas.node 1) (Gas.node 2)
           EosTable.T 0 2 H1 H2 H3 H4).
  - rewrite <- (Z.add_0_r (Zfloor (0.5 / EosTable.de_ Gas.table))).
    rewrite <- (Z.add_0_r (Zfloor (0.5 / EosTable.dnb_ Gas.table))).
    rewrite Hcell. reflexivity.
  - rewrite <- (Z.add_0_r (Zfloor (0.5 / EosTable.dnb_ Gas.table))).
    rewrite Hcell. reflexivity.
  - rewrite <- (Z.add_0_r (Zfloor (0.5 / EosTable.de_ Gas.table))).
    rewrite Hcell. reflexivity.
  - rewrite Hcell. reflexivity.
  - right. left. reflexivity.
  - repeat (apply Forall_cons; [cbn; lra |]). apply Forall_nil.
Defined.

(** *** X19 *)

Lemma strangeness_of_a_cold_gas :
  0 < really_small /\ 0 <= tolerance_
  /\ HadronGasEos.mus_net_strangeness0 0 0.3 = Ok ((0.3 + 0) / 2).
Proof.
  assert (H1 : 0 < really_small) by (cbn; lra).
  assert (H2 : 0 <= tolerance_) by (cbn; lra).
  split; [exact H1 |]. split; [exact H2 |].
  exact (mus_net_strangeness0_of_cold_gas 0 0.3 H1 H2).
Defined.

(** *** X23 *)

Lemma classes_of_p_and_pbar :
  nth_error (eos_typelist_ Gas.thermalizer) 0 = Some Box.proton
  /\ nth_error (eos_typelist_ Gas.thermalizer) 1 = Some Box.antiproton
  /\ get_class Gas.thermalizer 0 = Some 0%Z
  /\ get_class Gas.thermalizer 1 = Some 1%Z.
Proof.
  assert (H0 : get_class Gas.thermalizer 0 = Some 0%Z) by reflexivity.
  split; [reflexivity |]. split; [reflexivity |]. split; [exact H0 |].
  exact (proj2 (proj2 (get_class_of_antiparticle Gas.thermalizer 0 1
                         Box.proton Box.antiproton 0
                         eq_refl eq_refl eq_refl eq_refl eq_refl H0))).
Defined.

(** The two particles of the small gas meet after two time units. *)
Lemma collision_time_of_the_pair :
  Scatter.collision_time Gas.left_particle Gas.right_particle = 2.
Proof.
  unfold Scatter.collision_time, Scatter.sqr, Scatter.dot, Scatter.opp,
    Scatter.minus. cbn.
  rewrite Rabs_pos_eq by lra. rewrite Rltb_false by lra. lra.
Qed.

(** *** X25 *)

Lemma closest_approach_of_the_pair :
  0 < really_small
  /\ Scatter.collision_time Gas.right_particle Gas.left_particle =
     Scatter.collision_time Gas.left_particle Gas.right_particle.
Proof.
  assert (H : 0 < really_small) by (cbn; lra).
  split; [exact H |].
  exact (proj2 (proj2 (collision_time_is_closest_approach
                         Gas.left_particle Gas.right_particle H))).
Defined.

(** *** X27 *)

Lemma collision_of_the_pair :
  exists act,
    Scatter.check_collision Gas.finder Gas.left_particle Gas.right_particle
    = Some act
    /\ 0 <= Scatter.collision_time Gas.left_particle Gas.right_particle
       < Scatter.dt_ Gas.finder.
Proof.
  assert (Hrun : exists act,
    Scatter.check_collision Gas.finder Gas.left_particle Gas.right_particle
    = Some act).
  { eexists. unfold Scatter.check_collision. cbv zeta.
    rewrite collision_time_of_the_pair.
    cbn [Scatter.id_process Gas.left_particle Gas.right_particle Z.geb
         Z.compare andb Scatter.dt_ Gas.finder].
    rewrite (Rltb_false 2 0) by lra. rewrite (Rleb_false 5 2) by lra.
    cbn [orb Scatter.is_baryon andb Scatter.ScatterActionBaryonBaryon
         Scatter.add_process Scatter.add_processes Scatter.particle_distance
         Scatter.weight Gas.actions fm2_mb Box.helpers].
    rewrite Rleb_false; [reflexivity |].
    apply Rmult_lt_0_compat; [lra |].
    apply Rdiv_lt_0_compat; [lra | apply PI_RGT_0]. }
  destruct Hrun as [act Hrun]. exists act. split; [exact Hrun |].
  exact (proj1 (proj2 (check_collision_guards _ _ _ _ Hrun))).
Defined.

(** *** X28 *)

Lemma decay_of_a_Delta_plus_plus :
  Gas.charge_of 211%Z = 1%Z /\ Gas.charge_of (-211)%Z = (-1)%Z
  /\ Gas.charge_of 111%Z = 0%Z
  /\ Gas.charge_of 2212%Z = 1%Z /\ Gas.charge_of 2112%Z = 0%Z
  /\ Gas.charge_of (-2212)%Z = (-1)%Z /\ Gas.charge_of (-2112)%Z = 0%Z
  /\ resonance_decay_channel 3 2 2224 1.232 (fun _ => 0) = (2212, 211)%Z
  /\ (Gas.charge_of 2212 + Gas.charge_of 211)%Z = 2%Z.
Proof.
  repeat (split; [reflexivity |]).
  exact (resonance_decay_channel_conserves_charge Gas.charge_of 3 2 2224
           1.232 (fun _ => 0)
           eq_refl eq_refl eq_refl eq_refl eq_refl eq_refl eq_refl).
Defined.

(** *** X29 *)

Lemma momentum_of_a_decaying_Delta :
  0 <= 0.938 /\ 0 <= 0.138 /\ 0 < 1.232 /\ 0.938 + 0.138 <= 1.232
  /\ 0 <= 0.5 <= 1
  /\ 0.938 <= energy_a (resonance_decay_momentum 1.232 0.938 0.138 0.25 0.5).
Proof.
  assert (H1 : 0 <= 0.938) by lra. assert (H2 : 0 <= 0.138) by lra.
  assert (H3 : 0 < 1.232) by lra.
  assert (H4 : 0.938 + 0.138 <= 1.232) by lra.
  assert (H5 : 0 <= 0.5 <= 1) by lra.
  repeat (split; [assumption |]).
  exact (proj1 (proj2 (resonance_decay_momentum_on_shell
                         1.232 0.938 0.138 0.25 0.5 H1 H2 H3 H4 H5))).
Defined.

(** *** X30 *)

Lemma two_protons_with_strings :
  let self := Box.pair Box.proton Box.proton 10 in
  is_nucleon (type (incoming_0 self)) = true
  /\ is_nucleon (type (incoming_1 self)) = true
  /\ 5.0 < sqrt_s_ self
  /\ exists l w',
       generate_collision_list self (-1) true Box.only_elastic 0 true
         Resonances (Some Box.strings) Box.world0 = Ok (l, w')
       /\ Forall (fun b => get_type b <> TwoToOne) l.
Proof.
  intros self.
  assert (H1 : is_nucleon (type (incoming_0 self)) = true) by reflexivity.
  assert (H2 : is_nucleon (type (incoming_1 self)) = true) by reflexivity.
  assert (H3 : 5.0 < sqrt_s_ self) by (cbn; lra).
  repeat (split; [assumption |]).
  destruct strings_of_two_protons as (Hel & HS & Hhard).
  fold self in Hel, HS, Hhard.
  assert (Hstring : exists ls w',
            string_excitation self (Some Box.strings) Box.world0
            = Ok (ls, w')).
  { eexists _, _.
    apply (string_excitation_runs self Box.strings Box.world0 7 Hel);
      [rewrite HS; lra |].
    rewrite HS, Hhard. cbn.
    replace (Rmax 0 (33 - (2 + 2 + 1))) with 28
      by (rewrite Rmax_right by lra; lra).
    replace (Rmax 0 (33 - 28 - (2 + 2))) with 1
      by (rewrite Rmax_right by lra; lra).
    settle_R. cbn. discriminate. }
  destruct Hstring as (ls & w' & Hstring).
  assert (Hfirst : exists e,
    (if test Box.only_elastic IR_Elastic &&
        negb (is_nucleon (type (incoming_0 self)) &&
              is_nucleon (type (incoming_1 self)) &&
              (antiparticle_sign (type (incoming_0 self)) =?
               antiparticle_sign (type (incoming_1 self)))%Z &&
              (sqrt_s_ self <? 0))
     then (el <- lift (elastic self (-1));; M_ret ([] ++ [el]))%m
     else M_ret []) Box.world0 = Ok ([e], Box.world0)).
  { eexists. unfold elastic. rewrite Hel. run_box. reflexivity. }
  destruct Hfirst as [e Hfirst].
  assert (Hrun : exists l,
            generate_collision_list self (-1) true Box.only_elastic 0 true
              Resonances (Some Box.strings) Box.world0 = Ok (l, w')).
  { eexists. unfold generate_collision_list. cbv zeta.
    etransitivity;
      [apply M_bind_run;
       exact (decide_string_above_the_window self Box.world0 H3) |].
    etransitivity; [apply M_bind_run; exact Hfirst |].
    cbv beta iota.
    etransitivity;
      [apply M_bind_run; etransitivity;
       [apply M_bind_run; exact Hstring | reflexivity] |].
    reflexivity. }
  destruct Hrun as [l Hrun]. exists l, w'. split; [exact Hrun |].
  destruct (generate_collision_list_with_strings _ _ _ _ _ _ _ _ _ _
              H1 H2 H3 Hrun) as (? & ? & ? & _ & _ & _ & _ & _ & Hno).
  exact Hno.
Defined.

End MoreRuns.
